(** * Frame-resource pipelining of the castle demos

    A shallow embedding of the per-frame CPU/GPU synchronisation core of
    [Final Project/Castle/CastleApp.cpp] and
    [Assignment 1/Project/LitColumnsApp.cpp]: the ring of frame
    resources, the fence, and the dirty-tracked propagation of
    per-object and per-material constants.

    C++ [int] and [UINT64] values are [Z]; container positions ([UINT]
    indices into buffers, positions in [std::vector]) are [nat];
    [std::unordered_map<std::string, _>] is [gmap string _].  A function
    of the program that can run into undefined behaviour (a null or
    out-of-range access) returns [None] there. *)

From Stdlib Require QArith.
From stdpp Require Import base numbers option list sorting gmap strings.

Local Open Scope Z_scope.

(** ** Scalars and DirectXMath

    Single-precision floats are kept abstract: the program only moves
    them around, except for the arithmetic collected in [Float32]. *)

Class Float32 (F : Type) := {
(** [f_dec m e]: the float denoted by the decimal literal [m * 10^-e]. *)
f_dec : Z → nat → F;
(** conversion of an [int], as in [(float)mClientWidth] *)
f_of_int : Z → F;
f_add : F → F → F;
f_sub : F → F → F;
f_mul : F → F → F;
f_div : F → F → F;
f_ge : F → F → bool;
sinf : F → F;
cosf : F → F;
}.

Record XMFLOAT2 (F : Type) := MkFloat2 { x2 : F; y2 : F }.
Record XMFLOAT3 (F : Type) := MkFloat3 { x3 : F; y3 : F; z3 : F }.
Record XMFLOAT4 (F : Type) := MkFloat4 { x4 : F; y4 : F; z4 : F; w4 : F }.

(** A 4x4 matrix, row by row; [XMMATRIX] and [XMFLOAT4X4] hold the same
    sixteen floats, so [XMLoadFloat4x4] and [XMStoreFloat4x4] are the
    identity on this type. *)
Record XMFLOAT4X4 (F : Type) := MkFloat4x4 {
  row0 : XMFLOAT4 F; row1 : XMFLOAT4 F; row2 : XMFLOAT4 F; row3 : XMFLOAT4 F
}.

Global Arguments MkFloat2 {F} _ _.
Global Arguments x2 {F} _.
Global Arguments y2 {F} _.
Global Arguments MkFloat3 {F} _ _ _.
Global Arguments x3 {F} _.
Global Arguments y3 {F} _.
Global Arguments z3 {F} _.
Global Arguments MkFloat4 {F} _ _ _ _.
Global Arguments x4 {F} _.
Global Arguments y4 {F} _.
Global Arguments z4 {F} _.
Global Arguments w4 {F} _.
Global Arguments MkFloat4x4 {F} _ _ _ _.
Global Arguments row0 {F} _.
Global Arguments row1 {F} _.
Global Arguments row2 {F} _.
Global Arguments row3 {F} _.

Section Matrices.
Context {F : Type} `{!Float32 F}.

(** [MathHelper::Identity4x4] *)
Definition Identity4x4 : XMFLOAT4X4 F :=
  let o := f_dec 1 0 in
  let z := f_dec 0 0 in
  MkFloat4x4 (MkFloat4 o z z z) (MkFloat4 z o z z)
             (MkFloat4 z z o z) (MkFloat4 z z z o).

(** [XMMatrixTranspose]: rows become columns. *)
Definition XMMatrixTranspose (M : XMFLOAT4X4 F) : XMFLOAT4X4 F :=
  MkFloat4x4
    (MkFloat4 (x4 (row0 M)) (x4 (row1 M)) (x4 (row2 M)) (x4 (row3 M)))
    (MkFloat4 (y4 (row0 M)) (y4 (row1 M)) (y4 (row2 M)) (y4 (row3 M)))
    (MkFloat4 (z4 (row0 M)) (z4 (row1 M)) (z4 (row2 M)) (z4 (row3 M)))
    (MkFloat4 (w4 (row0 M)) (w4 (row1 M)) (w4 (row2 M)) (w4 (row3 M))).

(** The two entries [M(3, 0)] and [M(3, 1)] that [AnimateMaterials]
    reads and writes through [XMFLOAT4X4::operator()]. *)
Definition get30 (M : XMFLOAT4X4 F) : F := x4 (row3 M).
Definition get31 (M : XMFLOAT4X4 F) : F := y4 (row3 M).
Definition set30 (v : F) (M : XMFLOAT4X4 F) : XMFLOAT4X4 F :=
  MkFloat4x4 (row0 M) (row1 M) (row2 M)
             (MkFloat4 v (y4 (row3 M)) (z4 (row3 M)) (w4 (row3 M))).
Definition set31 (v : F) (M : XMFLOAT4X4 F) : XMFLOAT4X4 F :=
  MkFloat4x4 (row0 M) (row1 M) (row2 M)
             (MkFloat4 (x4 (row3 M)) v (z4 (row3 M)) (w4 (row3 M))).
End Matrices.

(** The DirectXMath routines the program calls and whose arithmetic is
    not reproduced here.  [XMMatrixInverse] is given the value found
    behind its [pDeterminant] argument, as at the call sites. *)
Class DirectXMath (F : Type) := {
  XMMatrixMultiply : XMFLOAT4X4 F → XMFLOAT4X4 F → XMFLOAT4X4 F;
  XMMatrixDeterminant : XMFLOAT4X4 F → XMFLOAT4 F;
  XMMatrixInverse : XMFLOAT4 F → XMFLOAT4X4 F → XMFLOAT4X4 F;
  XMMatrixLookAtLH : XMFLOAT4 F → XMFLOAT4 F → XMFLOAT4 F → XMFLOAT4X4 F;
}.

(** ** Constants and scene records *)

(** [const int gNumFrameResources = 3;] *)
Definition gNumFrameResources : Z := 3.

(** [D3DApp::SwapChainBufferCount] *)
Definition SwapChainBufferCount : Z := 2.

Inductive D3D12_PRIMITIVE_TOPOLOGY :=
  | TOPOLOGY_TRIANGLELIST
  | TOPOLOGY_POINTLIST.

(** [struct RenderItem].  [Mat] and [Geo] are the keys of the entries of
    [mMaterials] and [mGeometries] the two pointers refer to; [DrawArgs]
    is the key of the submesh whose [IndexCount], [StartIndexLocation]
    and [BaseVertexLocation] the item copies. *)
Record RenderItem (F : Type) := MkRenderItem {
  World : XMFLOAT4X4 F;
  TexTransform : XMFLOAT4X4 F;
  NumFramesDirty : Z;
  ObjCBIndex : nat;
  Mat : string;
  Geo : string;
  PrimitiveType : D3D12_PRIMITIVE_TOPOLOGY;
  DrawArgs : string
}.

Global Arguments MkRenderItem {F} _ _ _ _ _ _ _ _.
Global Arguments World {F} _.
Global Arguments TexTransform {F} _.
Global Arguments NumFramesDirty {F} _.
Global Arguments ObjCBIndex {F} _.
Global Arguments Mat {F} _.
Global Arguments Geo {F} _.
Global Arguments PrimitiveType {F} _.
Global Arguments DrawArgs {F} _.

(** [struct Material] of [Common/d3dUtil.h], with the members the two
    applications read and write. *)
Record Material (F : Type) := MkMaterial {
  Name : string;
  MatCBIndex : nat;
  DiffuseSrvHeapIndex : nat;
  MatNumFramesDirty : Z;
  DiffuseAlbedo : XMFLOAT4 F;
  FresnelR0 : XMFLOAT3 F;
  Roughness : F;
  MatTransform : XMFLOAT4X4 F
}.

Global Arguments MkMaterial {F} _ _ _ _ _ _ _ _.
Global Arguments Name {F} _.
Global Arguments MatCBIndex {F} _.
Global Arguments DiffuseSrvHeapIndex {F} _.
Global Arguments MatNumFramesDirty {F} _.
Global Arguments DiffuseAlbedo {F} _.
Global Arguments FresnelR0 {F} _.
Global Arguments Roughness {F} _.
Global Arguments MatTransform {F} _.

(** [struct ObjectConstants], [MaterialConstants], [PassConstants] and
    [Vertex] of the applications' [FrameResource.h]. *)
Record ObjectConstants (F : Type) := MkObjectConstants {
  oc_World : XMFLOAT4X4 F;
  oc_TexTransform : XMFLOAT4X4 F
}.

Global Arguments MkObjectConstants {F} _ _.
Global Arguments oc_World {F} _.
Global Arguments oc_TexTransform {F} _.

Record MaterialConstants (F : Type) := MkMaterialConstants {
  mc_DiffuseAlbedo : XMFLOAT4 F;
  mc_FresnelR0 : XMFLOAT3 F;
  mc_Roughness : F;
  mc_MatTransform : XMFLOAT4X4 F
}.

Global Arguments MkMaterialConstants {F} _ _ _ _.
Global Arguments mc_DiffuseAlbedo {F} _.
Global Arguments mc_FresnelR0 {F} _.
Global Arguments mc_Roughness {F} _.
Global Arguments mc_MatTransform {F} _.

(** The lighting block of [PassConstants] (ambient colour and the
    [Lights] array) is filled with literals only and is left out. *)
Record PassConstants (F : Type) := MkPassConstants {
  pc_View : XMFLOAT4X4 F;
  pc_InvView : XMFLOAT4X4 F;
  pc_Proj : XMFLOAT4X4 F;
  pc_InvProj : XMFLOAT4X4 F;
  pc_ViewProj : XMFLOAT4X4 F;
  pc_InvViewProj : XMFLOAT4X4 F;
  pc_EyePosW : XMFLOAT3 F;
  pc_RenderTargetSize : XMFLOAT2 F;
  pc_InvRenderTargetSize : XMFLOAT2 F;
  pc_NearZ : F;
  pc_FarZ : F;
  pc_TotalTime : F;
  pc_DeltaTime : F
}.

Global Arguments MkPassConstants {F} _ _ _ _ _ _ _ _ _ _ _ _ _.
Global Arguments pc_View {F} _.
Global Arguments pc_InvView {F} _.
Global Arguments pc_Proj {F} _.
Global Arguments pc_InvProj {F} _.
Global Arguments pc_ViewProj {F} _.
Global Arguments pc_InvViewProj {F} _.
Global Arguments pc_EyePosW {F} _.
Global Arguments pc_RenderTargetSize {F} _.
Global Arguments pc_InvRenderTargetSize {F} _.
Global Arguments pc_NearZ {F} _.
Global Arguments pc_FarZ {F} _.
Global Arguments pc_TotalTime {F} _.
Global Arguments pc_DeltaTime {F} _.

Record Vertex (F : Type) := MkVertex {
  Pos : XMFLOAT3 F;
  Normal : XMFLOAT3 F;
  TexC : XMFLOAT2 F
}.

Global Arguments MkVertex {F} _ _ _.
Global Arguments Pos {F} _.
Global Arguments Normal {F} _.
Global Arguments TexC {F} _.

(** ** Upload buffers and frame resources *)

(** Modelled from the spec: [UploadBuffer<T>] of [Common/UploadBuffer.h],
    which is not part of the sources.  It is a persistently mapped array
    of [elementCount] records; a record never written holds no data
    ([None]).  [CopyData(index, data)] writes record [index] and leaves
    the others alone; its precondition is [index < elementCount], and a
    call outside it is undefined behaviour. *)
Abbreviation UploadBuffer T := (list (option T)) (only parsing).

Definition UploadBuffer_new {T : Type} (elementCount : nat) : UploadBuffer T :=
  replicate elementCount None.

(** Modelled from the spec: the record write of the ring buffer. *)
Definition CopyData {T : Type} (elementIndex : nat) (data : T)
    (b : UploadBuffer T) : option (UploadBuffer T) :=
  if decide (elementIndex < length b)%nat
  then Some (<[elementIndex := Some data]> b)
  else None.

(** What [UploadBuffer::Resource()] and the geometry buffers hand out:
    the identity of a GPU resource.  Every frame resource owns its own
    upload buffers, so such a buffer is known by its slot and its role. *)
Inductive BufferRole := PassRole | MaterialRole | ObjectRole | WavesRole.

Inductive ID3D12Resource :=
  | UploadResource (slot : nat) (role : BufferRole)
  | DefaultBuffer (geometry : string).

Global Instance BufferRole_eq_dec : EqDecision BufferRole.
Proof. solve_decision. Defined.

Global Instance ID3D12Resource_eq_dec : EqDecision ID3D12Resource.
Proof. solve_decision. Defined.

(** Modelled from the spec: [struct FrameResource] of the applications'
    [FrameResource.h].  [Fence] is the completion marker, 0 until the
    slot is first submitted.  [WavesVB] is the dynamic vertex buffer of
    the castle ([V] is an upload buffer of vertices there); the columns
    demo has no such member ([V] is [unit]). *)
Record FrameResource (F V : Type) := MkFrameResource {
  PassCB : UploadBuffer (PassConstants F);
  MaterialCB : UploadBuffer (MaterialConstants F);
  ObjectCB : UploadBuffer (ObjectConstants F);
  WavesVB : V;
  Fence : Z
}.

Global Arguments MkFrameResource {F V} _ _ _ _ _.
Global Arguments PassCB {F V} _.
Global Arguments MaterialCB {F V} _.
Global Arguments ObjectCB {F V} _.
Global Arguments WavesVB {F V} _.
Global Arguments Fence {F V} _.

(** Modelled from the spec: the constructor
    [FrameResource(device, passCount, objectCount, materialCount, ...)]. *)
Definition FrameResource_new {F V : Type}
    (passCount objectCount materialCount : nat) (waves : V) : FrameResource F V :=
  MkFrameResource (UploadBuffer_new passCount) (UploadBuffer_new materialCount)
                  (UploadBuffer_new objectCount) waves 0.

(** [struct MeshGeometry], reduced to the vertex-buffer binding that
    [UpdateWaves] repoints; [None] is [nullptr]. *)
Record MeshGeometry := MkMeshGeometry {
  VertexBufferGPU : option ID3D12Resource
}.

(** ** Observable effects

    The calls that leave the CPU-side state are recorded, newest first:
    waits on the fence, record writes into upload buffers, submissions
    to the command queue and fence signals. *)

(** One [DrawIndexedInstanced] as [DrawRenderItems] records it: the
    bound vertex buffer and the records of the object and material
    buffers the constant-buffer views point at. *)
Record DrawCall := MkDrawCall {
  dc_VertexBuffer : option ID3D12Resource;
  dc_Topology : D3D12_PRIMITIVE_TOPOLOGY;
  dc_ObjCBIndex : nat;
  dc_MatCBIndex : nat;
  dc_DrawArgs : string
}.

Inductive Effect (F : Type) :=
  | E_WaitForSingleObject (fenceValue : Z)
  | E_CopyPass (slot index : nat) (data : PassConstants F)
  | E_CopyObject (slot index : nat) (data : ObjectConstants F)
  | E_CopyMaterial (slot index : nat) (data : MaterialConstants F)
  | E_CopyVertex (slot index : nat) (data : Vertex F)
  | E_ExecuteCommandLists (slot : nat) (calls : list DrawCall)
  | E_Signal (fenceValue : Z).

Global Arguments E_WaitForSingleObject {F} _.
Global Arguments E_CopyPass {F} _ _ _.
Global Arguments E_CopyObject {F} _ _ _.
Global Arguments E_CopyMaterial {F} _ _ _.
Global Arguments E_CopyVertex {F} _ _ _.
Global Arguments E_ExecuteCommandLists {F} _ _.
Global Arguments E_Signal {F} _.

(** ** The fence and the GPU timeline

    Modelled from the spec: the fence primitive ([signal], [completedValue],
    [waitUntil]) and the single command queue.  The queue holds the fence
    values of the [Signal] commands the GPU has not reached yet, oldest
    first; reaching one stores its value in the fence. *)

(** The GPU reaches the next [n] signals of the queue. *)
Fixpoint gpu_run (n : nat) (completed : Z) (pending : list Z) : Z * list Z :=
  match n, pending with
  | S n', v :: rest => gpu_run n' v rest
  | _, _ => (completed, pending)
  end.

(** [SetEventOnCompletion(v, event)] followed by
    [WaitForSingleObject(event, INFINITE)]: the thread resumes as soon
    as the fence holds at least [v].  [None]: no queued signal ever
    brings the fence that far and the wait does not return. *)
Fixpoint WaitForFence (v : Z) (completed : Z) (pending : list Z)
    : option (Z * list Z) :=
  if decide (v ≤ completed) then Some (completed, pending)
  else match pending with
       | [] => None
       | s :: rest => WaitForFence v s rest
       end.

(** [UINT64] increment. *)
Definition UINT64_incr (v : Z) : Z := (v + 1) `mod` 2 ^ 64.

(** ** Application state *)

(** Members of the base class [D3DApp] used by the frame loop;
    [mFence] is the completed value of the fence object and
    [mCommandQueue] the signals still queued on the GPU. *)
Record D3DApp := MkD3DApp {
  mCurrentFence : Z;
  mFence : Z;
  mCommandQueue : list Z;
  mCurrBackBuffer : Z;
  mClientWidth : Z;
  mClientHeight : Z
}.

(** The members both applications declare.  [mCurrFrameResource] points
    into [mFrameResources]: it is the position of the pointee, [None]
    for [nullptr].  [objCBIndex] is the counter the columns demo calls
    [objectIndex].  [ext] holds what only one of the applications has,
    [mLog] the effects so far. *)
Record App (F V X : Type) := MkApp {
  base : D3DApp;
  mFrameResources : list (FrameResource F V);
  mCurrFrameResource : option nat;
  mCurrFrameResourceIndex : Z;
  mGeometries : gmap string MeshGeometry;
  mMaterials : gmap string (Material F);
  mAllRitems : list (RenderItem F);
  mMainPassCB : PassConstants F;
  mEyePos : XMFLOAT3 F;
  mView : XMFLOAT4X4 F;
  mProj : XMFLOAT4X4 F;
  mTheta : F;
  mPhi : F;
  mRadius : F;
  objCBIndex : nat;
  ext : X;
  mLog : list (Effect F)
}.

Global Arguments MkApp {F V X} _ _ _ _ _ _ _ _ _ _ _ _ _ _ _ _ _.
Global Arguments base {F V X} _.
Global Arguments mFrameResources {F V X} _.
Global Arguments mCurrFrameResource {F V X} _.
Global Arguments mCurrFrameResourceIndex {F V X} _.
Global Arguments mGeometries {F V X} _.
Global Arguments mMaterials {F V X} _.
Global Arguments mAllRitems {F V X} _.
Global Arguments mMainPassCB {F V X} _.
Global Arguments mEyePos {F V X} _.
Global Arguments mView {F V X} _.
Global Arguments mProj {F V X} _.
Global Arguments mTheta {F V X} _.
Global Arguments mPhi {F V X} _.
Global Arguments mRadius {F V X} _.
Global Arguments objCBIndex {F V X} _.
Global Arguments ext {F V X} _.
Global Arguments mLog {F V X} _.

(** Field updates, written [a.[field := v]] in comments below. *)
Section Setters.
Context {F V X : Type}.
Implicit Types (a : App F V X) (d : D3DApp).

Definition set_mCurrentFence (v : Z) d : D3DApp :=
  MkD3DApp v (mFence d) (mCommandQueue d) (mCurrBackBuffer d)
           (mClientWidth d) (mClientHeight d).
Definition set_gpu (v : Z * list Z) d : D3DApp :=
  MkD3DApp (mCurrentFence d) v.1 v.2 (mCurrBackBuffer d)
           (mClientWidth d) (mClientHeight d).
Definition set_mCommandQueue (v : list Z) d : D3DApp :=
  MkD3DApp (mCurrentFence d) (mFence d) v (mCurrBackBuffer d)
           (mClientWidth d) (mClientHeight d).
Definition set_mCurrBackBuffer (v : Z) d : D3DApp :=
  MkD3DApp (mCurrentFence d) (mFence d) (mCommandQueue d) v
           (mClientWidth d) (mClientHeight d).

Definition set_base (v : D3DApp) a : App F V X :=
  MkApp v (mFrameResources a) (mCurrFrameResource a)
    (mCurrFrameResourceIndex a) (mGeometries a) (mMaterials a)
    (mAllRitems a) (mMainPassCB a) (mEyePos a) (mView a) (mProj a)
    (mTheta a) (mPhi a) (mRadius a) (objCBIndex a) (ext a) (mLog a).
Definition set_mFrameResources (v : list (FrameResource F V)) a : App F V X :=
  MkApp (base a) v (mCurrFrameResource a)
    (mCurrFrameResourceIndex a) (mGeometries a) (mMaterials a)
    (mAllRitems a) (mMainPassCB a) (mEyePos a) (mView a) (mProj a)
    (mTheta a) (mPhi a) (mRadius a) (objCBIndex a) (ext a) (mLog a).
Definition set_current (i : Z) (p : option nat) a : App F V X :=
  MkApp (base a) (mFrameResources a) p i (mGeometries a) (mMaterials a)
    (mAllRitems a) (mMainPassCB a) (mEyePos a) (mView a) (mProj a)
    (mTheta a) (mPhi a) (mRadius a) (objCBIndex a) (ext a) (mLog a).
Definition set_mGeometries (v : gmap string MeshGeometry) a : App F V X :=
  MkApp (base a) (mFrameResources a) (mCurrFrameResource a)
    (mCurrFrameResourceIndex a) v (mMaterials a)
    (mAllRitems a) (mMainPassCB a) (mEyePos a) (mView a) (mProj a)
    (mTheta a) (mPhi a) (mRadius a) (objCBIndex a) (ext a) (mLog a).
Definition set_mMaterials (v : gmap string (Material F)) a : App F V X :=
  MkApp (base a) (mFrameResources a) (mCurrFrameResource a)
    (mCurrFrameResourceIndex a) (mGeometries a) v
    (mAllRitems a) (mMainPassCB a) (mEyePos a) (mView a) (mProj a)
    (mTheta a) (mPhi a) (mRadius a) (objCBIndex a) (ext a) (mLog a).
Definition set_mAllRitems (v : list (RenderItem F)) a : App F V X :=
  MkApp (base a) (mFrameResources a) (mCurrFrameResource a)
    (mCurrFrameResourceIndex a) (mGeometries a) (mMaterials a)
    v (mMainPassCB a) (mEyePos a) (mView a) (mProj a)
    (mTheta a) (mPhi a) (mRadius a) (objCBIndex a) (ext a) (mLog a).
Definition set_mMainPassCB (v : PassConstants F) a : App F V X :=
  MkApp (base a) (mFrameResources a) (mCurrFrameResource a)
    (mCurrFrameResourceIndex a) (mGeometries a) (mMaterials a)
    (mAllRitems a) v (mEyePos a) (mView a) (mProj a)
    (mTheta a) (mPhi a) (mRadius a) (objCBIndex a) (ext a) (mLog a).
Definition set_camera (e : XMFLOAT3 F) (v : XMFLOAT4X4 F) a : App F V X :=
  MkApp (base a) (mFrameResources a) (mCurrFrameResource a)
    (mCurrFrameResourceIndex a) (mGeometries a) (mMaterials a)
    (mAllRitems a) (mMainPassCB a) e v (mProj a)
    (mTheta a) (mPhi a) (mRadius a) (objCBIndex a) (ext a) (mLog a).
Definition set_objCBIndex (v : nat) a : App F V X :=
  MkApp (base a) (mFrameResources a) (mCurrFrameResource a)
    (mCurrFrameResourceIndex a) (mGeometries a) (mMaterials a)
    (mAllRitems a) (mMainPassCB a) (mEyePos a) (mView a) (mProj a)
    (mTheta a) (mPhi a) (mRadius a) v (ext a) (mLog a).
Definition set_ext (v : X) a : App F V X :=
  MkApp (base a) (mFrameResources a) (mCurrFrameResource a)
    (mCurrFrameResourceIndex a) (mGeometries a) (mMaterials a)
    (mAllRitems a) (mMainPassCB a) (mEyePos a) (mView a) (mProj a)
    (mTheta a) (mPhi a) (mRadius a) (objCBIndex a) v (mLog a).
Definition set_mLog (v : list (Effect F)) a : App F V X :=
  MkApp (base a) (mFrameResources a) (mCurrFrameResource a)
    (mCurrFrameResourceIndex a) (mGeometries a) (mMaterials a)
    (mAllRitems a) (mMainPassCB a) (mEyePos a) (mView a) (mProj a)
    (mTheta a) (mPhi a) (mRadius a) (objCBIndex a) (ext a) v.

(** Record one more effect. *)
Definition emit (e : Effect F) a : App F V X := set_mLog (e :: mLog a) a.

Definition set_PassCB (v : UploadBuffer (PassConstants F))
    (fr : FrameResource F V) : FrameResource F V :=
  MkFrameResource v (MaterialCB fr) (ObjectCB fr) (WavesVB fr) (Fence fr).
Definition set_MaterialCB (v : UploadBuffer (MaterialConstants F))
    (fr : FrameResource F V) : FrameResource F V :=
  MkFrameResource (PassCB fr) v (ObjectCB fr) (WavesVB fr) (Fence fr).
Definition set_ObjectCB (v : UploadBuffer (ObjectConstants F))
    (fr : FrameResource F V) : FrameResource F V :=
  MkFrameResource (PassCB fr) (MaterialCB fr) v (WavesVB fr) (Fence fr).
Definition set_WavesVB (v : V)
    (fr : FrameResource F V) : FrameResource F V :=
  MkFrameResource (PassCB fr) (MaterialCB fr) (ObjectCB fr) v (Fence fr).
Definition set_Fence (v : Z)
    (fr : FrameResource F V) : FrameResource F V :=
  MkFrameResource (PassCB fr) (MaterialCB fr) (ObjectCB fr) (WavesVB fr) v.
End Setters.

Definition set_NumFramesDirty {F : Type} (v : Z) (e : RenderItem F) : RenderItem F :=
  MkRenderItem (World e) (TexTransform e) v (ObjCBIndex e) (Mat e) (Geo e)
               (PrimitiveType e) (DrawArgs e).

Definition set_MatNumFramesDirty {F : Type} (v : Z) (m : Material F) : Material F :=
  MkMaterial (Name m) (MatCBIndex m) (DiffuseSrvHeapIndex m) v
             (DiffuseAlbedo m) (FresnelR0 m) (Roughness m) (MatTransform m).

Definition set_MatTransform {F : Type} (v : XMFLOAT4X4 F) (m : Material F) : Material F :=
  MkMaterial (Name m) (MatCBIndex m) (DiffuseSrvHeapIndex m) (MatNumFramesDirty m)
             (DiffuseAlbedo m) (FresnelR0 m) (Roughness m) v.

(** ** Inputs of one frame *)

(** What one iteration of the message loop takes from outside the
    program: the timer readings [gt.TotalTime()] and [gt.DeltaTime()],
    the six keys [OnKeyboardInput] polls, the three random draws of
    [UpdateWaves], and how many queued signals the GPU reaches before
    the CPU looks at the fence. *)
Record FrameInput (F : Type) := MkFrameInput {
  TotalTime : F;
  DeltaTime : F;
  key_W : bool;
  key_S : bool;
  key_A : bool;
  key_D : bool;
  key_SPACE : bool;
  key_LSHIFT : bool;
  rand_i : Z;
  rand_j : Z;
  rand_r : F;
  gpu_progress : nat
}.

Global Arguments MkFrameInput {F} _ _ _ _ _ _ _ _ _ _ _ _.
Global Arguments TotalTime {F} _.
Global Arguments DeltaTime {F} _.
Global Arguments key_W {F} _.
Global Arguments key_S {F} _.
Global Arguments key_A {F} _.
Global Arguments key_D {F} _.
Global Arguments key_SPACE {F} _.
Global Arguments key_LSHIFT {F} _.
Global Arguments rand_i {F} _.
Global Arguments rand_j {F} _.
Global Arguments rand_r {F} _.
Global Arguments gpu_progress {F} _.

(** ** The code shared by the two applications

    [Update] and [Draw] of the two classes agree line by line on the
    ring advance, on [UpdateObjectCBs], on [UpdateMaterialCBs], on
    [DrawRenderItems] and on the end of [Draw]; each is embedded once. *)
Section Shared.
Context {F V X : Type}.
Implicit Types (a : App F V X).

(** [Update], from "Cycle through the circular frame resource array"
    to the end of the wait:
<<
  mCurrFrameResourceIndex = (mCurrFrameResourceIndex + 1) % gNumFrameResources;
  mCurrFrameResource = mFrameResources[mCurrFrameResourceIndex].get();
  if (mCurrFrameResource->Fence != 0 &&
      mFence->GetCompletedValue() < mCurrFrameResource->Fence) { ...wait... }
>>
    [progress] signals are reached by the GPU before the fence is read. *)
Definition CycleFrameResources (progress : nat) a : option (App F V X) :=
  let i := Z.rem (mCurrFrameResourceIndex a + 1) gNumFrameResources in
  if decide (0 ≤ i) then
    fr ← mFrameResources a !! Z.to_nat i;
    let a1 := set_current i (Some (Z.to_nat i)) a in
    let g := gpu_run progress (mFence (base a)) (mCommandQueue (base a)) in
    let a2 := set_base (set_gpu g (base a1)) a1 in
    if decide (Fence fr ≠ 0 ∧ g.1 < Fence fr) then
      g' ← WaitForFence (Fence fr) g.1 g.2;
      Some (emit (E_WaitForSingleObject (Fence fr))
                 (set_base (set_gpu g' (base a2)) a2))
    else Some a2
  else None.

(** The payload [UpdateObjectCBs] builds for one render item. *)
Definition objConstants (e : RenderItem F) : ObjectConstants F :=
  MkObjectConstants (XMMatrixTranspose (World e))
                    (XMMatrixTranspose (TexTransform e)).

(** The loop of [UpdateObjectCBs] over [mAllRitems], writing into the
    object buffer [cb] of frame-resource slot [slot]. *)
Fixpoint UpdateObjectCBs_loop (slot : nat) (items : list (RenderItem F))
    (cb : UploadBuffer (ObjectConstants F)) (log : list (Effect F))
    : option (list (RenderItem F) * UploadBuffer (ObjectConstants F)
              * list (Effect F)) :=
  match items with
  | [] => Some ([], cb, log)
  | e :: rest =>
      if decide (0 < NumFramesDirty e) then
        cb' ← CopyData (ObjCBIndex e) (objConstants e) cb;
        '(rest', cb'', log') ← UpdateObjectCBs_loop slot rest cb'
             (E_CopyObject slot (ObjCBIndex e) (objConstants e) :: log);
        Some (set_NumFramesDirty (NumFramesDirty e - 1) e :: rest', cb'', log')
      else
        '(rest', cb'', log') ← UpdateObjectCBs_loop slot rest cb log;
        Some (e :: rest', cb'', log')
  end.

Definition UpdateObjectCBs a : option (App F V X) :=
  slot ← mCurrFrameResource a;
  fr ← mFrameResources a !! slot;
  '(items, cb, log) ← UpdateObjectCBs_loop slot (mAllRitems a) (ObjectCB fr) (mLog a);
  Some (set_mLog log (set_mAllRitems items
          (set_mFrameResources (<[slot := set_ObjectCB cb fr]> (mFrameResources a)) a))).

(** The payload [UpdateMaterialCBs] builds for one material. *)
Definition matConstants (mat : Material F) : MaterialConstants F :=
  MkMaterialConstants (DiffuseAlbedo mat) (FresnelR0 mat) (Roughness mat)
                      (XMMatrixTranspose (MatTransform mat)).

(** The loop of [UpdateMaterialCBs] over the entries of [mMaterials],
    in the order the map enumerates them. *)
Fixpoint UpdateMaterialCBs_loop (slot : nat) (entries : list (string * Material F))
    (mats : gmap string (Material F))
    (cb : UploadBuffer (MaterialConstants F)) (log : list (Effect F))
    : option (gmap string (Material F) * UploadBuffer (MaterialConstants F)
              * list (Effect F)) :=
  match entries with
  | [] => Some (mats, cb, log)
  | (key, mat) :: rest =>
      if decide (0 < MatNumFramesDirty mat) then
        cb' ← CopyData (MatCBIndex mat) (matConstants mat) cb;
        UpdateMaterialCBs_loop slot rest
          (<[key := set_MatNumFramesDirty (MatNumFramesDirty mat - 1) mat]> mats)
          cb' (E_CopyMaterial slot (MatCBIndex mat) (matConstants mat) :: log)
      else UpdateMaterialCBs_loop slot rest mats cb log
  end.

Definition UpdateMaterialCBs a : option (App F V X) :=
  slot ← mCurrFrameResource a;
  fr ← mFrameResources a !! slot;
  '(mats, cb, log) ← UpdateMaterialCBs_loop slot (map_to_list (mMaterials a))
                        (mMaterials a) (MaterialCB fr) (mLog a);
  Some (set_mLog log (set_mMaterials mats
          (set_mFrameResources (<[slot := set_MaterialCB cb fr]> (mFrameResources a)) a))).

(** [DrawRenderItems]: one draw call per entry of [ritems], each a
    pointer into [mAllRitems]. *)
Fixpoint DrawRenderItems a (ritems : list nat) : option (list DrawCall) :=
  match ritems with
  | [] => Some []
  | p :: rest =>
      ri ← mAllRitems a !! p;
      geo ← mGeometries a !! Geo ri;
      mat ← mMaterials a !! Mat ri;
      calls ← DrawRenderItems a rest;
      Some (MkDrawCall (VertexBufferGPU geo) (PrimitiveType ri)
                       (ObjCBIndex ri) (MatCBIndex mat) (DrawArgs ri) :: calls)
  end.

(** [Draw] from [ExecuteCommandLists] on: the recorded [calls] are
    submitted, the back buffer index moves on,
<<
  mCurrFrameResource->Fence = ++mCurrentFence;
  mCommandQueue->Signal(mFence.Get(), mCurrentFence);
>>
    *)
Definition Draw_submit (calls : list DrawCall) a : option (App F V X) :=
  slot ← mCurrFrameResource a;
  fr ← mFrameResources a !! slot;
  let a1 := emit (E_ExecuteCommandLists slot calls) a in
  let d1 := set_mCurrBackBuffer
              (Z.rem (mCurrBackBuffer (base a1) + 1) SwapChainBufferCount) (base a1) in
  let fence := UINT64_incr (mCurrentFence d1) in
  let d2 := set_mCurrentFence fence d1 in
  let d3 := set_mCommandQueue (mCommandQueue d2 ++ [fence]) d2 in
  Some (emit (E_Signal fence)
          (set_base d3
             (set_mFrameResources (<[slot := set_Fence fence fr]> (mFrameResources a1)) a1))).
End Shared.

(** * Specification vocabulary *)

Section Views.
Context {F V X : Type}.
Implicit Types (a : App F V X).

(** What one pass of [UpdateObjectCBs] does to a render item. *)
Definition tick (e : RenderItem F) : RenderItem F :=
  if decide (0 < NumFramesDirty e)
  then set_NumFramesDirty (NumFramesDirty e - 1) e else e.

(** The object buffer after the writes of one pass over [items]. *)
Definition objectWrites (items : list (RenderItem F))
    (cb : UploadBuffer (ObjectConstants F)) : UploadBuffer (ObjectConstants F) :=
  foldl (λ cb e, if decide (0 < NumFramesDirty e)
                 then <[ObjCBIndex e := Some (objConstants e)]> cb else cb)
        cb items.

(** The record writes of one pass over [items], oldest first. *)
Definition objectEvents (slot : nat) (items : list (RenderItem F)) : list (Effect F) :=
  omap (λ e, if decide (0 < NumFramesDirty e)
             then Some (E_CopyObject slot (ObjCBIndex e) (objConstants e))
             else None) items.

(** What one pass of [UpdateMaterialCBs] does to a material. *)
Definition tickMat (m : Material F) : Material F :=
  if decide (0 < MatNumFramesDirty m)
  then set_MatNumFramesDirty (MatNumFramesDirty m - 1) m else m.

Definition materialWrites (entries : list (string * Material F))
    (cb : UploadBuffer (MaterialConstants F)) : UploadBuffer (MaterialConstants F) :=
  foldl (λ cb e, if decide (0 < MatNumFramesDirty e.2)
                 then <[MatCBIndex e.2 := Some (matConstants e.2)]> cb else cb)
        cb entries.

Definition materialEvents (slot : nat) (entries : list (string * Material F))
    : list (Effect F) :=
  omap (λ e, if decide (0 < MatNumFramesDirty e.2)
             then Some (E_CopyMaterial slot (MatCBIndex e.2) (matConstants e.2))
             else None) entries.

(** The materials after the loop of [UpdateMaterialCBs] over
    [entries], started on [mats]. *)
Definition tickEntries (entries : list (string * Material F))
    (mats : gmap string (Material F)) : gmap string (Material F) :=
  foldl (λ acc e, if decide (0 < MatNumFramesDirty e.2)
                  then <[e.1 := set_MatNumFramesDirty (MatNumFramesDirty e.2 - 1) e.2]> acc
                  else acc) mats entries.

(** Two materials that differ in the dirty counter at most. *)
Definition same_material (m m' : Material F) : Prop :=
  set_MatNumFramesDirty 0 m = set_MatNumFramesDirty 0 m'.

(** Two render items that differ in the dirty counter at most. *)
Definition same_item (e e' : RenderItem F) : Prop :=
  set_NumFramesDirty 0 e = set_NumFramesDirty 0 e'.

(** Every render item and every material of [a'] is the one of [a]
    at the same place or under the same name, up to the dirty
    counter: [World], [TexTransform], [MatTransform], [DiffuseAlbedo],
    [FresnelR0], [Roughness] and the indices are the same. *)
Definition scene_kept a a' : Prop :=
  Forall2 same_item (mAllRitems a) (mAllRitems a') ∧
  ∀ n, option_Forall2 same_material (mMaterials a !! n) (mMaterials a' !! n).

(** The frame resource the application currently writes into. *)
Definition current a : option (FrameResource F V) :=
  slot ← mCurrFrameResource a; mFrameResources a !! slot.

(** The object-buffer record of slot [s] at [index], if written. *)
Definition objectRecord a (s index : nat) : option (ObjectConstants F) :=
  fr ← mFrameResources a !! s; mjoin (ObjectCB fr !! index).

Definition is_wait (e : Effect F) : bool :=
  match e with E_WaitForSingleObject _ => true | _ => false end.

Definition is_object_write (index : nat) (e : Effect F) : bool :=
  match e with E_CopyObject _ k _ => bool_decide (k = index) | _ => false end.

(** *** Invariants *)

(** The dirty counters stay within [0, gNumFrameResources]. *)
Definition counters_in_range a : Prop :=
  Forall (λ e, 0 ≤ NumFramesDirty e ≤ gNumFrameResources) (mAllRitems a) ∧
  map_Forall (λ _ m, 0 ≤ MatNumFramesDirty m ≤ gNumFrameResources) (mMaterials a).

(** Every dirty counter is at [gNumFrameResources], as after the
    construction of the scene. *)
Definition all_dirty a : Prop :=
  Forall (λ e, NumFramesDirty e = gNumFrameResources) (mAllRitems a) ∧
  map_Forall (λ _ m, MatNumFramesDirty m = gNumFrameResources) (mMaterials a).

(** The fence: the completed value is not negative, the signals
    queued on the GPU are increasing, above the completed value and at
    most [mCurrentFence]; every marker of a frame resource is
    completed or queued. *)
Definition fence_inv (d : D3DApp) (frs : list (FrameResource F V)) : Prop :=
  0 ≤ mFence d ∧
  StronglySorted Z.lt (mFence d :: mCommandQueue d) ∧
  Forall (λ v, v ≤ mCurrentFence d) (mFence d :: mCommandQueue d) ∧
  Forall (λ fr, Fence fr ≤ mFence d ∨ Fence fr ∈ mCommandQueue d) frs.

(** The ring: three frame resources and an index among them. *)
Definition ring_ok a : Prop :=
  length (mFrameResources a) = Z.to_nat gNumFrameResources ∧
  0 ≤ mCurrFrameResourceIndex a < gNumFrameResources.

(** Every constant-buffer index lies inside the buffer it addresses,
    in every frame resource, and every buffer of pass constants has
    its record 0. *)
Definition indices_in_range a : Prop :=
  Forall (λ fr,
    (0 < length (PassCB fr))%nat ∧
    Forall (λ e, (ObjCBIndex e < length (ObjectCB fr))%nat) (mAllRitems a) ∧
    map_Forall (λ _ m, (MatCBIndex m < length (MaterialCB fr))%nat) (mMaterials a))
    (mFrameResources a).

(** The pointers of a render layer and what they point at exist. *)
Definition drawable a (ritems : list nat) : Prop :=
  Forall (λ p, ∃ ri, mAllRitems a !! p = Some ri ∧
                     is_Some (mGeometries a !! Geo ri) ∧
                     is_Some (mMaterials a !! Mat ri)) ritems.

(** The slot the next ring advance selects. *)
Definition next_slot a : nat :=
  Z.to_nat (Z.rem (mCurrFrameResourceIndex a + 1) gNumFrameResources).

(** The effects of [log'] that are not yet in [log]: [log'] extends
    [log] by [evs], newest first. *)
Definition new_events (log log' evs : list (Effect F)) : Prop := log' = evs ++ log.

(** The waits among some effects. *)
Definition waits (evs : list (Effect F)) : list (Effect F) :=
  filter (λ e, is_wait e) evs.

(** The writes of record [index] of an object buffer among some effects. *)
Definition object_writes_at (index : nat) (evs : list (Effect F)) : list (Effect F) :=
  filter (λ e, is_object_write index e) evs.

(** The writes of pass constants and of wave vertices among [evs]. *)
Definition is_pass_write (e : Effect F) : bool :=
  match e with E_CopyPass _ _ _ => true | _ => false end.

Definition pass_writes (evs : list (Effect F)) : list (Effect F) :=
  filter (λ e, is_pass_write e) evs.

Definition is_vertex_write (e : Effect F) : bool :=
  match e with E_CopyVertex _ _ _ => true | _ => false end.

Definition vertex_writes (evs : list (Effect F)) : list (Effect F) :=
  filter (λ e, is_vertex_write e) evs.

(** [Update], from [a] to [a'], has written the pass constants [pc]:
    they are the record 0 of the pass buffer of the frame resource
    selected in this frame, they are kept in [mMainPassCB], and the
    frame has made this one write of pass constants. *)
Definition pass_written a a' (pc : PassConstants F) : Prop :=
  mCurrFrameResource a' = Some (next_slot a) ∧
  (∃ fr, mFrameResources a' !! next_slot a = Some fr ∧
         PassCB fr !! 0%nat = Some (Some pc)) ∧
  mMainPassCB a' = pc ∧
  ∃ evs, new_events (mLog a) (mLog a') evs ∧
         pass_writes evs = [E_CopyPass (next_slot a) 0 pc].

(** One frame, as far as the object constants are concerned: every
    item is ticked, the slot after the current one becomes current and
    its object buffer receives the writes of the dirty items, the
    other object buffers stay as they are, and the object writes
    logged are those of the dirty items. *)
Definition object_pass a a' : Prop :=
  let slot := next_slot a in
  mAllRitems a' = tick <$> mAllRitems a ∧
  mCurrFrameResourceIndex a' = Z.rem (mCurrFrameResourceIndex a + 1) gNumFrameResources ∧
  mCurrFrameResource a' = Some slot ∧
  (∃ cb, (ObjectCB <$> mFrameResources a) !! slot = Some cb ∧
         ObjectCB <$> mFrameResources a' =
           <[slot := objectWrites (mAllRitems a) cb]> (ObjectCB <$> mFrameResources a)) ∧
  ∃ evs, new_events (mLog a) (mLog a') evs ∧
         ∀ n, object_writes_at n evs =
              object_writes_at n (reverse (objectEvents slot (mAllRitems a))).

(** The value [GetCompletedValue] returns in the frame with input [i]. *)
Definition polled (i : FrameInput F) a : Z :=
  (gpu_run (gpu_progress i) (mFence (base a)) (mCommandQueue (base a))).1.


(** The record [r] is the payload of the render item [e]: the
    transpose of its [World] and the transpose of its [TexTransform]. *)
Definition payload_of (e : RenderItem F) (r : ObjectConstants F) : Prop :=
  oc_World r = XMMatrixTranspose (World e) ∧
  oc_TexTransform r = XMMatrixTranspose (TexTransform e).

(** A frame from [a] to [a'] refreshes the item at position [k],
    which is [e] with the counter at [c]: the item's payload is
    written, once, into the object buffer of the frame resource that
    is current in that frame, at the item's index, and the counter
    goes down by one. *)
Definition refreshed a a' (k : nat) (e : RenderItem F) (c : Z) : Prop :=
  mAllRitems a !! k = Some (set_NumFramesDirty c e) ∧
  mAllRitems a' !! k = Some (set_NumFramesDirty (c - 1) e) ∧
  mCurrFrameResource a' = Some (next_slot a) ∧
  ∃ r, payload_of e r ∧
       objectRecord a' (next_slot a) (ObjCBIndex e) = Some r ∧
       ∃ evs, new_events (mLog a) (mLog a') evs ∧
              object_writes_at (ObjCBIndex e) evs =
                [E_CopyObject (next_slot a) (ObjCBIndex e) r].

(** A frame from [a] to [a'] leaves the item [e] at position [k]
    alone: the item and its counter stay, record [ObjCBIndex e] of
    every object buffer stays, and no write of that record is logged. *)
Definition untouched a a' (k : nat) (e : RenderItem F) : Prop :=
  mAllRitems a' !! k = Some e ∧
  (∀ s, objectRecord a' s (ObjCBIndex e) = objectRecord a s (ObjCBIndex e)) ∧
  ∃ evs, new_events (mLog a) (mLog a') evs ∧
         object_writes_at (ObjCBIndex e) evs = [].

(** *** Runs of the frame loop *)

(** The marker of the current frame resource. *)
Definition current_marker a : Z := default 0 (Fence <$> current a).

(** The states after each frame of a run, while the frames return. *)
Fixpoint run (frame : FrameInput F → App F V X → option (App F V X))
    (inputs : list (FrameInput F)) a : option (list (App F V X)) :=
  match inputs with
  | [] => Some []
  | i :: rest => a' ← frame i a; l ← run frame rest a'; Some (a' :: l)
  end.

(** Full propagation of the item [e] at position [k], dirty for all
    frame resources, over three frames with the inputs [i1], [i2] and
    [i3]: the frames return, each refreshes the item, and afterwards
    the counter is 0 and every frame resource holds the payload. *)
Definition propagation (frame : FrameInput F → App F V X → option (App F V X))
    (i1 i2 i3 : FrameInput F) a (k : nat) (e : RenderItem F) : Prop :=
  ∃ a1 a2 a3,
    frame i1 a = Some a1 ∧ frame i2 a1 = Some a2 ∧ frame i3 a2 = Some a3 ∧
    refreshed a a1 k e gNumFrameResources ∧
    refreshed a1 a2 k e (gNumFrameResources - 1) ∧
    refreshed a2 a3 k e (gNumFrameResources - 2) ∧
    NumFramesDirty <$> mAllRitems a3 !! k = Some 0 ∧
    ∀ s, (s < Z.to_nat gNumFrameResources)%nat →
         ∃ r, payload_of e r ∧ objectRecord a3 s (ObjCBIndex e) = Some r.

(** The item [e] at position [k] is left alone throughout a run:
    relative to the start [a], in every later state [a']. *)
Definition left_alone (frame : FrameInput F → App F V X → option (App F V X))
    (inputs : list (FrameInput F)) a (k : nat) (e : RenderItem F) : Prop :=
  ∃ states, run frame inputs a = Some states ∧
            length states = length inputs ∧
            Forall (λ a', untouched a a' k e) states.

(** The retire step at the end of [Draw], from [a] to [a']: the
    incremented fence counter is stored as the marker of the current
    frame resource, and a signal of exactly that value is queued
    after the submitted command list. *)
Definition retired a a' : Prop :=
  let fence := UINT64_incr (mCurrentFence (base a)) in
  ∃ slot fr calls,
    mCurrFrameResource a = Some slot ∧ mFrameResources a !! slot = Some fr ∧
    mCurrentFence (base a') = fence ∧
    mFrameResources a' = <[slot := set_Fence fence fr]> (mFrameResources a) ∧
    mCurrFrameResource a' = Some slot ∧
    mCommandQueue (base a') = mCommandQueue (base a) ++ [fence] ∧
    mFence (base a') = mFence (base a) ∧
    mLog a' = E_Signal fence :: E_ExecuteCommandLists slot calls :: mLog a.

(** The draw call [DrawRenderItems] records for the layer entry [p]:
    the vertex buffer bound to the geometry of the item, its
    topology, its object index, the index of its material and its
    draw arguments. *)
Definition draws a (p : nat) (c : DrawCall) : Prop :=
  ∃ ri geo mat,
    mAllRitems a !! p = Some ri ∧ mGeometries a !! Geo ri = Some geo ∧
    mMaterials a !! Mat ri = Some mat ∧
    c = MkDrawCall (VertexBufferGPU geo) (PrimitiveType ri) (ObjCBIndex ri)
                   (MatCBIndex mat) (DrawArgs ri).

(** The dirty render items, and the dirty materials, have their
    index inside the buffer [cb] they are written to. *)
Definition dirty_items_fit (items : list (RenderItem F))
    (cb : UploadBuffer (ObjectConstants F)) : Prop :=
  Forall (λ e, 0 < NumFramesDirty e → (ObjCBIndex e < length cb)%nat) items.

Definition dirty_materials_fit (mats : gmap string (Material F))
    (cb : UploadBuffer (MaterialConstants F)) : Prop :=
  map_Forall (λ _ m, 0 < MatNumFramesDirty m → (MatCBIndex m < length cb)%nat) mats.

(** [Update], from [a] to [a'], has written into the frame resource
    it selected and into no other, and the marker of the one it
    selected is completed: the GPU has finished the commands that
    read it. *)
Definition only_current_written a a' : Prop :=
  let slot := next_slot a in
  length (mFrameResources a') = length (mFrameResources a) ∧
  (∀ s, s ≠ slot → mFrameResources a' !! s = mFrameResources a !! s) ∧
  ∃ fr fr', mFrameResources a !! slot = Some fr ∧
            mFrameResources a' !! slot = Some fr' ∧
            Fence fr' = Fence fr ∧ Fence fr ≤ mFence (base a').

(** Two frame resources with the same buffers. *)
Definition same_buffers (fr fr' : FrameResource F V) : Prop :=
  PassCB fr' = PassCB fr ∧ MaterialCB fr' = MaterialCB fr ∧
  ObjectCB fr' = ObjectCB fr ∧ WavesVB fr' = WavesVB fr.

(** What [Draw], from [a] to [a'], leaves alone: the scene, the
    selection of the frame resource, every buffer of every frame
    resource, the frame resources other than the current one, and
    the completed value of the fence; the back buffer index goes to
    the other of the two back buffers. *)
Definition draw_effect a a' : Prop :=
  mAllRitems a' = mAllRitems a ∧ mMaterials a' = mMaterials a ∧
  mGeometries a' = mGeometries a ∧ ext a' = ext a ∧
  mCurrFrameResource a' = mCurrFrameResource a ∧
  mCurrFrameResourceIndex a' = mCurrFrameResourceIndex a ∧
  mMainPassCB a' = mMainPassCB a ∧
  Forall2 same_buffers (mFrameResources a) (mFrameResources a') ∧
  (∀ s, mCurrFrameResource a ≠ Some s →
        mFrameResources a' !! s = mFrameResources a !! s) ∧
  mFence (base a') = mFence (base a) ∧
  mCurrBackBuffer (base a') = Z.rem (mCurrBackBuffer (base a) + 1) SwapChainBufferCount.

(** The render items carry the object indices 0, 1, 2, ... in
    order: the index of an item is its position in [mAllRitems]. *)
Definition indexed a : Prop :=
  ObjCBIndex <$> mAllRitems a = seq 0 (length (mAllRitems a)).

(** [Draw], from [a] to [a'], has submitted the draw calls [calls],
    over the current frame resource. *)
Definition submitted a a' (calls : list DrawCall) : Prop :=
  ∃ slot, mCurrFrameResource a = Some slot ∧
    mLog a' = E_Signal (UINT64_incr (mCurrentFence (base a))) ::
              E_ExecuteCommandLists slot calls :: mLog a.

(** The state [Initialize] leaves for the first frame: the GPU has
    completed everything submitted, no frame resource carries a
    marker, and the ring stands at index 0 with no frame resource
    selected. *)
Definition idle a : Prop :=
  mCommandQueue (base a) = [] ∧ mFence (base a) = mCurrentFence (base a) ∧
  Forall (λ fr, Fence fr = 0) (mFrameResources a) ∧
  mCurrFrameResourceIndex a = 0 ∧ mCurrFrameResource a = None.

(** Every signal still queued is the marker of a frame resource. *)
Definition queue_owned a : Prop :=
  ∀ v, v ∈ mCommandQueue (base a) → v ∈ Fence <$> mFrameResources a.

(** The number of submitted frames the GPU has not completed. *)
Definition in_flight a : nat := length (mCommandQueue (base a)).

(** A frame from [a] to [a'], seen from the ring: the events it logs
    hold no wait when the marker of the slot it selects is 0, the
    markers of the other slots stay, and the index goes to the next
    slot. *)
Definition frame_step a a' : Prop :=
  ∃ fr evs,
    mFrameResources a !! next_slot a = Some fr ∧
    new_events (mLog a) (mLog a') evs ∧
    (Fence fr = 0 → waits evs = []) ∧
    (∀ s, s ≠ next_slot a →
          Fence <$> mFrameResources a' !! s = Fence <$> mFrameResources a !! s) ∧
    mCurrFrameResourceIndex a' = Z.rem (mCurrFrameResourceIndex a + 1) gNumFrameResources.

(** The fence values polled in the frames of a run. *)
Fixpoint polls (inputs : list (FrameInput F)) (a : App F V X)
    (states : list (App F V X)) : list Z :=
  match inputs, states with
  | i :: rest, a' :: l => polled i a :: polls rest a' l
  | _, _ => []
  end.
(** The fence over a run of frames from [a]: the frames return, the
    markers stored by the successive frames increase strictly, and
    the completed values the CPU polls, frame after frame, never
    decrease. *)
Definition fence_timeline (frame : FrameInput F → App F V X → option (App F V X))
    (inputs : list (FrameInput F)) a : Prop :=
  ∃ states, run frame inputs a = Some states ∧
            length states = length inputs ∧
            StronglySorted Z.lt (mCurrentFence (base a) :: (current_marker <$> states)) ∧
            StronglySorted Z.le (mFence (base a) :: polls inputs a states).
End Views.

Section PassView.
Context {F : Type} `{!Float32 F, !DirectXMath F}.

(** The six matrices of the pass constants [pc], for the view matrix
    [view] and the projection matrix [proj]: the product
    [view * proj], the inverses by [XMMatrixInverse] on the
    determinant of the matrix inverted, all six transposed. *)
Definition pass_matrices (view proj : XMFLOAT4X4 F) (pc : PassConstants F) : Prop :=
  let viewProj := XMMatrixMultiply view proj in
  pc_View pc = XMMatrixTranspose view ∧
  pc_InvView pc = XMMatrixTranspose (XMMatrixInverse (XMMatrixDeterminant view) view) ∧
  pc_Proj pc = XMMatrixTranspose proj ∧
  pc_InvProj pc = XMMatrixTranspose (XMMatrixInverse (XMMatrixDeterminant proj) proj) ∧
  pc_ViewProj pc = XMMatrixTranspose viewProj ∧
  pc_InvViewProj pc =
    XMMatrixTranspose (XMMatrixInverse (XMMatrixDeterminant viewProj) viewProj).
End PassView.

(** ** Classes of the repository that are not part of the sources *)

(** Modelled from the spec: [class Camera] of [Common/Camera.h], an
    opaque camera of which the frame loop uses the movements and reads
    the view matrix, the projection matrix and the position. *)
Class CameraOps (F C : Type) := {
  Walk : F → C → C;
  Strafe : F → C → C;
  Rise : F → C → C;
  Lower : F → C → C;
  UpdateViewMatrix : C → C;
  GetView : C → XMFLOAT4X4 F;
  GetProj : C → XMFLOAT4X4 F;
  GetPosition3f : C → XMFLOAT3 F
}.

(** Modelled from the spec: [class Waves] of [Waves.h], the grid-based
    wave simulation: a simulation step produces the positions and
    normals of [VertexCount()] vertices. *)
Class WavesOps (F W : Type) := {
  RowCount : W → Z;
  ColumnCount : W → Z;
  VertexCount : W → Z;
  Width : W → F;
  Depth : W → F;
  Waves_Position : W → Z → XMFLOAT3 F;
  Waves_Normal : W → Z → XMFLOAT3 F;
  Waves_Update : F → W → W;
  Disturb : Z → Z → F → W → W
}.

(** Modelled from the spec: the grid of the simulation has a fixed
    number of vertices, the one the wave buffers are sized to. *)
Class WavesLawful (F W : Type) `{!WavesOps F W} : Prop := {
  VertexCount_Update : ∀ (dt : F) (w : W), VertexCount (Waves_Update dt w) = VertexCount w;
  VertexCount_Disturb : ∀ (i j : Z) (r : F) (w : W), VertexCount (Disturb i j r w) = VertexCount w
}.

(** Modelled from the spec: [D3DApp::FlushCommandQueue] of
    [Common/d3dApp.cpp]: advance the fence value, signal it on the
    queue and wait until the GPU has reached it. *)
Definition FlushCommandQueue (d : D3DApp) : option D3DApp :=
  let fence := UINT64_incr (mCurrentFence d) in
  let d1 := set_mCommandQueue (mCommandQueue d ++ [fence]) (set_mCurrentFence fence d) in
  g ← WaitForFence fence (mFence d1) (mCommandQueue d1);
  Some (set_gpu g d1).

(** The base-class state before a flush: the fence has completed a
    value that is not negative, the queued signals increase and are at
    most [mCurrentFence], and the 64-bit counter is not at its last value. *)
Definition d3d_ok (d : D3DApp) : Prop :=
  0 ≤ mFence d ∧
  StronglySorted Z.lt (mFence d :: mCommandQueue d) ∧
  Forall (λ v, v ≤ mCurrentFence d) (mFence d :: mCommandQueue d) ∧
  mCurrentFence d < 2 ^ 64 - 1.

(** * The castle: [CastleApp.cpp] *)
Module Castle.

Inductive RenderLayer := Opaque | Transparent | AlphaTested | AlphaTestedTreeSprites.

Global Instance RenderLayer_eq_dec : EqDecision RenderLayer.
Proof. solve_decision. Defined.

(** The members only [CastleApp] has.  [mWavesRitem] points into
    [mAllRitems]; [mRitemLayer] holds such pointers, per layer;
    [t_base] is the function-local static of [UpdateWaves]. *)
Record Ext (F C W : Type) := MkExt {
  mCamera : C;
  mWaves : W;
  mWavesRitem : option nat;
  mRitemLayer : RenderLayer → list nat;
  t_base : F
}.

Global Arguments MkExt {F C W} _ _ _ _ _.
Global Arguments mCamera {F C W} _.
Global Arguments mWaves {F C W} _.
Global Arguments mWavesRitem {F C W} _.
Global Arguments mRitemLayer {F C W} _ _.
Global Arguments t_base {F C W} _.

Section Castle.
Context {F C W : Type}.
Context `{!Float32 F, !DirectXMath F, !CameraOps F C, !WavesOps F W}.

Abbreviation WavesBuffer := (UploadBuffer (Vertex F)) (only parsing).
Abbreviation State := (App F (UploadBuffer (Vertex F)) (Ext F C W)) (only parsing).

Implicit Types (a : State) (i : FrameInput F).

Definition set_mCamera (c : C) a : State :=
  set_ext (MkExt c (mWaves (ext a)) (mWavesRitem (ext a))
                 (mRitemLayer (ext a)) (t_base (ext a))) a.
Definition set_waves (tb : F) (w : W) a : State :=
  set_ext (MkExt (mCamera (ext a)) w (mWavesRitem (ext a))
                 (mRitemLayer (ext a)) tb) a.
Definition set_mWavesRitem (p : option nat) a : State :=
  set_ext (MkExt (mCamera (ext a)) (mWaves (ext a)) p
                 (mRitemLayer (ext a)) (t_base (ext a))) a.
Definition set_mRitemLayer (l : RenderLayer → list nat) a : State :=
  set_ext (MkExt (mCamera (ext a)) (mWaves (ext a)) (mWavesRitem (ext a))
                 l (t_base (ext a))) a.

(** [CastleApp::OnKeyboardInput] *)
Definition OnKeyboardInput i a : State :=
  let dt := DeltaTime i in
  let step (pressed : bool) (move : F → C → C) (d : F) (c : C) : C :=
    if pressed then move (f_mul d dt) c else c in
  let c := mCamera (ext a) in
  let c := step (key_W i) Walk (f_dec 40 0) c in
  let c := step (key_S i) Walk (f_dec (-40) 0) c in
  let c := step (key_A i) Strafe (f_dec (-40) 0) c in
  let c := step (key_D i) Strafe (f_dec 40 0) c in
  let c := step (key_SPACE i) Rise (f_dec 40 0) c in
  let c := step (key_LSHIFT i) Lower (f_dec 40 0) c in
  set_mCamera (UpdateViewMatrix c) a.

(** [CastleApp::UpdateCamera] *)
Definition UpdateCamera i a : State :=
  let a := set_mCamera (UpdateViewMatrix (mCamera (ext a))) a in
  let ex := f_mul (f_mul (mRadius a) (sinf (mPhi a))) (cosf (mTheta a)) in
  let ez := f_mul (f_mul (mRadius a) (sinf (mPhi a))) (sinf (mTheta a)) in
  let ey := f_mul (mRadius a) (cosf (mPhi a)) in
  let zero := f_dec 0 0 in
  let one := f_dec 1 0 in
  let pos := MkFloat4 ex ey ez one in
  let target := MkFloat4 zero zero zero zero in
  let up := MkFloat4 zero one zero zero in
  set_camera (MkFloat3 ex ey ez) (XMMatrixLookAtLH pos target up) a.

(** The body of [CastleApp::AnimateMaterials] on the material
    [waterMat] points at; [tu] and [tv] are references to the
    entries (3, 0) and (3, 1) of its [MatTransform]. *)
Definition scrollWater i (waterMat : Material F) : Material F :=
  let tu := get30 (MatTransform waterMat) in
  let tv := get31 (MatTransform waterMat) in
  let tu := f_add tu (f_mul (f_dec 1 1) (DeltaTime i)) in
  let tv := f_add tv (f_mul (f_dec 2 2) (DeltaTime i)) in
  let tu := if f_ge tu (f_dec 1 0) then f_sub tu (f_dec 1 0) else tu in
  let tv := if f_ge tv (f_dec 1 0) then f_sub tv (f_dec 1 0) else tv in
  let waterMat := set_MatTransform (set31 tv (set30 tu (MatTransform waterMat))) waterMat in
  set_MatNumFramesDirty gNumFrameResources waterMat.

(** [CastleApp::AnimateMaterials].  [mMaterials["water"]] of a map
    without that key yields a null pointer, whose use is undefined. *)
Definition AnimateMaterials i a : option State :=
  waterMat ← mMaterials a !! "water";
  Some (set_mMaterials (<["water" := scrollWater i waterMat]> (mMaterials a)) a).

(** The record [CastleApp::UpdateMainPassCB] stores in [mMainPassCB]. *)
Definition mainPassConstants i a : PassConstants F :=
  let view := GetView (mCamera (ext a)) in
  let proj := GetProj (mCamera (ext a)) in
  let viewProj := XMMatrixMultiply view proj in
  let invView := XMMatrixInverse (XMMatrixDeterminant view) view in
  let invProj := XMMatrixInverse (XMMatrixDeterminant proj) proj in
  let invViewProj := XMMatrixInverse (XMMatrixDeterminant viewProj) viewProj in
  let w := mClientWidth (base a) in
  let h := mClientHeight (base a) in
  MkPassConstants
    (XMMatrixTranspose view) (XMMatrixTranspose invView)
    (XMMatrixTranspose proj) (XMMatrixTranspose invProj)
    (XMMatrixTranspose viewProj) (XMMatrixTranspose invViewProj)
    (GetPosition3f (mCamera (ext a)))
    (MkFloat2 (f_of_int w) (f_of_int h))
    (MkFloat2 (f_div (f_dec 1 0) (f_of_int w)) (f_div (f_dec 1 0) (f_of_int h)))
    (f_dec 1 0) (f_dec 1000 0) (TotalTime i) (DeltaTime i).

(** [CastleApp::UpdateMainPassCB] *)
Definition UpdateMainPassCB i a : option State :=
  let pc := mainPassConstants i a in
  let a := set_mMainPassCB pc a in
  slot ← mCurrFrameResource a;
  fr ← mFrameResources a !! slot;
  cb ← CopyData 0 pc (PassCB fr);
  Some (emit (E_CopyPass slot 0 pc)
          (set_mFrameResources (<[slot := set_PassCB cb fr]> (mFrameResources a)) a)).

(** The vertex [UpdateWaves] builds for grid point [k]. *)
Definition waveVertex (w : W) (k : nat) : Vertex F :=
  let pos := Waves_Position w (Z.of_nat k) in
  MkVertex pos (Waves_Normal w (Z.of_nat k))
    (MkFloat2 (f_add (f_dec 5 1) (f_div (x3 pos) (Width w)))
              (f_sub (f_dec 5 1) (f_div (z3 pos) (Depth w)))).

(** The copy loop of [UpdateWaves], over the vertex indices [idx]. *)
Fixpoint UpdateWaves_loop (slot : nat) (w : W) (idx : list nat)
    (vb : WavesBuffer) (log : list (Effect F))
    : option (WavesBuffer * list (Effect F)) :=
  match idx with
  | [] => Some (vb, log)
  | k :: rest =>
      vb' ← CopyData k (waveVertex w k) vb;
      UpdateWaves_loop slot w rest vb' (E_CopyVertex slot k (waveVertex w k) :: log)
  end.

(** The simulation part of [UpdateWaves]: a disturbance every
    quarter second at the drawn place [(rand_i, rand_j)] with
    magnitude [rand_r], then one step. *)
Definition stepWaves i (tb : F) (w : W) : F * W :=
  let '(tb, w) :=
    if f_ge (f_sub (TotalTime i) tb) (f_dec 25 2)
    then (f_add tb (f_dec 25 2), Disturb (rand_i i) (rand_j i) (rand_r i) w)
    else (tb, w) in
  (tb, Waves_Update (DeltaTime i) w).

(** [CastleApp::UpdateWaves] *)
Definition UpdateWaves i a : option State :=
  let '(tb, w) := stepWaves i (t_base (ext a)) (mWaves (ext a)) in
  let a := set_waves tb w a in
  slot ← mCurrFrameResource a;
  fr ← mFrameResources a !! slot;
  '(vb, log) ← UpdateWaves_loop slot w (seq 0 (Z.to_nat (VertexCount w)))
                  (WavesVB fr) (mLog a);
  let a := set_mLog log
             (set_mFrameResources (<[slot := set_WavesVB vb fr]> (mFrameResources a)) a) in
  p ← mWavesRitem (ext a);
  ri ← mAllRitems a !! p;
  _ ← mGeometries a !! Geo ri;
  Some (set_mGeometries
          (<[Geo ri := MkMeshGeometry (Some (UploadResource slot WavesRole))]>
             (mGeometries a)) a).

(** [CastleApp::Update] *)
Definition Update i a : option State :=
  let a := OnKeyboardInput i a in
  let a := UpdateCamera i a in
  a ← CycleFrameResources (gpu_progress i) a;
  a ← AnimateMaterials i a;
  a ← UpdateObjectCBs a;
  a ← UpdateMaterialCBs a;
  a ← UpdateMainPassCB i a;
  UpdateWaves i a.

(** [CastleApp::Draw]: the four layers are recorded in the order
    opaque, alpha tested, tree sprites, transparent. *)
Definition Draw i a : option State :=
  _ ← mCurrFrameResource a;
  c1 ← DrawRenderItems a (mRitemLayer (ext a) Opaque);
  c2 ← DrawRenderItems a (mRitemLayer (ext a) AlphaTested);
  c3 ← DrawRenderItems a (mRitemLayer (ext a) AlphaTestedTreeSprites);
  c4 ← DrawRenderItems a (mRitemLayer (ext a) Transparent);
  Draw_submit (c1 ++ c2 ++ c3 ++ c4) a.

(** One iteration of [D3DApp::Run]: [Update(mTimer); Draw(mTimer);]. *)
Definition frame i a : option State := a ← Update i a; Draw i a.

(** The wave buffer after the copy loop over the indices [idx], and
    the record writes of that loop, oldest first. *)
Definition waveWrites (w : W) (idx : list nat) (vb : WavesBuffer) : WavesBuffer :=
  foldl (λ vb k, <[k := Some (waveVertex w k)]> vb) vb idx.

Definition waveEvents (slot : nat) (w : W) (idx : list nat) : list (Effect F) :=
  (λ k, E_CopyVertex slot k (waveVertex w k)) <$> idx.

(** The vertex [v] is vertex [k] of the simulation [w]: it has the
    position and the normal the simulation gives for [k], and the
    texture coordinates [0.5 + x / Width] and [0.5 - z / Depth] of
    that position. *)
Definition vertex_of (w : W) (k : nat) (v : Vertex F) : Prop :=
  Pos v = Waves_Position w (Z.of_nat k) ∧
  Normal v = Waves_Normal w (Z.of_nat k) ∧
  TexC v = MkFloat2
             (f_add (f_dec 5 1) (f_div (x3 (Waves_Position w (Z.of_nat k))) (Width w)))
             (f_sub (f_dec 5 1) (f_div (z3 (Waves_Position w (Z.of_nat k))) (Depth w))).

(** [Update], from [a] to [a'], has uploaded the waves: the grid is
    the one a simulation step gives; every vertex of it is in the
    wave buffer of the frame resource selected in this frame, at its
    index; the frame has written each vertex once, in order; and
    the geometry of the wave item is bound to that buffer. *)
Definition waves_uploaded i a a' : Prop :=
  let slot := next_slot a in
  let w := mWaves (ext a') in
  w = (stepWaves i (t_base (ext a)) (mWaves (ext a))).2 ∧
  (∃ fr, mFrameResources a' !! slot = Some fr ∧
         ∀ k, (k < Z.to_nat (VertexCount w))%nat →
              ∃ v, WavesVB fr !! k = Some (Some v) ∧ vertex_of w k v) ∧
  (∃ evs, new_events (mLog a) (mLog a') evs ∧
          Forall2 (λ k ev, ∃ v, ev = E_CopyVertex slot k v ∧ vertex_of w k v)
                  (seq 0 (Z.to_nat (VertexCount w)))
                  (reverse (vertex_writes evs))) ∧
  ∃ p ri, mWavesRitem (ext a') = Some p ∧ mAllRitems a' !! p = Some ri ∧
          mGeometries a' !! Geo ri =
            Some (MkMeshGeometry (Some (UploadResource slot WavesRole))).

(** [Draw], from [a] to [a'], submits a draw call of the wave item
    that reads the wave buffer of the current frame resource. *)
Definition waves_drawn a a' : Prop :=
  ∃ slot calls p ri mat,
    mCurrFrameResource a = Some slot ∧
    mLog a' = E_Signal (UINT64_incr (mCurrentFence (base a))) ::
              E_ExecuteCommandLists slot calls :: mLog a ∧
    mWavesRitem (ext a) = Some p ∧ mAllRitems a !! p = Some ri ∧
    mMaterials a !! Mat ri = Some mat ∧
    MkDrawCall (Some (UploadResource slot WavesRole)) (PrimitiveType ri)
               (ObjCBIndex ri) (MatCBIndex mat) (DrawArgs ri) ∈ calls.

(** The material [m'] is [m] up to the dirty counter and to the
    entries (3, 0) and (3, 1) of [MatTransform]. *)
Definition scrolled (m m' : Material F) : Prop :=
  ∃ tu tv, same_material
             (set_MatTransform (set31 tv (set30 tu (MatTransform m))) m) m'.

(** As [scene_kept], but for the material under the key "water",
    which is [scrolled]. *)
Definition scene_kept_but_water a a' : Prop :=
  Forall2 same_item (mAllRitems a) (mAllRitems a') ∧
  (∀ n, n ≠ "water" →
        option_Forall2 same_material (mMaterials a !! n) (mMaterials a' !! n)) ∧
  option_Forall2 scrolled (mMaterials a !! "water") (mMaterials a' !! "water").

(** *** Scene construction *)

(** Modelled from the spec: a [Material] as [std::make_unique<Material>()]
    leaves it before the fields are assigned, with the dirty counter
    at [gNumFrameResources] and an identity [MatTransform]. *)
Definition newMaterial (name : string) (index : nat)
    (albedo : XMFLOAT4 F) (fresnel : XMFLOAT3 F) (rough : F) : Material F :=
  MkMaterial name index index gNumFrameResources albedo fresnel rough Identity4x4.

(** [CastleApp::BuildMaterials] *)
Definition BuildMaterials a : State :=
  let white := MkFloat4 (f_dec 1 0) (f_dec 1 0) (f_dec 1 0) (f_dec 1 0) in
  let r0 (m : Z) (e : nat) := MkFloat3 (f_dec m e) (f_dec m e) (f_dec m e) in
  let grass := newMaterial "grass" 0 white (r0 1 2%nat) (f_dec 125 3) in
  let water := newMaterial "water" 1
                 (MkFloat4 (f_dec 1 0) (f_dec 1 0) (f_dec 1 0) (f_dec 5 1))
                 (r0 1 1%nat) (f_dec 0 0) in
  let tile := newMaterial "tile" 2 white (r0 2 2%nat) (f_dec 25 2) in
  let wood := newMaterial "wood" 3 white (r0 2 2%nat) (f_dec 25 2) in
  let metal := newMaterial "metal" 4 white (r0 2 2%nat) (f_dec 25 2) in
  let glass := newMaterial "glass" 5 white (r0 2 2%nat) (f_dec 25 2) in
  let ice := newMaterial "ice" 6 white (r0 2 2%nat) (f_dec 25 2) in
  let stone := newMaterial "stone" 7 white (r0 2 2%nat) (f_dec 25 2) in
  let brick2 := newMaterial "brick2" 8 white (r0 2 2%nat) (f_dec 25 2) in
  let treeSprites := newMaterial "treeSprites" 9 white (r0 1 2%nat) (f_dec 125 3) in
  set_mMaterials
    (<["treeSprites" := treeSprites]> (<["brick2" := brick2]>
     (<["stone" := stone]> (<["ice" := ice]> (<["glass" := glass]>
     (<["metal" := metal]> (<["wood" := wood]> (<["tile" := tile]>
     (<["water" := water]> (<["grass" := grass]> (mMaterials a))))))))))) a.

(** The [World] matrix stored into the render item that receives
    constant-buffer index [k]: a product of [XMMatrixScaling],
    [XMMatrixRotationY] and [XMMatrixTranslation] of literals. *)
Variable sceneWorld : nat → XMFLOAT4X4 F.

(** The block repeated for every render item:
<<
auto r = std::make_unique<RenderItem>();
XMStoreFloat4x4(&r->World, ...);
XMStoreFloat4x4(&r->TexTransform, XMMatrixScaling(1.0f, 1.0f, 1.0f));
r->ObjCBIndex = objCBIndex++;
r->Mat = mMaterials[mat].get();  r->Geo = mGeometries[geo].get();
r->PrimitiveType = prim;         ... = r->Geo->DrawArgs[args]. ...;
mRitemLayer[(int)layer].push_back(r.get());
mAllRitems.push_back(std::move(r));
>>
    The new item keeps the counter [gNumFrameResources] of its
    default member initialiser. *)
Definition newRenderItem (layer : RenderLayer) (prim : D3D12_PRIMITIVE_TOPOLOGY)
    (mat geo args : string) a : State :=
  let r := MkRenderItem (sceneWorld (objCBIndex a)) Identity4x4 gNumFrameResources
                        (objCBIndex a) mat geo prim args in
  let p := length (mAllRitems a) in
  let layers := mRitemLayer (ext a) in
  let a := set_objCBIndex (S (objCBIndex a)) a in
  let a := set_mRitemLayer
             (λ l, layers l ++ (if decide (l = layer) then [p] else [])) a in
  set_mAllRitems (mAllRitems a ++ [r]) a.

Definition shape (mat args : string) a : State :=
  newRenderItem Opaque TOPOLOGY_TRIANGLELIST mat "shapeGeo" args a.

(** [CastleApp::BuildWaves] *)
Definition BuildWaves a : State :=
  let a := set_mWavesRitem (Some (length (mAllRitems a))) a in
  newRenderItem Transparent TOPOLOGY_TRIANGLELIST "water" "waterGeo" "grid" a.

(** [CastleApp::BuildWalls]: two gates and six walls. *)
Definition BuildWalls a : State :=
  let a := shape "wood" "box" a in
  let a := shape "wood" "box" a in
  let a := shape "brick2" "box" a in
  let a := shape "brick2" "box" a in
  let a := shape "brick2" "box" a in
  let a := shape "brick2" "box" a in
  let a := shape "brick2" "box" a in
  shape "brick2" "box" a.

(** [CastleApp::BuildTowers]: four cylinders, each under a cone. *)
Definition BuildTowers a : State :=
  let a := shape "brick2" "cylinder" a in
  let a := shape "wood" "cone" a in
  let a := shape "brick2" "cylinder" a in
  let a := shape "wood" "cone" a in
  let a := shape "brick2" "cylinder" a in
  let a := shape "wood" "cone" a in
  let a := shape "brick2" "cylinder" a in
  shape "wood" "cone" a.

(** [CastleApp::BuildRailAndSpikes]: the rail, then for [i] from 0
    to 4 one spike ([i = 0]) or a spike on either side. *)
Definition BuildRailAndSpikes a : State :=
  let a := shape "wood" "box" a in
  foldl (λ a (i : Z),
           if decide (i = 0) then
             let a := shape "stone" "box" a in
             shape "stone" "pyramid" a
           else
             let a := shape "stone" "box" a in
             let a := shape "stone" "pyramid" a in
             let a := shape "stone" "box" a in
             shape "stone" "pyramid" a)
        a [0; 1; 2; 3; 4].

(** [CastleApp::BuildRailings]: eight calls of [BuildRailAndSpikes]. *)
Definition BuildRailings a : State :=
  Nat.iter 8 BuildRailAndSpikes a.

(** [CastleApp::BuildInner] *)
Definition BuildInner a : State :=
  let a := shape "tile" "grid" a in
  let a := foldl (λ a (_ : Z),
                    let a := shape "metal" "cylinder" a in
                    let a := shape "glass" "sphere" a in
                    let a := shape "metal" "cylinder" a in
                    shape "glass" "sphere" a)
                 a [0; 1; 2] in
  let a := shape "stone" "box" a in
  let a := shape "stone" "box" a in
  shape "ice" "torus" a.

(** [CastleApp::BuildMaze]: the floor and sixteen walls. *)
Definition BuildMaze a : State :=
  let a := shape "tile" "grid" a in
  Nat.iter 16 (shape "brick2" "box") a.

(** [CastleApp::BuildRenderItems] *)
Definition BuildRenderItems a : State :=
  let a := newRenderItem Opaque TOPOLOGY_TRIANGLELIST "grass" "landGeo" "grid" a in
  let a := BuildWalls a in
  let a := BuildTowers a in
  let a := BuildRailings a in
  let a := BuildInner a in
  let a := BuildMaze a in
  let a := BuildWaves a in
  newRenderItem AlphaTestedTreeSprites TOPOLOGY_POINTLIST
                "treeSprites" "treeSpritesGeo" "points" a.

(** [CastleApp::BuildFrameResources] *)
Definition BuildFrameResources a : State :=
  foldl (λ a (_ : Z),
           set_mFrameResources
             (mFrameResources a ++
                [FrameResource_new 1 (length (mAllRitems a)) (size (mMaterials a))
                   (UploadBuffer_new (Z.to_nat (VertexCount (mWaves (ext a)))))]) a)
        a [0; 1; 2].

(** The vertex-buffer bindings after [BuildLandGeometry],
    [BuildWavesGeometry] (which leaves the binding null: "set
    dynamically"), [BuildShapeGeometry] and [BuildTreeSpritesGeometry]. *)
Definition BuildGeometries a : State :=
  let static (n : string) := MkMeshGeometry (Some (DefaultBuffer n)) in
  set_mGeometries
    (<["treeSpritesGeo" := static "treeSpritesGeo"]>
     (<["shapeGeo" := static "shapeGeo"]>
     (<["waterGeo" := MkMeshGeometry None]>
     (<["landGeo" := static "landGeo"]> (mGeometries a))))) a.

(** The object as its constructor and member initialisers leave it,
    over the base-class state [d], the camera [c], the wave grid [w]
    made by [Initialize], and the default pass constants [pc]. *)
Definition CastleApp_new (d : D3DApp) (c : C) (w : W) (pc : PassConstants F) : State :=
  let XM_PI := f_dec 3141592654 9 in
  let XM_PIDIV2 := f_dec 1570796327 9 in
  MkApp d [] None 0 ∅ ∅ [] pc
    (MkFloat3 (f_dec 232 0) (f_dec 0 0) (f_dec 0 0)) Identity4x4 Identity4x4
    (f_mul (f_dec 15 1) XM_PI) (f_sub XM_PIDIV2 (f_dec 1 1)) (f_dec 50 0)
    0%nat (MkExt c w None (λ _, []) (f_dec 0 0)) [].

(** [CastleApp::Initialize], from [LoadTextures] on. *)
Definition Initialize a : option State :=
  let a := BuildGeometries a in
  let a := BuildMaterials a in
  let a := BuildRenderItems a in
  let a := BuildFrameResources a in
  d ← FlushCommandQueue (base a);
  Some (set_base d a).

(** *** What the construction establishes *)

(** The keys of [mMaterials] after [BuildMaterials] and of
    [mGeometries] after the four geometry builders. *)
Definition material_names : list string :=
  ["grass"; "water"; "tile"; "wood"; "metal"; "glass"; "ice"; "stone";
   "brick2"; "treeSprites"].

Definition geometry_names : list string :=
  ["landGeo"; "waterGeo"; "shapeGeo"; "treeSpritesGeo"].

(** The render items under construction: the running index is the
    number of items, the items carry the indices 0, 1, 2, ... in
    order, they name registered materials and geometries, and the
    layers and [mWavesRitem] point at items. *)
Definition scene_ok a : Prop :=
  objCBIndex a = length (mAllRitems a) ∧
  ObjCBIndex <$> mAllRitems a = seq 0 (length (mAllRitems a)) ∧
  Forall (λ e, Mat e ∈ material_names ∧ Geo e ∈ geometry_names) (mAllRitems a) ∧
  (∀ l, Forall (λ p, (p < length (mAllRitems a))%nat) (mRitemLayer (ext a) l)) ∧
  (∀ p, mWavesRitem (ext a) = Some p → (p < length (mAllRitems a))%nat).

(** The registries: the names are keys of [mMaterials] and of
    [mGeometries], and every material index is below the number of
    materials. *)
Definition scene_registered a : Prop :=
  (∀ n, n ∈ material_names → is_Some (mMaterials a !! n)) ∧
  (∀ n, n ∈ geometry_names → is_Some (mGeometries a !! n)) ∧
  map_Forall (λ _ m, (MatCBIndex m < size (mMaterials a))%nat) (mMaterials a).

(** What the construction of the render items leaves as in [a0]. *)
Definition scene_rest a0 a : Prop :=
  mMaterials a = mMaterials a0 ∧ mGeometries a = mGeometries a0 ∧
  mFrameResources a = mFrameResources a0 ∧
  mCurrFrameResourceIndex a = mCurrFrameResourceIndex a0 ∧
  mCurrFrameResource a = mCurrFrameResource a0 ∧
  base a = base a0 ∧ mLog a = mLog a0 ∧
  mWaves (ext a) = mWaves (ext a0) ∧ mCamera (ext a) = mCamera (ext a0).

(** The layer entries in the order [Draw] records them. *)
Definition draw_order a : list nat :=
  mRitemLayer (ext a) Opaque ++ mRitemLayer (ext a) AlphaTested ++
  mRitemLayer (ext a) AlphaTestedTreeSprites ++ mRitemLayer (ext a) Transparent.

(** Every render item is in exactly one layer, once. *)
Definition drawn_once a : Prop :=
  indexed a ∧ draw_order a ≡ₚ seq 0 (length (mAllRitems a)).

(** *** Well-formed states *)

(** What [Update] and [Draw] rely on: the ring, the fence and the
    buffer indices are in order, the water material exists, the wave
    item and its geometry exist, the wave buffers hold the grid, and
    the layers point at drawable items. *)
Definition wf a : Prop :=
  ring_ok a ∧ indices_in_range a ∧
  fence_inv (base a) (mFrameResources a) ∧
  is_Some (mMaterials a !! "water") ∧
  (∃ p ri, mWavesRitem (ext a) = Some p ∧ mAllRitems a !! p = Some ri ∧
           is_Some (mGeometries a !! Geo ri)) ∧
  Forall (λ fr, (Z.to_nat (VertexCount (mWaves (ext a))) ≤ length (WavesVB fr))%nat)
         (mFrameResources a) ∧
  (∀ l, drawable a (mRitemLayer (ext a) l)).
End Castle.
End Castle.

(** * The columns demo: [LitColumnsApp.cpp] *)
Module LitColumns.

(** The member only [LitColumnsApp] has: the pointers to the items
    drawn with the opaque pipeline state. *)
Record Ext := MkExt { mOpaqueRitems : list nat }.

Section LitColumns.
Context {F : Type}.
Context `{!Float32 F, !DirectXMath F}.

Abbreviation State := (App F unit Ext) (only parsing).

Implicit Types (a : State) (i : FrameInput F).

(** [LitColumnsApp::OnKeyboardInput] has an empty body. *)
Definition OnKeyboardInput i a : State := a.

(** [LitColumnsApp::UpdateCamera] *)
Definition UpdateCamera i a : State :=
  let ex := f_mul (f_mul (mRadius a) (sinf (mPhi a))) (cosf (mTheta a)) in
  let ez := f_mul (f_mul (mRadius a) (sinf (mPhi a))) (sinf (mTheta a)) in
  let ey := f_mul (mRadius a) (cosf (mPhi a)) in
  let zero := f_dec 0 0 in
  let one := f_dec 1 0 in
  let three := f_of_int 3 in
  let pos := MkFloat4 (f_mul ex three) (f_mul ey three) (f_mul ez three) one in
  let target := MkFloat4 zero zero zero zero in
  let up := MkFloat4 zero one zero zero in
  set_camera (MkFloat3 ex ey ez) (XMMatrixLookAtLH pos target up) a.

(** [LitColumnsApp::AnimateMaterials] has an empty body. *)
Definition AnimateMaterials i a : option State := Some a.

(** The record [LitColumnsApp::UpdateMainPassCB] stores in [mMainPassCB]. *)
Definition mainPassConstants i a : PassConstants F :=
  let view := mView a in
  let proj := mProj a in
  let viewProj := XMMatrixMultiply view proj in
  let invView := XMMatrixInverse (XMMatrixDeterminant view) view in
  let invProj := XMMatrixInverse (XMMatrixDeterminant proj) proj in
  let invViewProj := XMMatrixInverse (XMMatrixDeterminant viewProj) viewProj in
  let w := mClientWidth (base a) in
  let h := mClientHeight (base a) in
  MkPassConstants
    (XMMatrixTranspose view) (XMMatrixTranspose invView)
    (XMMatrixTranspose proj) (XMMatrixTranspose invProj)
    (XMMatrixTranspose viewProj) (XMMatrixTranspose invViewProj)
    (mEyePos a)
    (MkFloat2 (f_of_int w) (f_of_int h))
    (MkFloat2 (f_div (f_dec 1 0) (f_of_int w)) (f_div (f_dec 1 0) (f_of_int h)))
    (f_dec 1 0) (f_dec 1000 0) (TotalTime i) (DeltaTime i).

(** [LitColumnsApp::UpdateMainPassCB] *)
Definition UpdateMainPassCB i a : option State :=
  let pc := mainPassConstants i a in
  let a := set_mMainPassCB pc a in
  slot ← mCurrFrameResource a;
  fr ← mFrameResources a !! slot;
  cb ← CopyData 0 pc (PassCB fr);
  Some (emit (E_CopyPass slot 0 pc)
          (set_mFrameResources (<[slot := set_PassCB cb fr]> (mFrameResources a)) a)).

(** [LitColumnsApp::Update] *)
Definition Update i a : option State :=
  let a := OnKeyboardInput i a in
  let a := UpdateCamera i a in
  a ← CycleFrameResources (gpu_progress i) a;
  a ← AnimateMaterials i a;
  a ← UpdateObjectCBs a;
  a ← UpdateMaterialCBs a;
  UpdateMainPassCB i a.

(** [LitColumnsApp::Draw] *)
Definition Draw i a : option State :=
  _ ← mCurrFrameResource a;
  calls ← DrawRenderItems a (mOpaqueRitems (ext a));
  Draw_submit calls a.

(** One iteration of [D3DApp::Run]: [Update(mTimer); Draw(mTimer);]. *)
Definition frame i a : option State := a ← Update i a; Draw i a.

(** *** Scene construction *)

(** Modelled from the spec: a [Material] as [std::make_unique<Material>()]
    leaves it before the fields are assigned, with the dirty counter
    at [gNumFrameResources] and an identity [MatTransform]. *)
Definition newMaterial (name : string) (index : nat)
    (albedo : XMFLOAT4 F) (fresnel : XMFLOAT3 F) (rough : F) : Material F :=
  MkMaterial name index index gNumFrameResources albedo fresnel rough Identity4x4.

(** [LitColumnsApp::BuildMaterials]; the colours are those of
    [DirectXColors.h]. *)
Definition BuildMaterials a : State :=
  let rgb (r g b : Z) := MkFloat4 (f_dec r 9) (f_dec g 9) (f_dec b 9) (f_dec 1 0) in
  let r0 (m : Z) (e : nat) := MkFloat3 (f_dec m e) (f_dec m e) (f_dec m e) in
  let LightGray := rgb 827450991 827450991 827450991 in
  let DarkGray := rgb 662745118 662745118 662745118 in
  let ForestGreen := rgb 133333340 545098066 133333340 in
  let SaddleBrown := rgb 545098066 270588249 74509807 in
  let bricks0 := newMaterial "bricks0" 0 LightGray (r0 2 2%nat) (f_dec 1 1) in
  let stone0 := newMaterial "stone0" 1 DarkGray (r0 5 2%nat) (f_dec 3 1) in
  let tile0 := newMaterial "greenMat" 2 ForestGreen (r0 2 2%nat) (f_dec 2 1) in
  let brownMat := newMaterial "brownMat" 4 SaddleBrown (r0 5 2%nat) (f_dec 3 1) in
  set_mMaterials
    (<["brownMat" := brownMat]> (<["greenMat" := tile0]>
     (<["stone0" := stone0]> (<["bricks0" := bricks0]> (mMaterials a))))) a.

(** The [World] matrix stored into the render item that receives
    constant-buffer index [k]. *)
Variable sceneWorld : nat → XMFLOAT4X4 F.

(** The block repeated for every render item:
<<
auto r = std::make_unique<RenderItem>();
XMStoreFloat4x4(&r->World, ...);
XMStoreFloat4x4(&r->TexTransform, XMMatrixScaling(1.0f, 1.0f, 1.0f));
r->ObjCBIndex = objectIndex++;
r->Mat = mMaterials[mat].get();  r->Geo = mGeometries["shapeGeo"].get();
r->PrimitiveType = D3D11_PRIMITIVE_TOPOLOGY_TRIANGLELIST; ...
mAllRitems.push_back(std::move(r));
>>
    *)
Definition shape (mat args : string) a : State :=
  let r := MkRenderItem (sceneWorld (objCBIndex a)) Identity4x4 gNumFrameResources
                        (objCBIndex a) mat "shapeGeo" TOPOLOGY_TRIANGLELIST args in
  let a := set_objCBIndex (S (objCBIndex a)) a in
  set_mAllRitems (mAllRitems a ++ [r]) a.

(** [LitColumnsApp::BuildWalls]: two gates and six walls. *)
Definition BuildWalls a : State :=
  let a := shape "brownMat" "box" a in
  let a := shape "brownMat" "box" a in
  let a := shape "stone0" "box" a in
  let a := shape "stone0" "box" a in
  let a := shape "stone0" "box" a in
  let a := shape "stone0" "box" a in
  let a := shape "stone0" "box" a in
  shape "stone0" "box" a.

(** [LitColumnsApp::BuildTowers] *)
Definition BuildTowers a : State :=
  let a := shape "stone0" "cylinder" a in
  let a := shape "greenMat" "cone" a in
  let a := shape "stone0" "cylinder" a in
  let a := shape "greenMat" "cone" a in
  let a := shape "stone0" "cylinder" a in
  let a := shape "greenMat" "cone" a in
  let a := shape "stone0" "cylinder" a in
  shape "greenMat" "cone" a.

(** [LitColumnsApp::BuildRailAndSpikes] *)
Definition BuildRailAndSpikes a : State :=
  let a := shape "bricks0" "box" a in
  foldl (λ a (i : Z),
           if decide (i = 0) then
             let a := shape "bricks0" "box" a in
             shape "greenMat" "pyramid" a
           else
             let a := shape "bricks0" "box" a in
             let a := shape "greenMat" "pyramid" a in
             let a := shape "bricks0" "box" a in
             shape "greenMat" "pyramid" a)
        a [0; 1; 2; 3; 4].

(** [LitColumnsApp::BuildRailings]: eight calls of [BuildRailAndSpikes]. *)
Definition BuildRailings a : State :=
  Nat.iter 8 BuildRailAndSpikes a.

(** [LitColumnsApp::BuildInner] *)
Definition BuildInner a : State :=
  let a := shape "bricks0" "grid" a in
  let a := foldl (λ a (_ : Z),
                    let a := shape "bricks0" "cylinder" a in
                    let a := shape "greenMat" "sphere" a in
                    let a := shape "bricks0" "cylinder" a in
                    shape "greenMat" "sphere" a)
                 a [0; 1; 2] in
  let a := shape "bricks0" "box" a in
  let a := shape "bricks0" "box" a in
  shape "greenMat" "torus" a.

(** [LitColumnsApp::BuildRenderItems]; all the items are opaque. *)
Definition BuildRenderItems a : State :=
  let a := shape "greenMat" "grid" a in
  let a := BuildWalls a in
  let a := BuildTowers a in
  let a := BuildRailings a in
  let a := BuildInner a in
  set_ext (MkExt (mOpaqueRitems (ext a) ++ seq 0 (length (mAllRitems a)))) a.

(** [LitColumnsApp::BuildFrameResources] *)
Definition BuildFrameResources a : State :=
  foldl (λ a (_ : Z),
           set_mFrameResources
             (mFrameResources a ++
                [FrameResource_new 1 (length (mAllRitems a)) (size (mMaterials a)) ()]) a)
        a [0; 1; 2].

(** The vertex-buffer binding after [BuildShapeGeometry]. *)
Definition BuildGeometries a : State :=
  set_mGeometries
    (<["shapeGeo" := MkMeshGeometry (Some (DefaultBuffer "shapeGeo"))]> (mGeometries a)) a.

(** The object as its constructor and member initialisers leave it,
    over the base-class state [d] and the default pass constants [pc]. *)
Definition LitColumnsApp_new (d : D3DApp) (pc : PassConstants F) : State :=
  let XM_PI := f_dec 3141592654 9 in
  MkApp d [] None 0 ∅ ∅ [] pc
    (MkFloat3 (f_dec 0 0) (f_dec 0 0) (f_dec 0 0)) Identity4x4 Identity4x4
    (f_mul (f_dec 15 1) XM_PI) (f_mul (f_dec 2 1) XM_PI) (f_dec 15 0)
    0%nat (MkExt []) [].

(** [LitColumnsApp::Initialize], from [BuildRootSignature] on. *)
Definition Initialize a : option State :=
  let a := BuildGeometries a in
  let a := BuildMaterials a in
  let a := BuildRenderItems a in
  let a := BuildFrameResources a in
  d ← FlushCommandQueue (base a);
  Some (set_base d a).

(** *** What the construction establishes *)

(** The keys of [mMaterials] after [BuildMaterials]. *)
Definition material_names : list string :=
  ["bricks0"; "stone0"; "greenMat"; "brownMat"].

(** The render items under construction: the running index is the
    number of items, the items carry the indices 0, 1, 2, ... in
    order, and they name registered materials and the one geometry. *)
Definition scene_ok a : Prop :=
  objCBIndex a = length (mAllRitems a) ∧
  ObjCBIndex <$> mAllRitems a = seq 0 (length (mAllRitems a)) ∧
  Forall (λ e, Mat e ∈ material_names ∧ Geo e = "shapeGeo") (mAllRitems a).

(** What the construction of the render items leaves as in [a0]. *)
Definition scene_rest a0 a : Prop :=
  mMaterials a = mMaterials a0 ∧ mGeometries a = mGeometries a0 ∧
  mFrameResources a = mFrameResources a0 ∧
  mCurrFrameResourceIndex a = mCurrFrameResourceIndex a0 ∧
  mCurrFrameResource a = mCurrFrameResource a0 ∧
  base a = base a0 ∧ mLog a = mLog a0.

(** The registries: the names are keys of [mMaterials], the one
    geometry is registered, and the layer points at items. *)
Definition scene_registered a : Prop :=
  (∀ n, n ∈ material_names → is_Some (mMaterials a !! n)) ∧
  is_Some (mGeometries a !! "shapeGeo") ∧
  Forall (λ p, (p < length (mAllRitems a))%nat) (mOpaqueRitems (ext a)).

(** The layer holds every render item once, in the order of
    [mAllRitems]. *)
Definition drawn_once a : Prop :=
  indexed a ∧ mOpaqueRitems (ext a) = seq 0 (length (mAllRitems a)).

(** *** Well-formed states *)

(** What [Update] and [Draw] rely on. *)
Definition wf a : Prop :=
  ring_ok a ∧ indices_in_range a ∧
  fence_inv (base a) (mFrameResources a) ∧
  drawable a (mOpaqueRitems (ext a)).

(** The state [a] over material buffers of [k] records instead of
    the [mMaterials.size()] records [BuildFrameResources] asks for. *)
Definition widened (k : nat) a : State :=
  set_mFrameResources
    ((λ fr, set_MaterialCB (UploadBuffer_new k) fr) <$> mFrameResources a) a.
End LitColumns.
End LitColumns.

(** * A model of the interfaces

    The development is parametric in the floats, in DirectXMath, in the
    camera and in the waves.  Here is one model of each, over the
    rational numbers, on which the two applications can be run: it
    provides the states of the examples.  The rationals have no square
    root, sine or cosine: [XMMatrixLookAtLH] does not normalise its
    axes here, and [sinf] and [cosf] are Taylor polynomials. *)

Module Example.
Import QArith_base Qreduction.
Local Close Scope Q_scope.
Local Open Scope Z_scope.

Definition q (m : Z) (e : nat) : Q := Qred (Qmake m (Z.to_pos (10 ^ Z.of_nat e))).

#[global] Instance Q_Float32 : Float32 Q := {|
  f_dec := q;
  f_of_int := inject_Z;
  f_add a b := Qred (Qplus a b);
  f_sub a b := Qred (Qminus a b);
  f_mul a b := Qred (Qmult a b);
  f_div a b := Qred (Qdiv a b);
  f_ge a b := Qle_bool b a;
  sinf x := Qred (Qminus x (Qdiv (Qmult x (Qmult x x)) (inject_Z 6)));
  cosf x := Qred (Qminus (inject_Z 1) (Qdiv (Qmult x x) (inject_Z 2)))
|}.

(** Matrices as lists of rows, for the determinant and the inverse. *)
Definition rows (M : XMFLOAT4X4 Q) : list (list Q) :=
  (λ r, [x4 r; y4 r; z4 r; w4 r]) <$> [row0 M; row1 M; row2 M; row3 M].

Definition entry (m : list (list Q)) (r c : nat) : Q :=
  default (inject_Z 0) (m !! r ≫= (.!! c)).

Definition of_entries (f : nat → nat → Q) : XMFLOAT4X4 Q :=
  let row r := MkFloat4 (f r 0%nat) (f r 1%nat) (f r 2%nat) (f r 3%nat) in
  MkFloat4x4 (row 0%nat) (row 1%nat) (row 2%nat) (row 3%nat).

Definition Qsum (l : list Q) : Q := foldr (λ x s, Qred (Qplus x s)) (inject_Z 0) l.

Definition sign (k : nat) : Q := if Nat.even k then inject_Z 1 else inject_Z (-1).

Definition minor (r c : nat) (m : list (list Q)) : list (list Q) :=
  delete c <$> delete r m.

(** The determinant of an [n] by [n] matrix, along its first row. *)
Fixpoint det (n : nat) (m : list (list Q)) : Q :=
  match n with
  | O => inject_Z 1
  | S n' =>
      Qsum (imap (λ c x, Qmult (Qmult (sign c) x) (det n' (minor 0 c m)))
                 (default [] (head m)))
  end.

Definition multiply (M N : XMFLOAT4X4 Q) : XMFLOAT4X4 Q :=
  of_entries (λ r c,
    Qsum ((λ k, Qmult (entry (rows M) r k) (entry (rows N) k c)) <$> seq 0 4)).

Definition determinant (M : XMFLOAT4X4 Q) : XMFLOAT4 Q :=
  let d := det 4 (rows M) in MkFloat4 d d d d.

(** The adjugate over the determinant; [pDeterminant] is an output
    of [XMMatrixInverse] and its value on entry is not read. *)
Definition inverse (pDeterminant : XMFLOAT4 Q) (M : XMFLOAT4X4 Q) : XMFLOAT4X4 Q :=
  let m := rows M in
  let d := det 4 m in
  of_entries (λ r c, Qred (Qdiv (Qmult (sign (r + c)) (det 3 (minor c r m))) d)).

Definition sub3 (a b : XMFLOAT4 Q) : XMFLOAT4 Q :=
  MkFloat4 (Qminus (x4 a) (x4 b)) (Qminus (y4 a) (y4 b)) (Qminus (z4 a) (z4 b)) (inject_Z 0).

Definition cross3 (a b : XMFLOAT4 Q) : XMFLOAT4 Q :=
  MkFloat4 (Qminus (Qmult (y4 a) (z4 b)) (Qmult (z4 a) (y4 b)))
           (Qminus (Qmult (z4 a) (x4 b)) (Qmult (x4 a) (z4 b)))
           (Qminus (Qmult (x4 a) (y4 b)) (Qmult (y4 a) (x4 b))) (inject_Z 0).

Definition dot3 (a b : XMFLOAT4 Q) : Q :=
  Qred (Qplus (Qmult (x4 a) (x4 b)) (Qplus (Qmult (y4 a) (y4 b)) (Qmult (z4 a) (z4 b)))).

Definition lookAtLH (eye focus up : XMFLOAT4 Q) : XMFLOAT4X4 Q :=
  let az := sub3 focus eye in
  let ax := cross3 up az in
  let ay := cross3 az ax in
  MkFloat4x4
    (MkFloat4 (x4 ax) (x4 ay) (x4 az) (inject_Z 0))
    (MkFloat4 (y4 ax) (y4 ay) (y4 az) (inject_Z 0))
    (MkFloat4 (z4 ax) (z4 ay) (z4 az) (inject_Z 0))
    (MkFloat4 (Qopp (dot3 ax eye)) (Qopp (dot3 ay eye)) (Qopp (dot3 az eye)) (inject_Z 1)).

#[global] Instance Q_DirectXMath : DirectXMath Q := {|
  XMMatrixMultiply := multiply;
  XMMatrixDeterminant := determinant;
  XMMatrixInverse := inverse;
  XMMatrixLookAtLH := lookAtLH
|}.

(** A camera that looks along the z axis: a position, moved along
    the axes, and the translation to it as view matrix. *)
Definition translation (p : XMFLOAT3 Q) : XMFLOAT4X4 Q :=
  MkFloat4x4 (row0 Identity4x4) (row1 Identity4x4) (row2 Identity4x4)
             (MkFloat4 (x3 p) (y3 p) (z3 p) (inject_Z 1)).

#[global] Instance Q_Camera : CameraOps Q (XMFLOAT3 Q) := {|
  Walk d c := MkFloat3 (x3 c) (y3 c) (f_add (z3 c) d);
  Strafe d c := MkFloat3 (f_add (x3 c) d) (y3 c) (z3 c);
  Rise d c := MkFloat3 (x3 c) (f_add (y3 c) d) (z3 c);
  Lower d c := MkFloat3 (x3 c) (f_sub (y3 c) d) (z3 c);
  UpdateViewMatrix c := c;
  GetView c := translation (MkFloat3 (Qopp (x3 c)) (Qopp (y3 c)) (Qopp (z3 c)));
  GetProj c := Identity4x4;
  GetPosition3f c := c
|}.

(** Waves on a grid of two columns: the heights of the vertices,
    damped by a step, raised by a disturbance. *)
#[global] Instance Q_Waves : WavesOps Q (list Q) := {|
  RowCount w := Z.div (Z.of_nat (length w)) 2;
  ColumnCount w := 2;
  VertexCount w := Z.of_nat (length w);
  Width w := inject_Z 2;
  Depth w := inject_Z (Z.div (Z.of_nat (length w)) 2);
  Waves_Position w k :=
    MkFloat3 (inject_Z (Z.modulo k 2)) (default (inject_Z 0) (w !! Z.to_nat k))
             (inject_Z (Z.div k 2));
  Waves_Normal w k := MkFloat3 (inject_Z 0) (inject_Z 1) (inject_Z 0);
  Waves_Update dt w := (λ h, f_mul h (f_sub (inject_Z 1) dt)) <$> w;
  Disturb i j r w := alter (λ h, f_add h r) (Z.to_nat (i * 2 + j)) w
|}.

(** The world matrix of the item with index [k]: [k] units along x. *)
Definition sceneWorld0 (k : nat) : XMFLOAT4X4 Q :=
  translation (MkFloat3 (inject_Z (Z.of_nat k)) (inject_Z 0) (inject_Z 0)).

(** The base class after [D3DApp::Initialize]: nothing submitted, a
    window of 800 by 600. *)
Definition d0 : D3DApp := MkD3DApp 0 0 [] 0 800 600.

Definition pc0 : PassConstants Q :=
  MkPassConstants Identity4x4 Identity4x4 Identity4x4 Identity4x4 Identity4x4
    Identity4x4 (MkFloat3 (q 0 0) (q 0 0) (q 0 0))
    (MkFloat2 (q 0 0) (q 0 0)) (MkFloat2 (q 0 0) (q 0 0))
    (q 0 0) (q 0 0) (q 0 0) (q 0 0).

(** [mCamera.SetPosition(350.0f, 2.0f, 0.0f)], and a grid of four
    vertices at rest. *)
Definition c0 : XMFLOAT3 Q := MkFloat3 (q 350 0) (q 2 0) (q 0 0).
Definition w0 : list Q := [q 0 0; q 0 0; q 0 0; q 0 0].

(** A frame a sixtieth of a second long, a third of a second after
    the start, with the key W down; the GPU reaches one signal. *)
Definition i0 : FrameInput Q :=
  MkFrameInput (Qred (Qmake 1 3)) (Qred (Qmake 1 60))
               true false false false false false 1 1 (q 2 1) 1.

(** The castle as [Initialize] leaves it, and after one, two and
    three frames. *)
Definition castle_new := Castle.CastleApp_new d0 c0 w0 pc0.
Definition castle0 := default castle_new (Castle.Initialize sceneWorld0 castle_new).
Definition castle1 := default castle0 (Castle.frame i0 castle0).
Definition castle2 := default castle1 (Castle.frame i0 castle1).
Definition castle3 := default castle2 (Castle.frame i0 castle2).

(** The columns as [Initialize] leaves them, then over material
    buffers of five records, and after one, two and three frames. *)
Definition columns_new := LitColumns.LitColumnsApp_new d0 pc0.
Definition columns_init :=
  default columns_new (LitColumns.Initialize sceneWorld0 columns_new).
Definition columns0 := LitColumns.widened 5 columns_init.
Definition columns1 := default columns0 (LitColumns.frame i0 columns0).
Definition columns2 := default columns1 (LitColumns.frame i0 columns1).
Definition columns3 := default columns2 (LitColumns.frame i0 columns2).

(** The first render item of either scene, the floor, as built and
    after three frames. *)
Definition castle_floor (c : Z) : RenderItem Q :=
  MkRenderItem (sceneWorld0 0) Identity4x4 c 0 "grass" "landGeo"
               TOPOLOGY_TRIANGLELIST "grid".

Definition columns_floor (c : Z) : RenderItem Q :=
  MkRenderItem (sceneWorld0 0) Identity4x4 c 0 "greenMat" "shapeGeo"
               TOPOLOGY_TRIANGLELIST "grid".

(** The same frame, during which the GPU reaches no signal. *)
Definition i_stall : FrameInput Q :=
  MkFrameInput (Qred (Qmake 1 3)) (Qred (Qmake 1 60))
               true false false false false false 1 1 (q 2 1) 0.

(** Either application after three frames without progress of the
    GPU: the three frames are in flight, and the next ring advance
    selects a frame resource the GPU has not finished. *)
Definition castle_s1 := default castle0 (Castle.frame i_stall castle0).
Definition castle_s2 := default castle_s1 (Castle.frame i_stall castle_s1).
Definition castle_s3 := default castle_s2 (Castle.frame i_stall castle_s2).

Definition columns_s1 := default columns0 (LitColumns.frame i_stall columns0).
Definition columns_s2 := default columns_s1 (LitColumns.frame i_stall columns_s1).
Definition columns_s3 := default columns_s2 (LitColumns.frame i_stall columns_s2).

(** The second render item of either scene, a box one unit along x,
    as built. *)
Definition castle_gate (c : Z) : RenderItem Q :=
  MkRenderItem (sceneWorld0 1) Identity4x4 c 1 "wood" "shapeGeo"
               TOPOLOGY_TRIANGLELIST "box".

Definition columns_box (c : Z) : RenderItem Q :=
  MkRenderItem (sceneWorld0 1) Identity4x4 c 1 "brownMat" "shapeGeo"
               TOPOLOGY_TRIANGLELIST "box".

(** The water material as built, and with its counter at 1; a
    castle whose water is in that state. *)
Definition water0 : Material Q :=
  Castle.newMaterial "water" 1
    (MkFloat4 (q 1 0) (q 1 0) (q 1 0) (q 5 1))
    (MkFloat3 (q 1 1) (q 1 1) (q 1 1)) (q 0 0).

Definition water1 : Material Q := set_MatNumFramesDirty 1 water0.

Definition castle_water1 :=
  set_mMaterials (<["water" := water1]> (mMaterials castle_new)) castle_new.
End Example.

(** * Proofs *)

(** ** Tactics *)

(** Reduction of field reads over field updates, and nothing else. *)
Ltac st_cbn_goal :=
  cbn [base mFrameResources mCurrFrameResource mCurrFrameResourceIndex mGeometries
       mMaterials mAllRitems mMainPassCB mEyePos mView mProj mTheta mPhi mRadius
       objCBIndex ext mLog
       mCurrentFence mFence mCommandQueue mCurrBackBuffer mClientWidth mClientHeight
       set_mCurrentFence set_gpu set_mCommandQueue set_mCurrBackBuffer
       set_base set_mFrameResources set_current set_mGeometries set_mMaterials
       set_mAllRitems set_mMainPassCB set_camera set_objCBIndex set_ext set_mLog emit
       PassCB MaterialCB ObjectCB WavesVB Fence
       set_PassCB set_MaterialCB set_ObjectCB set_WavesVB set_Fence
       Castle.mCamera Castle.mWaves Castle.mWavesRitem Castle.mRitemLayer Castle.t_base
       Castle.set_mCamera Castle.set_waves Castle.set_mWavesRitem Castle.set_mRitemLayer
       LitColumns.mOpaqueRitems LitColumns.OnKeyboardInput LitColumns.UpdateCamera
       fst snd].

Ltac st_cbn_in H :=
  cbn [base mFrameResources mCurrFrameResource mCurrFrameResourceIndex mGeometries
       mMaterials mAllRitems mMainPassCB mEyePos mView mProj mTheta mPhi mRadius
       objCBIndex ext mLog
       mCurrentFence mFence mCommandQueue mCurrBackBuffer mClientWidth mClientHeight
       set_mCurrentFence set_gpu set_mCommandQueue set_mCurrBackBuffer
       set_base set_mFrameResources set_current set_mGeometries set_mMaterials
       set_mAllRitems set_mMainPassCB set_camera set_objCBIndex set_ext set_mLog emit
       PassCB MaterialCB ObjectCB WavesVB Fence
       set_PassCB set_MaterialCB set_ObjectCB set_WavesVB set_Fence
       Castle.mCamera Castle.mWaves Castle.mWavesRitem Castle.mRitemLayer Castle.t_base
       Castle.set_mCamera Castle.set_waves Castle.set_mWavesRitem Castle.set_mRitemLayer
       LitColumns.mOpaqueRitems LitColumns.OnKeyboardInput LitColumns.UpdateCamera
       fst snd] in H.

Tactic Notation "st_cbn" := st_cbn_goal.
Tactic Notation "st_cbn" "in" hyp(H) := st_cbn_in H.
Tactic Notation "st_cbn" "in" hyp(H1) "," hyp(H2) := st_cbn_in H1; st_cbn_in H2.
Tactic Notation "st_cbn" "in" hyp(H1) "," hyp(H2) "," hyp(H3) :=
  st_cbn_in H1; st_cbn_in H2; st_cbn_in H3.
Tactic Notation "st_cbn" "in" hyp(H1) "," hyp(H2) "," hyp(H3) "," hyp(H4) :=
  st_cbn_in H1; st_cbn_in H2; st_cbn_in H3; st_cbn_in H4.

(** The state a step returned, brought to the form of a record of
    fields, then substituted. *)
Ltac settle E := st_cbn_in E; subst.

(** The fields of a later state, expressed over an earlier one: every
    equation [a' = ...] between states in the context is used, from the
    latest state back. *)
Ltac unwind :=
  repeat match goal with
         | E : ?x = _ |- _ =>
             is_var x;
             match type of x with App _ _ _ => idtac end;
             progress (rewrite E); st_cbn_goal
         end.

Ltac unwind_in H :=
  repeat match goal with
         | E : ?x = _ |- _ =>
             is_var x;
             match type of x with App _ _ _ => idtac end;
             progress (rewrite E in H); st_cbn_in H
         end.

Lemma bind_is_Some_intro {A B : Type} (x : option A) (f : A → option B) (y : A) :
  x = Some y → is_Some (f y) → is_Some (x ≫= f).
Proof. by intros ->. Qed.

(** Reading the slot written just before. *)
Ltac same_slot Hs Hfr :=
  st_cbn_in Hs; injection Hs as <-;
  st_cbn_in Hfr;
  rewrite list_lookup_insert_eq in Hfr
    by (rewrite ?length_insert; eapply lookup_lt_Some; eassumption);
  injection Hfr as <-.


(** ** Upload buffers *)

Lemma CopyData_Some {T : Type} (k : nat) (d : T) (b b' : list (option T)) :
  CopyData k d b = Some b' ↔ (k < length b)%nat ∧ b' = <[k := Some d]> b.
Proof.
  unfold CopyData. case_decide; split.
  - intros [= <-]. done.
  - intros [_ ->]. done.
  - done.
  - intros [? _]. lia.
Qed.

Lemma CopyData_is_Some {T : Type} (k : nat) (d : T) (b : list (option T)) :
  is_Some (CopyData k d b) ↔ (k < length b)%nat.
Proof.
  unfold CopyData. case_decide.
  - split; [done | by eexists].
  - split; [by intros [? ?] | lia].
Qed.

Lemma CopyData_length {T : Type} (k : nat) (d : T) (b b' : list (option T)) :
  CopyData k d b = Some b' → length b' = length b.
Proof. intros [_ ->]%CopyData_Some. apply length_insert. Qed.

(** ** The object loop *)

Section ObjectLoop.
Context {F : Type}.
Implicit Types (items : list (RenderItem F)) (e : RenderItem F)
               (cb : list (option (ObjectConstants F))).

Lemma objectWrites_cons e items cb :
  objectWrites (e :: items) cb =
  objectWrites items (if decide (0 < NumFramesDirty e)
                      then <[ObjCBIndex e := Some (objConstants e)]> cb else cb).
Proof. done. Qed.

Lemma objectWrites_length items cb :
  length (objectWrites items cb) = length cb.
Proof.
  revert cb. induction items as [|e items IH]; intros cb; [done|].
  rewrite objectWrites_cons, IH. case_decide; [apply length_insert | done].
Qed.

Lemma objectEvents_cons slot e items :
  objectEvents slot (e :: items) =
  (if decide (0 < NumFramesDirty e)
   then [E_CopyObject slot (ObjCBIndex e) (objConstants e)] else [])
  ++ objectEvents slot items.
Proof. unfold objectEvents. cbn. by case_decide. Qed.

(** The loop, when it returns, returns the ticked items, the buffer
    with the writes of the dirty items and the log of those writes. *)
Lemma UpdateObjectCBs_loop_inv slot items cb log items' cb' log' :
  UpdateObjectCBs_loop slot items cb log = Some (items', cb', log') →
  items' = tick <$> items ∧ cb' = objectWrites items cb ∧
  log' = reverse (objectEvents slot items) ++ log.
Proof.
  revert cb log items' cb' log'.
  induction items as [|e items IH]; intros cb log items' cb' log' H.
  { by injection H as <- <- <-. }
  rewrite fmap_cons, objectWrites_cons, objectEvents_cons.
  cbn [UpdateObjectCBs_loop] in H. unfold tick at 1.
  destruct (decide (0 < NumFramesDirty e)) as [Hd|Hd].
  - destruct (CopyData _ _ cb) as [cb1|] eqn:Hc; [|done]. cbn in H.
    apply CopyData_Some in Hc as [_ ->].
    destruct (UpdateObjectCBs_loop _ _ _ _) as [[[r c] l]|] eqn:Hl; [|done].
    cbn in H. injection H as <- <- <-.
    apply IH in Hl as (-> & -> & ->).
    rewrite reverse_app, <- (assoc_L (++)). done.
  - destruct (UpdateObjectCBs_loop _ _ _ _) as [[[r c] l]|] eqn:Hl; [|done].
    cbn in H. injection H as <- <- <-.
    apply IH in Hl as (-> & -> & ->). by rewrite app_nil_l.
Qed.

(** The loop returns as soon as every index it uses is in range. *)
Lemma UpdateObjectCBs_loop_total slot items cb log :
  Forall (λ e, (ObjCBIndex e < length cb)%nat) items →
  is_Some (UpdateObjectCBs_loop slot items cb log).
Proof.
  revert cb log. induction items as [|e items IH]; intros cb log Hb; [by eexists|].
  apply Forall_cons in Hb as [He Hb]. cbn.
  case_decide.
  - unfold CopyData. rewrite decide_True by done. cbn.
    destruct (IH (<[ObjCBIndex e := Some (objConstants e)]> cb)
                 (E_CopyObject slot (ObjCBIndex e) (objConstants e) :: log))
      as [[[r c] l] ->]; [|by eexists].
    by rewrite length_insert.
  - destruct (IH cb log Hb) as [[[r c] l] ->]. by eexists.
Qed.

(** A dirty item finds its payload in the buffer after the pass, when
    no other item shares its index. *)
Lemma objectWrites_dirty items cb k e :
  NoDup (ObjCBIndex <$> items) →
  items !! k = Some e → 0 < NumFramesDirty e →
  (ObjCBIndex e < length cb)%nat →
  objectWrites items cb !! ObjCBIndex e = Some (Some (objConstants e)).
Proof.
  revert cb k. induction items as [|e0 items IH]; intros cb k Hnd Hk Hd Hlen; [done|].
  cbn in Hnd. apply NoDup_cons in Hnd as [Hnotin Hnd].
  destruct k as [|k]; cbn in Hk.
  - injection Hk as ->. rewrite objectWrites_cons, decide_True by done.
    assert (Hkeep : ∀ cb0, cb0 !! ObjCBIndex e = Some (Some (objConstants e)) →
              objectWrites items cb0 !! ObjCBIndex e = Some (Some (objConstants e))).
    { clear IH Hnd Hlen. induction items as [|e1 items IH]; intros cb0 H0; [done|].
      rewrite objectWrites_cons. cbn in Hnotin.
      apply not_elem_of_cons in Hnotin as [Hne Hnotin].
      apply IH; [done|]. case_decide; [|done].
      by rewrite list_lookup_insert_ne. }
    apply Hkeep. by apply list_lookup_insert_eq.
  - rewrite objectWrites_cons. eapply IH; eauto.
    case_decide; [by rewrite length_insert | done].
Qed.

(** A record whose index belongs to no dirty item is left alone. *)
Lemma objectWrites_other items cb n :
  (∀ e, e ∈ items → 0 < NumFramesDirty e → ObjCBIndex e ≠ n) →
  objectWrites items cb !! n = cb !! n.
Proof.
  revert cb. induction items as [|e items IH]; intros cb H; [done|].
  rewrite objectWrites_cons, IH by (intros; apply H; [by right | done]).
  case_decide; [|done].
  rewrite list_lookup_insert_ne; [done|]. apply H; [by left | done].
Qed.

Lemma objectEvents_elem slot items ev :
  ev ∈ objectEvents slot items ↔
  ∃ e, e ∈ items ∧ 0 < NumFramesDirty e ∧
       ev = E_CopyObject slot (ObjCBIndex e) (objConstants e).
Proof.
  unfold objectEvents. rewrite list_elem_of_omap. split.
  - intros (e & He & H). case_decide; [|done]. injection H as <-. eauto.
  - intros (e & He & Hd & ->). exists e. split; [done|]. by rewrite decide_True.
Qed.
End ObjectLoop.

(** ** The material loop *)

Section MaterialLoop.
Context {F : Type}.
Implicit Types (entries : list (string * Material F)) (m : Material F)
               (mats : gmap string (Material F))
               (cb : list (option (MaterialConstants F))).

Lemma materialWrites_cons (e : string * Material F) entries cb :
  materialWrites (e :: entries) cb =
  materialWrites entries (if decide (0 < MatNumFramesDirty e.2)
                          then <[MatCBIndex e.2 := Some (matConstants e.2)]> cb else cb).
Proof. done. Qed.

Lemma materialWrites_length entries cb :
  length (materialWrites entries cb) = length cb.
Proof.
  revert cb. induction entries as [|e entries IH]; intros cb; [done|].
  rewrite materialWrites_cons, IH. case_decide; [apply length_insert | done].
Qed.

Lemma materialEvents_cons slot (e : string * Material F) entries :
  materialEvents slot (e :: entries) =
  (if decide (0 < MatNumFramesDirty e.2)
   then [E_CopyMaterial slot (MatCBIndex e.2) (matConstants e.2)] else [])
  ++ materialEvents slot entries.
Proof. unfold materialEvents. cbn. by case_decide. Qed.

Lemma UpdateMaterialCBs_loop_inv slot entries mats cb log mats' cb' log' :
  UpdateMaterialCBs_loop slot entries mats cb log = Some (mats', cb', log') →
  mats' = tickEntries entries mats ∧ cb' = materialWrites entries cb ∧
  log' = reverse (materialEvents slot entries) ++ log.
Proof.
  revert mats cb log.
  induction entries as [|[key m] entries IH]; intros mats cb log H.
  { by injection H as <- <- <-. }
  rewrite materialWrites_cons, materialEvents_cons.
  cbn [UpdateMaterialCBs_loop] in H. unfold tickEntries. cbn [foldl fst snd].
  destruct (decide (0 < MatNumFramesDirty m)) as [Hd|Hd].
  - destruct (CopyData _ _ cb) as [cb1|] eqn:Hc; [|done]. cbn in H.
    apply CopyData_Some in Hc as [_ ->].
    apply IH in H as (-> & -> & ->).
    rewrite reverse_app, <- (assoc_L (++)). done.
  - apply IH in H as (-> & -> & ->). by rewrite app_nil_l.
Qed.

Lemma UpdateMaterialCBs_loop_total slot entries mats cb log :
  Forall (λ e, (MatCBIndex e.2 < length cb)%nat) entries →
  is_Some (UpdateMaterialCBs_loop slot entries mats cb log).
Proof.
  revert mats cb log.
  induction entries as [|[key m] entries IH]; intros mats cb log Hb; [by eexists|].
  apply Forall_cons in Hb as [He Hb]. cbn in He. cbn [UpdateMaterialCBs_loop].
  case_decide.
  - unfold CopyData. rewrite decide_True by done. cbn.
    apply IH. by rewrite length_insert.
  - by apply IH.
Qed.

(** Over entries with distinct keys that the map holds, the loop
    ticks exactly the materials of those keys. *)
Lemma tickEntries_lookup entries mats k :
  NoDup entries.*1 →
  (∀ key m, (key, m) ∈ entries → mats !! key = Some m) →
  tickEntries entries mats !! k =
  (if decide (k ∈ entries.*1) then tickMat <$> mats !! k else mats !! k).
Proof.
  revert mats. induction entries as [|[k0 m0] entries IH]; intros mats Hnd Hin.
  { cbn. by rewrite decide_False by apply not_elem_of_nil. }
  cbn in Hnd. apply NoDup_cons in Hnd as [Hfresh Hnd].
  assert (H0 : mats !! k0 = Some m0) by (apply Hin; constructor).
  unfold tickEntries. cbn [foldl fst snd].
  set (acc := if decide (0 < MatNumFramesDirty m0) then _ else mats).
  assert (Hacc : acc = <[k0 := tickMat m0]> mats).
  { subst acc. unfold tickMat.
    destruct (decide (0 < MatNumFramesDirty m0)); [done|]. by rewrite insert_id. }
  fold (tickEntries entries acc). rewrite IH; [|done|].
  - rewrite Hacc. cbn [fmap list_fmap fst]. destruct (decide (k = k0)) as [->|Hne].
    + rewrite decide_False by done. rewrite decide_True by left.
      by rewrite lookup_insert_eq, H0.
    + rewrite lookup_insert_ne by done.
      destruct (decide (k ∈ entries.*1)).
      * by rewrite decide_True by (by right).
      * rewrite decide_False; [done|]. by intros [?|?]%elem_of_cons.
  - intros key m Hm. rewrite Hacc.
    rewrite lookup_insert_ne; [apply Hin; by right|].
    intros <-. apply Hfresh. apply list_elem_of_fmap. by exists (k0, m).
Qed.

Lemma tickEntries_map_to_list mats :
  tickEntries (map_to_list mats) mats = tickMat <$> mats.
Proof.
  apply map_eq. intros k.
  rewrite tickEntries_lookup.
  - rewrite lookup_fmap. case_decide as Hk; [done|].
    destruct (mats !! k) as [m|] eqn:Hm; [|done].
    exfalso. apply Hk. apply list_elem_of_fmap. exists (k, m).
    split; [done|]. by apply elem_of_map_to_list.
  - apply NoDup_fst_map_to_list.
  - intros key m. apply elem_of_map_to_list.
Qed.
End MaterialLoop.

(** ** The GPU timeline *)

Section Gpu.
Implicit Types (c v : Z) (q : list Z).

(** Running the GPU drops a prefix of the timeline. *)
Lemma gpu_run_drop n c q :
  ∃ k, (gpu_run n c q).1 :: (gpu_run n c q).2 = drop k (c :: q).
Proof.
  revert c q. induction n as [|n IH]; intros c q.
  { by exists 0%nat. }
  destruct q as [|s q]; [by exists 0%nat|].
  destruct (IH s q) as [k Hk]. exists (S k). done.
Qed.

Lemma WaitForFence_unfold v c q :
  WaitForFence v c q =
  if decide (v ≤ c) then Some (c, q)
  else match q with [] => None | s :: rest => WaitForFence v s rest end.
Proof. by destruct q. Qed.

(** A wait that returns has let the GPU run until the fence holds at
    least the awaited value. *)
Lemma WaitForFence_inv v c q g :
  WaitForFence v c q = Some g →
  v ≤ g.1 ∧ ∃ k, g.1 :: g.2 = drop k (c :: q).
Proof.
  revert c. induction q as [|s q IH]; intros c H;
    rewrite WaitForFence_unfold in H; case_decide; simplify_eq.
  - split; [done|]. by exists 0%nat.
  - split; [done|]. by exists 0%nat.
  - apply IH in H as [? [k Hk]]. split; [done|]. by exists (S k).
Qed.

(** An awaited value that is completed or queued is reached. *)
Lemma WaitForFence_total v c q :
  v ≤ c ∨ v ∈ q → is_Some (WaitForFence v c q).
Proof.
  revert c. induction q as [|s q IH]; intros c H;
    rewrite WaitForFence_unfold; case_decide; try by eexists.
  - destruct H as [?|H]; [lia|]. by apply elem_of_nil in H.
  - apply IH. destruct H as [?|H]; [lia|].
    apply elem_of_cons in H as [->|?]; [left; lia | by right].
Qed.

Lemma sorted_drop k (l : list Z) :
  StronglySorted Z.lt l → StronglySorted Z.lt (drop k l).
Proof.
  revert l. induction k as [|k IH]; intros l H; [done|].
  destruct l as [|x l]; [done|]. cbn. apply IH.
  by apply StronglySorted_inv in H as [? _].
Qed.

(** What a later point of an increasing timeline knows about an
    earlier one. *)
Lemma timeline_later k c q c' q' :
  StronglySorted Z.lt (c :: q) →
  c' :: q' = drop k (c :: q) →
  c ≤ c' ∧ (∀ v, v ∈ q → v ≤ c' ∨ v ∈ q') ∧ (∀ v, v ∈ q' → v ∈ q).
Proof.
  revert c q. induction k as [|k IH]; intros c q Hs Hd.
  { cbn in Hd. injection Hd as -> ->. split; [lia|]. split; [by right | done]. }
  destruct q as [|s q]; [cbn in Hd; by rewrite drop_nil in Hd|]. cbn in Hd.
  apply StronglySorted_inv in Hs as [Hs Hall].
  apply Forall_cons in Hall as [Hcs Hall].
  destruct (IH s q Hs Hd) as (Hle & Hold & Hnew).
  split; [lia|]. split.
  - intros v [->|Hv]%elem_of_cons; [by left | by apply Hold].
  - intros v Hv. right. by apply Hnew.
Qed.
End Gpu.

Section FenceInv.
Context {F V : Type}.
Implicit Types (d : D3DApp) (frs : list (FrameResource F V)).

(** GPU progress keeps the fence invariant and does not lower the
    completed value. *)
Lemma fence_inv_gpu d frs (g : Z * list Z) k :
  fence_inv d frs →
  g.1 :: g.2 = drop k (mFence d :: mCommandQueue d) →
  fence_inv (set_gpu g d) frs ∧ mFence d ≤ g.1.
Proof.
  intros (H0 & Hs & Hb & Hm) Hd.
  destruct (timeline_later _ _ _ _ _ Hs Hd) as (Hle & Hold & Hnew).
  split; [|done]. unfold fence_inv. cbn.
  split; [lia|]. split; [rewrite Hd; by apply sorted_drop|].
  split.
  - rewrite Hd. rewrite Forall_forall in Hb |- *.
    intros v Hv. apply Hb. by eapply subseteq_drop.
  - eapply Forall_impl; [exact Hm|]. cbn. intros fr [?|Hq]; [left; lia|].
    destruct (Hold _ Hq); [by left | by right].
Qed.
End FenceInv.

(** ** What a pass leaves of items and materials *)

Section Ticks.
Context {F : Type}.
Implicit Types (e : RenderItem F) (m : Material F).

Lemma tick_same e : same_item e (tick e).
Proof. unfold same_item, tick. by case_decide. Qed.

Lemma tickMat_same m : same_material m (tickMat m).
Proof. unfold same_material, tickMat. by case_decide. Qed.

Lemma same_item_fields e e' :
  same_item e e' →
  World e = World e' ∧ TexTransform e = TexTransform e' ∧
  ObjCBIndex e = ObjCBIndex e' ∧ Mat e = Mat e' ∧ Geo e = Geo e' ∧
  PrimitiveType e = PrimitiveType e' ∧ DrawArgs e = DrawArgs e'.
Proof. destruct e, e'. unfold same_item. cbn. intros [=]. by subst. Qed.

Lemma same_material_fields m m' :
  same_material m m' →
  Name m = Name m' ∧ MatCBIndex m = MatCBIndex m' ∧
  DiffuseSrvHeapIndex m = DiffuseSrvHeapIndex m' ∧
  DiffuseAlbedo m = DiffuseAlbedo m' ∧ FresnelR0 m = FresnelR0 m' ∧
  Roughness m = Roughness m' ∧ MatTransform m = MatTransform m'.
Proof. destruct m, m'. unfold same_material. cbn. intros [=]. by subst. Qed.

Lemma tick_ObjCBIndex e : ObjCBIndex (tick e) = ObjCBIndex e.
Proof. unfold tick. by case_decide. Qed.

Lemma tick_Geo e : Geo (tick e) = Geo e.
Proof. unfold tick. by case_decide. Qed.

Lemma tick_Mat e : Mat (tick e) = Mat e.
Proof. unfold tick. by case_decide. Qed.

Lemma tickMat_MatCBIndex m : MatCBIndex (tickMat m) = MatCBIndex m.
Proof. unfold tickMat. by case_decide. Qed.

Lemma tick_counter e :
  NumFramesDirty (tick e) =
  if decide (0 < NumFramesDirty e) then NumFramesDirty e - 1 else NumFramesDirty e.
Proof. unfold tick. by case_decide. Qed.

Lemma tickMat_counter m :
  MatNumFramesDirty (tickMat m) =
  if decide (0 < MatNumFramesDirty m) then MatNumFramesDirty m - 1
  else MatNumFramesDirty m.
Proof. unfold tickMat. by case_decide. Qed.

Lemma tick_indices (items : list (RenderItem F)) :
  ObjCBIndex <$> (tick <$> items) = ObjCBIndex <$> items.
Proof.
  rewrite <- list_fmap_compose. apply list_fmap_ext. intros ? e _. apply tick_ObjCBIndex.
Qed.

Lemma Forall_tick_index (P : nat → Prop) (items : list (RenderItem F)) :
  Forall (λ e, P (ObjCBIndex e)) items →
  Forall (λ e, P (ObjCBIndex e)) (tick <$> items).
Proof.
  intros H. apply Forall_fmap. eapply Forall_impl; [exact H|].
  cbn. intros e. by rewrite tick_ObjCBIndex.
Qed.

Lemma map_Forall_tickMat_index (P : nat → Prop) (mats : gmap string (Material F)) :
  map_Forall (λ _ m, P (MatCBIndex m)) mats →
  map_Forall (λ _ m, P (MatCBIndex m)) (tickMat <$> mats).
Proof.
  intros H k m'. rewrite lookup_fmap. intros Hm.
  destruct (mats !! k) as [m|] eqn:Hk; [|done]. cbn in Hm. injection Hm as <-.
  rewrite tickMat_MatCBIndex. by apply (H k).
Qed.
End Ticks.

Section Drawable.
Context {F V X : Type}.
Implicit Types (a : App F V X).

(** Drawability survives a pass: the items keep their references and
    the two maps keep their keys. *)
Lemma drawable_preserved a a' ritems :
  mAllRitems a' = tick <$> mAllRitems a →
  (∀ k, is_Some (mGeometries a !! k) → is_Some (mGeometries a' !! k)) →
  (∀ k, is_Some (mMaterials a !! k) → is_Some (mMaterials a' !! k)) →
  drawable a ritems → drawable a' ritems.
Proof.
  intros Hi Hg Hm H. eapply Forall_impl; [exact H|]. cbn.
  intros p (ri & Hri & Hgeo & Hmat). exists (tick ri).
  rewrite Hi, list_lookup_fmap, Hri, tick_Geo, tick_Mat. auto.
Qed.
End Drawable.

(** ** The shared steps, inverted *)

Section SharedSteps.
Context {F V X : Type}.
Implicit Types (a : App F V X).

(** Replacing, in a frame resource, buffers by themselves. *)
Lemma FrameResource_eta (fr : FrameResource F V) :
  MkFrameResource (PassCB fr) (MaterialCB fr) (ObjectCB fr) (WavesVB fr) (Fence fr) = fr.
Proof. by destruct fr. Qed.

(** The ring advance, when it returns: the slot selected, whether the
    thread waited, and the GPU timeline [g'] it resumes on. *)
Lemma CycleFrameResources_inv progress a a' :
  CycleFrameResources progress a = Some a' →
  let i := Z.rem (mCurrFrameResourceIndex a + 1) gNumFrameResources in
  let g := gpu_run progress (mFence (base a)) (mCommandQueue (base a)) in
  ∃ fr (blocked : bool) (g' : Z * list Z),
    0 ≤ i ∧ mFrameResources a !! Z.to_nat i = Some fr ∧
    (blocked = true ↔ Fence fr ≠ 0 ∧ g.1 < Fence fr) ∧
    (if blocked then WaitForFence (Fence fr) g.1 g.2 = Some g' else g' = g) ∧
    a' = set_mLog ((if blocked then [E_WaitForSingleObject (Fence fr)] else []) ++ mLog a)
           (set_base (set_gpu g' (base a)) (set_current i (Some (Z.to_nat i)) a)).
Proof.
  unfold CycleFrameResources. intros H. cbn zeta.
  case_decide; [|done].
  destruct (mFrameResources a !! _) as [fr|]; [|done]. cbn in H.
  exists fr.
  case_decide.
  - destruct (WaitForFence _ _ _) as [g'|] eqn:Hw; [|done]. cbn in H.
    exists true, g'. injection H as <-. done.
  - exists false, (gpu_run progress (mFence (base a)) (mCommandQueue (base a))).
    injection H as <-. repeat split; try done.
Qed.

Lemma UpdateObjectCBs_inv a a' :
  UpdateObjectCBs a = Some a' →
  ∃ slot fr, mCurrFrameResource a = Some slot ∧ mFrameResources a !! slot = Some fr ∧
    a' = set_mLog (reverse (objectEvents slot (mAllRitems a)) ++ mLog a)
           (set_mAllRitems (tick <$> mAllRitems a)
              (set_mFrameResources
                 (<[slot := set_ObjectCB (objectWrites (mAllRitems a) (ObjectCB fr)) fr]>
                    (mFrameResources a)) a)).
Proof.
  unfold UpdateObjectCBs. intros H.
  destruct (mCurrFrameResource a) as [slot|]; [|done]. cbn in H.
  destruct (mFrameResources a !! slot) as [fr|] eqn:Hfr; [|done]. cbn in H.
  destruct (UpdateObjectCBs_loop _ _ _ _) as [[[items cb] log]|] eqn:Hl; [|done].
  cbn in H. injection H as <-.
  apply UpdateObjectCBs_loop_inv in Hl as (-> & -> & ->).
  by exists slot, fr.
Qed.

Lemma UpdateObjectCBs_total a slot fr :
  mCurrFrameResource a = Some slot → mFrameResources a !! slot = Some fr →
  Forall (λ e, (ObjCBIndex e < length (ObjectCB fr))%nat) (mAllRitems a) →
  is_Some (UpdateObjectCBs a).
Proof.
  intros Hs Hfr Hb. unfold UpdateObjectCBs. rewrite Hs. cbn. rewrite Hfr. cbn.
  destruct (UpdateObjectCBs_loop_total slot _ _ (mLog a) Hb) as [[[r c] l] ->].
  by eexists.
Qed.

Lemma UpdateMaterialCBs_inv a a' :
  UpdateMaterialCBs a = Some a' →
  ∃ slot fr, mCurrFrameResource a = Some slot ∧ mFrameResources a !! slot = Some fr ∧
    a' = set_mLog (reverse (materialEvents slot (map_to_list (mMaterials a))) ++ mLog a)
           (set_mMaterials (tickMat <$> mMaterials a)
              (set_mFrameResources
                 (<[slot := set_MaterialCB
                      (materialWrites (map_to_list (mMaterials a)) (MaterialCB fr)) fr]>
                    (mFrameResources a)) a)).
Proof.
  unfold UpdateMaterialCBs. intros H.
  destruct (mCurrFrameResource a) as [slot|]; [|done]. cbn in H.
  destruct (mFrameResources a !! slot) as [fr|] eqn:Hfr; [|done]. cbn in H.
  destruct (UpdateMaterialCBs_loop _ _ _ _ _) as [[[mats cb] log]|] eqn:Hl; [|done].
  cbn in H. injection H as <-.
  apply UpdateMaterialCBs_loop_inv in Hl as (-> & -> & ->).
  rewrite tickEntries_map_to_list. by exists slot, fr.
Qed.

Lemma UpdateMaterialCBs_total a slot fr :
  mCurrFrameResource a = Some slot → mFrameResources a !! slot = Some fr →
  map_Forall (λ _ m, (MatCBIndex m < length (MaterialCB fr))%nat) (mMaterials a) →
  is_Some (UpdateMaterialCBs a).
Proof.
  intros Hs Hfr Hb. unfold UpdateMaterialCBs. rewrite Hs. cbn. rewrite Hfr. cbn.
  destruct (UpdateMaterialCBs_loop_total slot (map_to_list (mMaterials a))
              (mMaterials a) (MaterialCB fr) (mLog a)) as [[[r c] l] ->]; [|by eexists].
  apply Forall_forall. intros [k m] Hkm. cbn.
  apply elem_of_map_to_list in Hkm. by apply (Hb k m).
Qed.

Lemma Draw_submit_inv calls a a' :
  Draw_submit calls a = Some a' →
  ∃ slot fr, mCurrFrameResource a = Some slot ∧ mFrameResources a !! slot = Some fr ∧
    let fence := UINT64_incr (mCurrentFence (base a)) in
    a' = set_mLog (E_Signal fence :: E_ExecuteCommandLists slot calls :: mLog a)
           (set_base
              (MkD3DApp fence (mFence (base a)) (mCommandQueue (base a) ++ [fence])
                 (Z.rem (mCurrBackBuffer (base a) + 1) SwapChainBufferCount)
                 (mClientWidth (base a)) (mClientHeight (base a)))
              (set_mFrameResources (<[slot := set_Fence fence fr]> (mFrameResources a)) a)).
Proof.
  unfold Draw_submit. intros H.
  destruct (mCurrFrameResource a) as [slot|]; [|done]. cbn in H.
  destruct (mFrameResources a !! slot) as [fr|] eqn:Hfr; [|done]. cbn in H.
  injection H as <-. by exists slot, fr.
Qed.

Lemma DrawRenderItems_total a ritems :
  drawable a ritems → is_Some (DrawRenderItems a ritems).
Proof.
  induction 1 as [|p ritems (ri & Hri & [geo Hgeo] & [mat Hmat]) _ [calls IH]];
    [by eexists|].
  cbn. rewrite Hri. cbn. rewrite Hgeo. cbn. rewrite Hmat. cbn. rewrite IH. by eexists.
Qed.
End SharedSteps.

(** ** The steps of the castle, inverted *)

Section CastleSteps.
Context {F C W : Type}.
Context `{!Float32 F, !DirectXMath F, !CameraOps F C, !WavesOps F W}.
Implicit Types (a : App F (list (option (Vertex F))) (Castle.Ext F C W))
               (i : FrameInput F).

Lemma Castle_AnimateMaterials_inv i a a' :
  Castle.AnimateMaterials i a = Some a' →
  ∃ water, mMaterials a !! "water" = Some water ∧
    a' = set_mMaterials (<["water" := Castle.scrollWater i water]> (mMaterials a)) a.
Proof.
  unfold Castle.AnimateMaterials. intros H.
  destruct (mMaterials a !! "water") as [water|]; [|done].
  injection H as <-. by exists water.
Qed.

Lemma Castle_UpdateMainPassCB_inv i a a' :
  Castle.UpdateMainPassCB i a = Some a' →
  ∃ slot fr, mCurrFrameResource a = Some slot ∧ mFrameResources a !! slot = Some fr ∧
    (0 < length (PassCB fr))%nat ∧
    let pc := Castle.mainPassConstants i a in
    a' = emit (E_CopyPass slot 0 pc)
           (set_mFrameResources
              (<[slot := set_PassCB (<[0%nat := Some pc]> (PassCB fr)) fr]>
                 (mFrameResources a))
              (set_mMainPassCB pc a)).
Proof.
  unfold Castle.UpdateMainPassCB. cbn. intros H.
  destruct (mCurrFrameResource a) as [slot|]; [|done]. cbn in H.
  destruct (mFrameResources a !! slot) as [fr|] eqn:Hfr; [|done]. cbn in H.
  destruct (CopyData _ _ _) as [cb|] eqn:Hcb; [|done]. cbn in H.
  apply CopyData_Some in Hcb as [Hlen ->].
  injection H as <-. by exists slot, fr.
Qed.

Lemma Castle_waveWrites_cons (w : W) k idx (vb : list (option (Vertex F))) :
  Castle.waveWrites w (k :: idx) vb =
  Castle.waveWrites w idx (<[k := Some (Castle.waveVertex w k)]> vb).
Proof. done. Qed.

Lemma Castle_waveWrites_length (w : W) idx (vb : list (option (Vertex F))) :
  length (Castle.waveWrites w idx vb) = length vb.
Proof.
  revert vb. induction idx as [|k idx IH]; intros vb; [done|].
  by rewrite Castle_waveWrites_cons, IH, length_insert.
Qed.

Lemma Castle_UpdateWaves_loop_inv slot (w : W) idx vb log vb' log' :
  Castle.UpdateWaves_loop slot w idx vb log = Some (vb', log') →
  Forall (λ k, (k < length vb)%nat) idx ∧
  vb' = Castle.waveWrites w idx vb ∧
  log' = reverse (Castle.waveEvents slot w idx) ++ log.
Proof.
  revert vb log. induction idx as [|k idx IH]; intros vb log H.
  { by injection H as <- <-. }
  cbn [Castle.UpdateWaves_loop] in H.
  destruct (CopyData _ _ vb) as [vb1|] eqn:Hc; [|done]. cbn in H.
  apply CopyData_Some in Hc as [Hk ->].
  apply IH in H as (Hall & -> & ->).
  split; [|split].
  - constructor; [done|]. eapply Forall_impl; [exact Hall|].
    cbn. intros ?. by rewrite length_insert.
  - done.
  - unfold Castle.waveEvents. rewrite fmap_cons, reverse_cons, <- (assoc_L (++)). done.
Qed.

Lemma Castle_UpdateWaves_loop_total slot (w : W) idx vb log :
  Forall (λ k, (k < length vb)%nat) idx →
  is_Some (Castle.UpdateWaves_loop slot w idx vb log).
Proof.
  revert vb log. induction idx as [|k idx IH]; intros vb log Hb; [by eexists|].
  apply Forall_cons in Hb as [Hk Hb]. cbn [Castle.UpdateWaves_loop].
  unfold CopyData. rewrite decide_True by done. cbn.
  apply IH. eapply Forall_impl; [exact Hb|]. cbn. intros ?. by rewrite length_insert.
Qed.

Lemma Castle_UpdateWaves_inv i a a' :
  Castle.UpdateWaves i a = Some a' →
  let tw := Castle.stepWaves i (Castle.t_base (ext a)) (Castle.mWaves (ext a)) in
  let idx := seq 0 (Z.to_nat (VertexCount tw.2)) in
  ∃ slot fr p ri,
    mCurrFrameResource a = Some slot ∧ mFrameResources a !! slot = Some fr ∧
    Castle.mWavesRitem (ext a) = Some p ∧ mAllRitems a !! p = Some ri ∧
    is_Some (mGeometries a !! Geo ri) ∧
    (Z.to_nat (VertexCount tw.2) ≤ length (WavesVB fr))%nat ∧
    a' = set_mGeometries
           (<[Geo ri := MkMeshGeometry (Some (UploadResource slot WavesRole))]>
              (mGeometries a))
           (set_mLog (reverse (Castle.waveEvents slot tw.2 idx) ++ mLog a)
              (set_mFrameResources
                 (<[slot := set_WavesVB (Castle.waveWrites tw.2 idx (WavesVB fr)) fr]>
                    (mFrameResources a))
                 (Castle.set_waves tw.1 tw.2 a))).
Proof.
  unfold Castle.UpdateWaves. intros H. cbn zeta.
  destruct (Castle.stepWaves _ _ _) as [tb w]. cbn [fst snd].
  cbn in H.
  destruct (mCurrFrameResource a) as [slot|]; [|done]. cbn in H.
  destruct (mFrameResources a !! slot) as [fr|] eqn:Hfr; [|done]. cbn in H.
  destruct (Castle.UpdateWaves_loop _ _ _ _ _) as [[vb log]|] eqn:Hl; [|done].
  cbn in H.
  destruct (Castle.mWavesRitem (ext a)) as [p|]; [|done]. cbn in H.
  destruct (mAllRitems a !! p) as [ri|] eqn:Hri; [|done]. cbn in H.
  destruct (mGeometries a !! Geo ri) as [geo|] eqn:Hgeo; [|done]. cbn in H.
  injection H as <-.
  apply Castle_UpdateWaves_loop_inv in Hl as (Hall & -> & ->).
  exists slot, fr, p, ri. repeat split; try done.
  destruct (Z.to_nat (VertexCount w)) as [|n] eqn:Hn; [lia|].
  rewrite Forall_forall in Hall.
  assert (Hin : n ∈ seq 0 (S n)) by (apply elem_of_seq; lia).
  apply Hall in Hin. lia.
Qed.

Lemma Castle_UpdateMainPassCB_total i a slot fr :
  mCurrFrameResource a = Some slot → mFrameResources a !! slot = Some fr →
  (0 < length (PassCB fr))%nat →
  is_Some (Castle.UpdateMainPassCB i a).
Proof.
  intros Hs Hfr Hlen. unfold Castle.UpdateMainPassCB. cbn zeta. st_cbn.
  rewrite Hs. cbn [mbind option_bind]. rewrite Hfr. cbn [mbind option_bind].
  unfold CopyData. rewrite decide_True by done. by eexists.
Qed.

Lemma Castle_UpdateWaves_total i a slot fr p ri :
  mCurrFrameResource a = Some slot → mFrameResources a !! slot = Some fr →
  Castle.mWavesRitem (ext a) = Some p → mAllRitems a !! p = Some ri →
  is_Some (mGeometries a !! Geo ri) →
  (Z.to_nat (VertexCount
     (Castle.stepWaves i (Castle.t_base (ext a)) (Castle.mWaves (ext a))).2)
   ≤ length (WavesVB fr))%nat →
  is_Some (Castle.UpdateWaves i a).
Proof.
  intros Hs Hfr Hp Hri [geo Hgeo] Hlen. unfold Castle.UpdateWaves.
  destruct (Castle.stepWaves i _ _) as [tb w]. cbn [snd] in Hlen. st_cbn.
  rewrite Hs. cbn [mbind option_bind]. rewrite Hfr. cbn [mbind option_bind].
  destruct (Castle_UpdateWaves_loop_total slot w (seq 0 (Z.to_nat (VertexCount w)))
              (WavesVB fr) (mLog a)) as [[vb' log'] ->].
  { apply Forall_forall. intros k Hk%elem_of_seq. lia. }
  cbn [mbind option_bind]. st_cbn. rewrite Hp. cbn [mbind option_bind].
  rewrite Hri. cbn [mbind option_bind]. rewrite Hgeo. by eexists.
Qed.
End CastleSteps.

(** ** [Update], [Draw] and a whole frame of the castle *)

Section CastleUpdate.
Context {F C W : Type}.
Context `{!Float32 F, !DirectXMath F, !CameraOps F C, !WavesOps F W}.
Implicit Types (a : App F (list (option (Vertex F))) (Castle.Ext F C W))
               (i : FrameInput F).

(** The two camera steps change the camera, [mEyePos] and [mView]. *)
Lemma Castle_camera_inv i a :
  ∃ (c : C) (e : XMFLOAT3 F) (v : XMFLOAT4X4 F),
    Castle.UpdateCamera i (Castle.OnKeyboardInput i a)
    = set_camera e v (Castle.set_mCamera c a).
Proof. by eexists _, _, _. Qed.

Lemma Castle_mainPassConstants_ext i a a' :
  Castle.mCamera (ext a) = Castle.mCamera (ext a') →
  mClientWidth (base a) = mClientWidth (base a') →
  mClientHeight (base a) = mClientHeight (base a') →
  Castle.mainPassConstants i a = Castle.mainPassConstants i a'.
Proof. unfold Castle.mainPassConstants. by intros -> -> ->. Qed.

(** What [Update] returns, field by field. *)
Lemma Castle_Update_inv i a a' :
  Castle.Update i a = Some a' →
  let a0 := Castle.UpdateCamera i (Castle.OnKeyboardInput i a) in
  let idx := Z.rem (mCurrFrameResourceIndex a + 1) gNumFrameResources in
  let slot := Z.to_nat idx in
  let g := gpu_run (gpu_progress i) (mFence (base a)) (mCommandQueue (base a)) in
  let tw := Castle.stepWaves i (Castle.t_base (ext a)) (Castle.mWaves (ext a)) in
  let vidx := seq 0 (Z.to_nat (VertexCount tw.2)) in
  let pc := Castle.mainPassConstants i a0 in
  ∃ fr water p ri (blocked : bool) (g' : Z * list Z),
    let mats1 := <["water" := Castle.scrollWater i water]> (mMaterials a) in
    (0 ≤ idx ∧ mFrameResources a !! slot = Some fr ∧
     mMaterials a !! "water" = Some water ∧
     Castle.mWavesRitem (ext a) = Some p ∧ mAllRitems a !! p = Some ri ∧
     is_Some (mGeometries a !! Geo ri) ∧
     (0 < length (PassCB fr))%nat ∧
     (Z.to_nat (VertexCount tw.2) ≤ length (WavesVB fr))%nat) ∧
    ((blocked = true ↔ Fence fr ≠ 0 ∧ g.1 < Fence fr) ∧
     (if blocked then WaitForFence (Fence fr) g.1 g.2 = Some g' else g' = g)) ∧
    base a' = set_gpu g' (base a) ∧
    mFrameResources a' =
      <[slot := MkFrameResource
                  (<[0%nat := Some pc]> (PassCB fr))
                  (materialWrites (map_to_list mats1) (MaterialCB fr))
                  (objectWrites (mAllRitems a) (ObjectCB fr))
                  (Castle.waveWrites tw.2 vidx (WavesVB fr))
                  (Fence fr)]> (mFrameResources a) ∧
    mCurrFrameResource a' = Some slot ∧
    mCurrFrameResourceIndex a' = idx ∧
    mGeometries a' =
      <[Geo ri := MkMeshGeometry (Some (UploadResource slot WavesRole))]> (mGeometries a) ∧
    mMaterials a' = tickMat <$> mats1 ∧
    mAllRitems a' = tick <$> mAllRitems a ∧
    mMainPassCB a' = pc ∧
    ext a' = Castle.MkExt (Castle.mCamera (ext a0)) tw.2 (Some p)
               (Castle.mRitemLayer (ext a)) tw.1 ∧
    mLog a' = reverse (Castle.waveEvents slot tw.2 vidx) ++
              E_CopyPass slot 0 pc ::
              reverse (materialEvents slot (map_to_list mats1)) ++
              reverse (objectEvents slot (mAllRitems a)) ++
              (if blocked then [E_WaitForSingleObject (Fence fr)] else []) ++ mLog a.
Proof.
  unfold Castle.Update. intros H. cbn zeta in *.
  destruct (Castle_camera_inv i a) as (c & e & v & E0).
  remember (Castle.UpdateCamera i (Castle.OnKeyboardInput i a)) as a0 eqn:Ea0.
  clear Ea0.
  apply bind_Some in H as (a1 & H1 & H).
  apply bind_Some in H as (a2 & H2 & H).
  apply bind_Some in H as (a3 & H3 & H).
  apply bind_Some in H as (a4 & H4 & H).
  apply bind_Some in H as (a5 & H5 & H6).
  apply CycleFrameResources_inv in H1
    as (fr & blocked & g' & Hidx & Hfr & Hb & Hg' & E1).
  cbn zeta in Hidx, Hfr, Hb, Hg', E1.
  apply Castle_AnimateMaterials_inv in H2 as (water & Hw & E2).
  apply UpdateObjectCBs_inv in H3 as (s3 & fr3 & Hs3 & Hfr3 & E3).
  apply UpdateMaterialCBs_inv in H4 as (s4 & fr4 & Hs4 & Hfr4 & E4).
  apply Castle_UpdateMainPassCB_inv in H5 as (s5 & fr5 & Hs5 & Hfr5 & Hlen5 & E5).
  apply Castle_UpdateWaves_inv in H6
    as (s6 & fr6 & p & ri & Hs6 & Hfr6 & Hp & Hri & Hgeo & Hlen6 & E6).
  cbn zeta in E5, Hlen6, E6.
(* the slot of every step is the one the ring advance selected *)
unwind_in Hs3. injection Hs3 as <-.
unwind_in Hs4. injection Hs4 as <-.
unwind_in Hs5. injection Hs5 as <-.
unwind_in Hs6. injection Hs6 as <-.
unwind_in Hidx. unwind_in Hfr. unwind_in Hb. unwind_in Hg'. unwind_in Hw.
assert (Hlt : (Z.to_nat ((mCurrFrameResourceIndex a + 1) `rem` gNumFrameResources)
               < length (mFrameResources a))%nat) by (by eapply lookup_lt_Some).
(* the frame resource each step found there *)
unwind_in Hfr3. rewrite Hfr in Hfr3. injection Hfr3 as <-.
unwind_in Hfr4. rewrite list_lookup_insert_eq in Hfr4 by done. injection Hfr4 as <-.
unwind_in Hfr5.
rewrite list_lookup_insert_eq in Hfr5 by (by rewrite ?length_insert).
injection Hfr5 as <-.
unwind_in Hfr6.
rewrite list_lookup_insert_eq in Hfr6 by (by rewrite ?length_insert).
injection Hfr6 as <-.
st_cbn in Hlen5. st_cbn in Hlen6. unwind_in Hlen6.
unwind_in Hp. unwind_in Hri. unwind_in Hgeo.
rewrite list_lookup_fmap in Hri.
destruct (mAllRitems a !! p) as [ri0|] eqn:Hri0; [|done].
injection Hri as <-. rewrite tick_Geo in Hgeo.
exists fr, water, p, ri0, blocked, g'. cbn zeta.
split; [done|]. split; [done|].
assert (Epc : Castle.mainPassConstants i a4 = Castle.mainPassConstants i a0).
{ apply Castle_mainPassConstants_ext; by unwind. }
rewrite Epc in E5. clear Epc.
repeat split.
- by unwind.
- unwind. by rewrite !list_insert_insert_eq.
- by unwind.
- by unwind.
- unwind. by rewrite tick_Geo.
- by unwind.
- by unwind.
- by unwind.
- unwind. by rewrite Hp.
- by unwind.
Qed.
End CastleUpdate.

(** ** The ring advance returns *)

Section CycleTotal.
Context {F V X : Type}.
Implicit Types (a : App F V X).

Lemma ring_next a :
  ring_ok a →
  let i := Z.rem (mCurrFrameResourceIndex a + 1) gNumFrameResources in
  0 ≤ i < gNumFrameResources ∧ is_Some (mFrameResources a !! Z.to_nat i).
Proof.
  intros [Hlen Hidx]. cbn zeta.
  assert (Hb : 0 ≤ Z.rem (mCurrFrameResourceIndex a + 1) gNumFrameResources
               < gNumFrameResources).
  { apply Z.rem_bound_pos; unfold gNumFrameResources in *; lia. }
  split; [done|]. apply lookup_lt_is_Some. rewrite Hlen. lia.
Qed.

(** The timeline the ring advance resumes on lies later on the one it
    started from. *)
Lemma cycle_timeline progress (d : D3DApp) (v : Z) (blocked : bool) (g' : Z * list Z) :
  let g := gpu_run progress (mFence d) (mCommandQueue d) in
  (if blocked then WaitForFence v g.1 g.2 = Some g' else g' = g) →
  ∃ k, g'.1 :: g'.2 = drop k (mFence d :: mCommandQueue d).
Proof.
  cbn zeta. intros H.
  destruct (gpu_run_drop progress (mFence d) (mCommandQueue d)) as [k1 Hk1].
  destruct blocked; [|subst; by exists k1].
  apply WaitForFence_inv in H as [_ [k2 Hk2]].
  exists (k1 + k2)%nat. rewrite Hk2, Hk1, drop_drop. done.
Qed.

Lemma CycleFrameResources_total progress a :
  ring_ok a → fence_inv (base a) (mFrameResources a) →
  is_Some (CycleFrameResources progress a).
Proof.
  intros Hring Hf. destruct (ring_next a Hring) as [[Hi _] [fr Hfr]].
  unfold CycleFrameResources. rewrite decide_True by done. rewrite Hfr. cbn.
  case_decide as Hc; [|by eexists].
  destruct (gpu_run_drop progress (mFence (base a)) (mCommandQueue (base a))) as [k Hk].
  destruct (fence_inv_gpu _ _ _ _ Hf Hk) as [(_ & _ & _ & Hm) _].
  rewrite Forall_forall in Hm.
  specialize (Hm fr (list_elem_of_lookup_2 _ _ _ Hfr)). cbn in Hm.
  destruct (WaitForFence_total _ _ _ Hm) as [g' ->]. by eexists.
Qed.
End CycleTotal.

(** ** [Update] of the castle returns on well-formed states *)

Section CastleTotal.
Context {F C W : Type}.
Context `{!Float32 F, !DirectXMath F, !CameraOps F C, !WavesOps F W}.
Context `{!WavesLawful F W}.
Implicit Types (a : App F (list (option (Vertex F))) (Castle.Ext F C W))
               (i : FrameInput F).

Lemma stepWaves_VertexCount i (tb : F) (w : W) :
  VertexCount (Castle.stepWaves i tb w).2 = VertexCount w.
Proof.
  unfold Castle.stepWaves. destruct (f_ge _ _); cbn [snd];
    by rewrite ?VertexCount_Update, ?VertexCount_Disturb.
Qed.

Lemma scrollWater_MatCBIndex i (m : Material F) :
  MatCBIndex (Castle.scrollWater i m) = MatCBIndex m.
Proof. done. Qed.

Lemma Castle_Update_total i a :
  Castle.wf a → is_Some (Castle.Update i a).
Proof.
  intros (Hring & Hidx & Hfence & [water Hw] & (p & ri & Hp & Hri & Hgeo) & Hwv & Hdraw).
  unfold Castle.Update. cbn zeta.
  destruct (Castle_camera_inv i a) as (c & e & v & E0).
  remember (Castle.UpdateCamera i (Castle.OnKeyboardInput i a)) as a0 eqn:Ea0.
  clear Ea0.
(* the ring advance *)
destruct (CycleFrameResources_total (gpu_progress i) a0) as [a1 H1].
{ rewrite E0. exact Hring. }
{ rewrite E0. exact Hfence. }
eapply bind_is_Some_intro; [exact H1|].
apply CycleFrameResources_inv in H1
  as (fr & blocked & g' & Hi & Hfr & _ & _ & E1).
cbn zeta in Hi, Hfr, E1. unwind_in Hfr. unwind_in Hi.
rewrite E0 in E1. st_cbn in E1. clear E0 a0.
set (slot := Z.to_nat ((mCurrFrameResourceIndex a + 1) `rem` gNumFrameResources)) in *.
pose proof (list_elem_of_lookup_2 _ _ _ Hfr) as Hin.
pose proof (lookup_lt_Some _ _ _ Hfr) as Hlt.
unfold indices_in_range in Hidx.
rewrite Forall_forall in Hidx. destruct (Hidx fr Hin) as (Hpass & Hobj & Hmat).
rewrite Forall_forall in Hwv. specialize (Hwv fr Hin).
assert (Hcur1 : mCurrFrameResource a1 = Some slot) by (by unwind).
(* the water material *)
assert (H2 : Castle.AnimateMaterials i a1
             = Some (set_mMaterials
                       (<["water" := Castle.scrollWater i water]> (mMaterials a1)) a1)).
{ unfold Castle.AnimateMaterials.
  replace (mMaterials a1 !! "water") with (Some water) by (by unwind). done. }
eapply bind_is_Some_intro; [exact H2|]. clear H2.
remember (set_mMaterials _ a1) as a2 eqn:E2.
replace (mMaterials a1) with (mMaterials a) in E2 by (by unwind).
(* the object constants *)
destruct (UpdateObjectCBs_total a2 slot fr) as [a3 H3];
  [by unwind | by unwind | by unwind |].
eapply bind_is_Some_intro; [exact H3|].
apply UpdateObjectCBs_inv in H3 as (s3 & fr3 & Hs3 & Hfr3 & E3).
unwind_in Hs3. injection Hs3 as <-.
unwind_in Hfr3. rewrite Hfr in Hfr3. injection Hfr3 as <-.
(* the material constants *)
destruct (UpdateMaterialCBs_total a3 slot
            (set_ObjectCB (objectWrites (mAllRitems a) (ObjectCB fr)) fr))
  as [a4 H4].
{ by unwind. }
{ unwind. by apply list_lookup_insert_eq. }
{ unwind. apply map_Forall_insert_2; [|done]. rewrite scrollWater_MatCBIndex.
  by apply (Hmat "water"). }
eapply bind_is_Some_intro; [exact H4|].
apply UpdateMaterialCBs_inv in H4 as (s4 & fr4 & Hs4 & Hfr4 & E4).
unwind_in Hs4. injection Hs4 as <-.
unwind_in Hfr4. rewrite list_lookup_insert_eq in Hfr4 by done. injection Hfr4 as <-.
(* the pass constants *)
destruct (Castle_UpdateMainPassCB_total i a4 slot
            (set_MaterialCB
               (materialWrites
                  (map_to_list (<["water" := Castle.scrollWater i water]> (mMaterials a)))
                  (MaterialCB fr))
               (set_ObjectCB (objectWrites (mAllRitems a) (ObjectCB fr)) fr)))
  as [a5 H5].
{ by unwind. }
{ unwind. apply list_lookup_insert_eq. by rewrite ?length_insert. }
{ done. }
eapply bind_is_Some_intro; [exact H5|].
apply Castle_UpdateMainPassCB_inv in H5 as (s5 & fr5 & Hs5 & Hfr5 & Hlen5 & E5).
cbn zeta in E5.
unwind_in Hs5. injection Hs5 as <-.
unwind_in Hfr5.
rewrite list_lookup_insert_eq in Hfr5 by (by rewrite ?length_insert).
injection Hfr5 as <-.
(* the waves *)
eapply (Castle_UpdateWaves_total i a5 slot _ p (tick ri)).
- by unwind.
- unwind. apply list_lookup_insert_eq. by rewrite ?length_insert.
- by unwind.
- unwind. by rewrite list_lookup_fmap, Hri.
- unwind. by rewrite tick_Geo.
- rewrite stepWaves_VertexCount. by unwind.
Qed.
End CastleTotal.

(** ** Columns of the ring *)

Section Columns.
Context {F V : Type}.
Implicit Types (frs : list (FrameResource F V)) (fr : FrameResource F V).

(** Overwriting a slot with a frame resource that agrees with the old
    one on [f] leaves the [f]-column of the ring alone. *)
Lemma column_insert {B : Type} (f : FrameResource F V → B) frs slot fr fr' :
  frs !! slot = Some fr → f fr' = f fr →
  f <$> <[slot := fr']> frs = f <$> frs.
Proof.
  intros Hfr Hf. rewrite list_fmap_insert, Hf.
  apply list_insert_id. by rewrite list_lookup_fmap, Hfr.
Qed.

Lemma fence_inv_frs (d : D3DApp) frs frs' :
  Fence <$> frs' = Fence <$> frs → fence_inv d frs → fence_inv d frs'.
Proof.
  intros Hc (H0 & Hs & Hb & Hm). repeat split; try done.
  apply (Forall_fmap Fence (λ v, v ≤ mFence d ∨ v ∈ mCommandQueue d)).
  rewrite Hc. by apply Forall_fmap.
Qed.
End Columns.

Section IndicesPreserved.
Context {F V X : Type}.
Implicit Types (a : App F V X).

(** The index bounds survive a step that keeps the indices of items
    and materials and the sizes of the buffers. *)
Lemma indices_in_range_preserved a a' :
  indices_in_range a →
  ObjCBIndex <$> mAllRitems a' = ObjCBIndex <$> mAllRitems a →
  (∀ k m', mMaterials a' !! k = Some m' →
           ∃ m, mMaterials a !! k = Some m ∧ MatCBIndex m' = MatCBIndex m) →
  Forall2 (λ fr' fr, length (PassCB fr') = length (PassCB fr) ∧
                     length (MaterialCB fr') = length (MaterialCB fr) ∧
                     length (ObjectCB fr') = length (ObjectCB fr))
          (mFrameResources a') (mFrameResources a) →
  indices_in_range a'.
Proof.
  unfold indices_in_range. intros H Hi Hm H2.
  induction H2 as [|fr' fr frs' frs (Hp & Hmc & Ho) _ IH]; [constructor|].
  apply Forall_cons in H as [(HP & HO & HM) H].
  constructor; [|by apply IH].
  split; [lia|]. split.
  - apply (Forall_fmap ObjCBIndex (λ n, (n < length (ObjectCB fr'))%nat)).
    rewrite Hi, Ho. by apply Forall_fmap.
  - intros k m' Hk. destruct (Hm k m' Hk) as (m & Hkm & ->).
    rewrite Hmc. by apply (HM k).
Qed.

Lemma Forall2_insert_same {A : Type} (R : A → A → Prop) (l : list A) (k : nat) (x y : A) :
  (∀ z, R z z) → l !! k = Some y → R x y → Forall2 R (<[k := x]> l) l.
Proof.
  intros Hrefl Hk Hxy.
  rewrite <- (list_insert_id l k y Hk) at 2.
  apply Forall2_insert; [|done]. by apply Forall_Forall2_diag, Forall_true.
Qed.
End IndicesPreserved.

(** ** Well-formedness is kept by [Update] of the castle *)

Section CastleUpdateWf.
Context {F C W : Type}.
Context `{!Float32 F, !DirectXMath F, !CameraOps F C, !WavesOps F W}.
Context `{!WavesLawful F W}.
Implicit Types (a : App F (list (option (Vertex F))) (Castle.Ext F C W))
               (i : FrameInput F).

Lemma Castle_Update_wf i a a' :
  Castle.wf a → Castle.Update i a = Some a' → Castle.wf a'.
Proof.
  intros (Hring & Hidx & Hfence & [water0 Hw0] & _ & Hwv & Hdraw) H.
  apply Castle_Update_inv in H
    as (fr & water & p & ri & blocked & g' &
        (Hi & Hfr & Hw & Hp & Hri & Hgeo & Hpass & Hvc) & (Hb & Hg') &
        Ebase & Efrs & Ecur & Eidx & Egeo & Emat & Eitems & Epc & Eext & Elog).
  cbn zeta in *.
  destruct (ring_next a Hring) as [Hnext _].
  assert (HFence : Fence <$> mFrameResources a' = Fence <$> mFrameResources a).
  { rewrite Efrs. by eapply column_insert. }
  unfold Castle.wf. split; [|split; [|split; [|split; [|split; [|split]]]]].
  - split; [rewrite Efrs, length_insert; apply Hring | by rewrite Eidx].
  - eapply indices_in_range_preserved; [exact Hidx | | |].
    + rewrite Eitems. apply tick_indices.
    + intros k m'. rewrite Emat, lookup_fmap. intros Hk.
      destruct (decide (k = "water")) as [->|Hne].
      * rewrite lookup_insert_eq in Hk. cbn in Hk. injection Hk as <-.
        exists water. split; [done|]. by rewrite tickMat_MatCBIndex.
      * rewrite lookup_insert_ne in Hk by done.
        destruct (mMaterials a !! k) as [m|] eqn:Hm; [|done]. cbn in Hk.
        injection Hk as <-. exists m. split; [done|]. apply tickMat_MatCBIndex.
    + rewrite Efrs. eapply Forall2_insert_same; [done | exact Hfr |]. cbn.
      by rewrite length_insert, materialWrites_length, objectWrites_length.
  - rewrite Ebase. eapply fence_inv_frs; [exact HFence|].
    destruct (cycle_timeline (gpu_progress i) (base a) (Fence fr) blocked g' Hg')
      as [k Hk].
    by destruct (fence_inv_gpu _ _ _ _ Hfence Hk).
  - rewrite Emat, lookup_fmap, lookup_insert_eq. by eexists.
  - exists p, (tick ri). rewrite Eext, Eitems, list_lookup_fmap, Hri, tick_Geo, Egeo.
    repeat split; try done. rewrite lookup_insert_eq. by eexists.
  - rewrite Eext. cbn. rewrite stepWaves_VertexCount.
    rewrite Efrs. apply Forall_insert; [done|]. cbn.
    rewrite Castle_waveWrites_length.
    rewrite Forall_forall in Hwv. apply Hwv. by eapply list_elem_of_lookup_2.
  - intros l. rewrite Eext. cbn.
    eapply drawable_preserved; [exact Eitems | | | apply Hdraw].
    + intros k Hk. rewrite Egeo. destruct (decide (Geo ri = k)) as [->|Hne].
      * rewrite lookup_insert_eq. by eexists.
      * by rewrite lookup_insert_ne.
    + intros k Hk. rewrite Emat, lookup_fmap. destruct (decide ("water" = k)) as [<-|Hne].
      * rewrite lookup_insert_eq. by eexists.
      * rewrite lookup_insert_ne by done. by apply fmap_is_Some.
Qed.
End CastleUpdateWf.

(** ** The end of [Draw] *)

Section Retire.
Context {F V X : Type}.
Implicit Types (a : App F V X).

Lemma UINT64_incr_small (v : Z) : 0 ≤ v < 2 ^ 64 - 1 → UINT64_incr v = v + 1.
Proof. intros H. unfold UINT64_incr. apply Z.mod_small. lia. Qed.

Lemma StronglySorted_snoc (l : list Z) (x : Z) :
  StronglySorted Z.lt l → Forall (λ y, y < x) l → StronglySorted Z.lt (l ++ [x]).
Proof.
  induction 1 as [|y l Hs IH Hy]; intros Hall; cbn.
  - repeat constructor.
  - apply Forall_cons in Hall as [Hyx Hall]. constructor; [by apply IH|].
    apply Forall_app. split; [done|]. by constructor.
Qed.

(** Submitting a frame keeps the fence invariant as long as the
    64-bit counter does not wrap, and queues the new marker. *)
Lemma Draw_submit_fence calls a a' :
  Draw_submit calls a = Some a' →
  fence_inv (base a) (mFrameResources a) →
  mCurrentFence (base a) < 2 ^ 64 - 1 →
  fence_inv (base a') (mFrameResources a') ∧
  mCurrentFence (base a') = mCurrentFence (base a) + 1 ∧
  mFence (base a') = mFence (base a) ∧
  mCommandQueue (base a') = mCommandQueue (base a) ++ [mCurrentFence (base a) + 1] ∧
  current_marker a' = mCurrentFence (base a) + 1.
Proof.
  intros H (H0 & Hs & Hb & Hm) Hsmall.
  apply Draw_submit_inv in H as (slot & fr & Hcur & Hfr & E). cbn zeta in E.
  pose proof Hb as Hb'. apply Forall_cons in Hb' as [Hc Hq].
  rewrite UINT64_incr_small in E by lia. subst a'.
  unfold fence_inv, current_marker, current. st_cbn.
  split; [|split; [done|split; [done|split; [done|]]]].
  - split; [done|]. split; [|split].
    + change (mFence (base a) :: mCommandQueue (base a) ++ [mCurrentFence (base a) + 1])
        with ((mFence (base a) :: mCommandQueue (base a)) ++ [mCurrentFence (base a) + 1]).
      apply StronglySorted_snoc; [done|].
      eapply Forall_impl; [exact Hb|]. cbn. lia.
    + constructor; [lia|]. apply Forall_app. split.
      * eapply Forall_impl; [exact Hq|]. cbn. lia.
      * constructor; [lia | constructor].
    + apply Forall_insert.
      * eapply Forall_impl; [exact Hm|]. cbn. intros fr0 [?|?]; [by left|].
        right. apply elem_of_app. by left.
      * st_cbn. right. apply elem_of_app. right. by constructor.
  - rewrite Hcur. cbn [mbind option_bind].
    rewrite list_lookup_insert_eq by (by eapply lookup_lt_Some). done.
Qed.
End Retire.

(** ** [Draw] and a frame of the castle *)

Section CastleFrame.
Context {F C W : Type}.
Context `{!Float32 F, !DirectXMath F, !CameraOps F C, !WavesOps F W}.
Implicit Types (a : App F (list (option (Vertex F))) (Castle.Ext F C W))
               (i : FrameInput F).

Lemma Castle_Draw_inv i a a' :
  Castle.Draw i a = Some a' → ∃ calls, Draw_submit calls a = Some a'.
Proof.
  unfold Castle.Draw. intros H.
  destruct (mCurrFrameResource a); [|done]. cbn in H.
  repeat (match type of H with
          | (DrawRenderItems ?x ?l ≫= _) = _ =>
              destruct (DrawRenderItems x l); [cbn in H | done]
          end).
  by eexists.
Qed.

Lemma Castle_Draw_total i a slot :
  mCurrFrameResource a = Some slot → is_Some (mFrameResources a !! slot) →
  (∀ l, drawable a (Castle.mRitemLayer (ext a) l)) →
  is_Some (Castle.Draw i a).
Proof.
  intros Hcur [fr Hfr] Hd. unfold Castle.Draw. rewrite Hcur. cbn.
  destruct (DrawRenderItems_total a _ (Hd Castle.Opaque)) as [c1 ->]. cbn.
  destruct (DrawRenderItems_total a _ (Hd Castle.AlphaTested)) as [c2 ->]. cbn.
  destruct (DrawRenderItems_total a _ (Hd Castle.AlphaTestedTreeSprites)) as [c3 ->]. cbn.
  destruct (DrawRenderItems_total a _ (Hd Castle.Transparent)) as [c4 ->]. cbn.
  unfold Draw_submit. rewrite Hcur. cbn. rewrite Hfr. cbn. by eexists.
Qed.

(** A step that only retires the current slot keeps what the castle
    needs besides the fence. *)
Lemma Castle_Draw_wf i a a' :
  Castle.wf a → mCurrentFence (base a) < 2 ^ 64 - 1 →
  Castle.Draw i a = Some a' → Castle.wf a'.
Proof.
  intros (Hring & Hidx & Hfence & Hw & Hri & Hwv & Hdraw) Hsmall H.
  apply Castle_Draw_inv in H as [calls H].
  destruct (Draw_submit_fence _ _ _ H Hfence Hsmall) as (Hf' & _).
  apply Draw_submit_inv in H as (slot & fr & Hcur & Hfr & E). cbn zeta in E.
  unfold Castle.wf. split; [|split; [|split; [|split; [|split; [|split]]]]].
  - unfold ring_ok. unwind. rewrite length_insert. apply Hring.
  - eapply indices_in_range_preserved; [exact Hidx | by unwind | |].
    + unwind. by eauto.
    + unwind. eapply Forall2_insert_same; [done | exact Hfr | done].
  - done.
  - by unwind.
  - by unwind.
  - unwind. apply Forall_insert; [done|]. st_cbn.
    rewrite Forall_forall in Hwv. apply Hwv. by eapply list_elem_of_lookup_2.
  - intros l. unfold drawable. unwind. apply Hdraw.
Qed.
End CastleFrame.

Section CastleFrameWf.
Context {F C W : Type}.
Context `{!Float32 F, !DirectXMath F, !CameraOps F C, !WavesOps F W}.
Context `{!WavesLawful F W}.
Implicit Types (a : App F (list (option (Vertex F))) (Castle.Ext F C W))
               (i : FrameInput F).

Lemma Castle_frame_inv i a a' :
  Castle.frame i a = Some a' →
  ∃ a1, Castle.Update i a = Some a1 ∧ Castle.Draw i a1 = Some a'.
Proof.
  unfold Castle.frame. intros H.
  destruct (Castle.Update i a) as [a1|]; [|done]. by exists a1.
Qed.

Lemma Castle_Update_counter i a a' :
  Castle.Update i a = Some a' →
  mCurrentFence (base a') = mCurrentFence (base a).
Proof.
  intros H. apply Castle_Update_inv in H
    as (fr & water & p & ri & blocked & g' & _ & _ & -> & _). done.
Qed.

(** A frame of the castle returns on a well-formed state and leaves a
    well-formed state, while the fence counter does not wrap. *)
Lemma Castle_frame_total i a :
  Castle.wf a → mCurrentFence (base a) < 2 ^ 64 - 1 →
  ∃ a', Castle.frame i a = Some a' ∧ Castle.wf a' ∧
        mCurrentFence (base a') = mCurrentFence (base a) + 1.
Proof.
  intros Hwf Hsmall.
  destruct (Castle_Update_total i a Hwf) as [a1 H1].
  pose proof (Castle_Update_wf i a a1 Hwf H1) as Hwf1.
  pose proof (Castle_Update_counter i a a1 H1) as Hc1.
  pose proof H1 as Hinv. apply Castle_Update_inv in Hinv
    as (fr & water & p & ri & blocked & g' & (_ & Hfr & _) & _ & _ & Efrs & Ecur & _).
  cbn zeta in *.
  destruct (Castle_Draw_total i a1 _ Ecur) as [a' H2].
  { rewrite Efrs. apply lookup_lt_is_Some. rewrite length_insert.
    by eapply lookup_lt_Some. }
  { apply Hwf1. }
  exists a'. unfold Castle.frame. rewrite H1. cbn. split; [done|].
  split; [eapply Castle_Draw_wf; eauto; lia|].
  apply Castle_Draw_inv in H2 as [calls H2].
  destruct Hwf1 as (_ & _ & Hf1 & _).
  destruct (Draw_submit_fence _ _ _ H2 Hf1) as (_ & -> & _); lia.
Qed.
End CastleFrameWf.

(** ** [Update], [Draw] and a whole frame of the columns demo *)

Section LitColumnsFrame.
Context {F : Type}.
Context `{!Float32 F, !DirectXMath F}.
Implicit Types (a : App F unit LitColumns.Ext) (i : FrameInput F).

Lemma LitColumns_UpdateMainPassCB_inv i a a' :
  LitColumns.UpdateMainPassCB i a = Some a' →
  ∃ slot fr, mCurrFrameResource a = Some slot ∧ mFrameResources a !! slot = Some fr ∧
    (0 < length (PassCB fr))%nat ∧
    let pc := LitColumns.mainPassConstants i a in
    a' = emit (E_CopyPass slot 0 pc)
           (set_mFrameResources
              (<[slot := set_PassCB (<[0%nat := Some pc]> (PassCB fr)) fr]>
                 (mFrameResources a))
              (set_mMainPassCB pc a)).
Proof.
  unfold LitColumns.UpdateMainPassCB. cbn zeta. st_cbn. intros H.
  destruct (mCurrFrameResource a) as [slot|]; [|done]. cbn [mbind option_bind] in H.
  destruct (mFrameResources a !! slot) as [fr|] eqn:Hfr; [|done].
  cbn [mbind option_bind] in H.
  destruct (CopyData _ _ _) as [cb|] eqn:Hcb; [|done]. cbn [mbind option_bind] in H.
  apply CopyData_Some in Hcb as [Hlen ->].
  injection H as <-. by exists slot, fr.
Qed.

Lemma LitColumns_UpdateMainPassCB_total i a slot fr :
  mCurrFrameResource a = Some slot → mFrameResources a !! slot = Some fr →
  (0 < length (PassCB fr))%nat →
  is_Some (LitColumns.UpdateMainPassCB i a).
Proof.
  intros Hs Hfr Hlen. unfold LitColumns.UpdateMainPassCB. cbn zeta. st_cbn.
  rewrite Hs. cbn [mbind option_bind]. rewrite Hfr. cbn [mbind option_bind].
  unfold CopyData. rewrite decide_True by done. by eexists.
Qed.

Lemma LitColumns_camera_inv i a :
  ∃ (e : XMFLOAT3 F) (v : XMFLOAT4X4 F),
    LitColumns.UpdateCamera i (LitColumns.OnKeyboardInput i a) = set_camera e v a.
Proof. by eexists _, _. Qed.

Lemma LitColumns_mainPassConstants_ext i a a' :
  mView a = mView a' → mProj a = mProj a' → mEyePos a = mEyePos a' →
  mClientWidth (base a) = mClientWidth (base a') →
  mClientHeight (base a) = mClientHeight (base a') →
  LitColumns.mainPassConstants i a = LitColumns.mainPassConstants i a'.
Proof. unfold LitColumns.mainPassConstants. by intros -> -> -> -> ->. Qed.

(** What [Update] returns, field by field. *)
Lemma LitColumns_Update_inv i a a' :
  LitColumns.Update i a = Some a' →
  let a0 := LitColumns.UpdateCamera i (LitColumns.OnKeyboardInput i a) in
  let idx := Z.rem (mCurrFrameResourceIndex a + 1) gNumFrameResources in
  let slot := Z.to_nat idx in
  let g := gpu_run (gpu_progress i) (mFence (base a)) (mCommandQueue (base a)) in
  let pc := LitColumns.mainPassConstants i a0 in
  ∃ fr (blocked : bool) (g' : Z * list Z),
    (0 ≤ idx ∧ mFrameResources a !! slot = Some fr ∧
     (0 < length (PassCB fr))%nat) ∧
    ((blocked = true ↔ Fence fr ≠ 0 ∧ g.1 < Fence fr) ∧
     (if blocked then WaitForFence (Fence fr) g.1 g.2 = Some g' else g' = g)) ∧
    base a' = set_gpu g' (base a) ∧
    mFrameResources a' =
      <[slot := MkFrameResource
                  (<[0%nat := Some pc]> (PassCB fr))
                  (materialWrites (map_to_list (mMaterials a)) (MaterialCB fr))
                  (objectWrites (mAllRitems a) (ObjectCB fr))
                  (WavesVB fr)
                  (Fence fr)]> (mFrameResources a) ∧
    mCurrFrameResource a' = Some slot ∧
    mCurrFrameResourceIndex a' = idx ∧
    mGeometries a' = mGeometries a ∧
    mMaterials a' = tickMat <$> mMaterials a ∧
    mAllRitems a' = tick <$> mAllRitems a ∧
    mMainPassCB a' = pc ∧
    ext a' = ext a ∧
    (mView a' = mView a0 ∧ mProj a' = mProj a ∧ mEyePos a' = mEyePos a0) ∧
    mLog a' = E_CopyPass slot 0 pc ::
              reverse (materialEvents slot (map_to_list (mMaterials a))) ++
              reverse (objectEvents slot (mAllRitems a)) ++
              (if blocked then [E_WaitForSingleObject (Fence fr)] else []) ++ mLog a.
Proof.
  unfold LitColumns.Update, LitColumns.AnimateMaterials. intros H. cbn zeta in *.
  destruct (LitColumns_camera_inv i a) as (e & v & E0).
  remember (LitColumns.UpdateCamera i (LitColumns.OnKeyboardInput i a)) as a0 eqn:Ea0.
  clear Ea0.
  apply bind_Some in H as (a1 & H1 & H).
  cbn [mbind option_bind] in H.
  apply bind_Some in H as (a3 & H3 & H).
  apply bind_Some in H as (a4 & H4 & H5).
  apply CycleFrameResources_inv in H1
    as (fr & blocked & g' & Hidx & Hfr & Hb & Hg' & E1).
  cbn zeta in Hidx, Hfr, Hb, Hg', E1.
  apply UpdateObjectCBs_inv in H3 as (s3 & fr3 & Hs3 & Hfr3 & E3).
  apply UpdateMaterialCBs_inv in H4 as (s4 & fr4 & Hs4 & Hfr4 & E4).
  apply LitColumns_UpdateMainPassCB_inv in H5 as (s5 & fr5 & Hs5 & Hfr5 & Hlen5 & E5).
  cbn zeta in E5.
  unwind_in Hs3. injection Hs3 as <-.
  unwind_in Hs4. injection Hs4 as <-.
  unwind_in Hs5. injection Hs5 as <-.
  unwind_in Hidx. unwind_in Hfr. unwind_in Hb. unwind_in Hg'.
  assert (Hlt : (Z.to_nat ((mCurrFrameResourceIndex a + 1) `rem` gNumFrameResources)
                 < length (mFrameResources a))%nat) by (by eapply lookup_lt_Some).
  unwind_in Hfr3. rewrite Hfr in Hfr3. injection Hfr3 as <-.
  unwind_in Hfr4. rewrite list_lookup_insert_eq in Hfr4 by done. injection Hfr4 as <-.
  unwind_in Hfr5.
  rewrite list_lookup_insert_eq in Hfr5 by (by rewrite ?length_insert).
  injection Hfr5 as <-. st_cbn in Hlen5.
  exists fr, blocked, g'. cbn zeta.
  split; [done|]. split; [done|].
  assert (Epc : LitColumns.mainPassConstants i a4 = LitColumns.mainPassConstants i a0).
  { apply LitColumns_mainPassConstants_ext; by unwind. }
  rewrite Epc in E5. clear Epc.
  repeat split.
  - by unwind.
  - unwind. rewrite !list_insert_insert_eq. by destruct fr.
  - by unwind.
  - by unwind.
  - by unwind.
  - by unwind.
  - by unwind.
  - by unwind.
  - by unwind.
  - by unwind.
  - by unwind.
  - by unwind.
  - by unwind.
Qed.

Lemma LitColumns_Update_total i a :
  LitColumns.wf a → is_Some (LitColumns.Update i a).
Proof.
  intros (Hring & Hidx & Hfence & Hdraw).
  unfold LitColumns.Update, LitColumns.AnimateMaterials. cbn zeta.
  destruct (LitColumns_camera_inv i a) as (e & v & E0).
  remember (LitColumns.UpdateCamera i (LitColumns.OnKeyboardInput i a)) as a0 eqn:Ea0.
  clear Ea0.
  destruct (CycleFrameResources_total (gpu_progress i) a0) as [a1 H1].
  { rewrite E0. exact Hring. }
  { rewrite E0. exact Hfence. }
  eapply bind_is_Some_intro; [exact H1|]. cbn [mbind option_bind].
  apply CycleFrameResources_inv in H1
    as (fr & blocked & g' & Hi & Hfr & _ & _ & E1).
  cbn zeta in Hi, Hfr, E1. unwind_in Hfr. unwind_in Hi.
  rewrite E0 in E1. st_cbn in E1. clear E0 a0.
  set (slot := Z.to_nat ((mCurrFrameResourceIndex a + 1) `rem` gNumFrameResources)) in *.
  pose proof (list_elem_of_lookup_2 _ _ _ Hfr) as Hin.
  pose proof (lookup_lt_Some _ _ _ Hfr) as Hlt.
  unfold indices_in_range in Hidx.
  rewrite Forall_forall in Hidx. destruct (Hidx fr Hin) as (Hpass & Hobj & Hmat).
  destruct (UpdateObjectCBs_total a1 slot fr) as [a3 H3];
    [by unwind | by unwind | by unwind |].
  eapply bind_is_Some_intro; [exact H3|].
  apply UpdateObjectCBs_inv in H3 as (s3 & fr3 & Hs3 & Hfr3 & E3).
  unwind_in Hs3. injection Hs3 as <-.
  unwind_in Hfr3. rewrite Hfr in Hfr3. injection Hfr3 as <-.
  destruct (UpdateMaterialCBs_total a3 slot
              (set_ObjectCB (objectWrites (mAllRitems a) (ObjectCB fr)) fr))
    as [a4 H4].
  { by unwind. }
  { unwind. by apply list_lookup_insert_eq. }
  { by unwind. }
  eapply bind_is_Some_intro; [exact H4|].
  apply UpdateMaterialCBs_inv in H4 as (s4 & fr4 & Hs4 & Hfr4 & E4).
  unwind_in Hs4. injection Hs4 as <-.
  unwind_in Hfr4. rewrite list_lookup_insert_eq in Hfr4 by done. injection Hfr4 as <-.
  eapply (LitColumns_UpdateMainPassCB_total i a4 slot).
  - by unwind.
  - unwind. apply list_lookup_insert_eq. by rewrite ?length_insert.
  - done.
Qed.

Lemma LitColumns_Update_wf i a a' :
  LitColumns.wf a → LitColumns.Update i a = Some a' → LitColumns.wf a'.
Proof.
  intros (Hring & Hidx & Hfence & Hdraw) H.
  apply LitColumns_Update_inv in H
    as (fr & blocked & g' & (Hi & Hfr & Hpass) & (Hb & Hg') &
        Ebase & Efrs & Ecur & Eidx & Egeo & Emat & Eitems & Epc & Eext & _ & Elog).
  cbn zeta in *.
  destruct (ring_next a Hring) as [Hnext _].
  assert (HFence : Fence <$> mFrameResources a' = Fence <$> mFrameResources a).
  { rewrite Efrs. by eapply column_insert. }
  unfold LitColumns.wf. split; [|split; [|split]].
  - split; [rewrite Efrs, length_insert; apply Hring | by rewrite Eidx].
  - eapply indices_in_range_preserved; [exact Hidx | | |].
    + rewrite Eitems. apply tick_indices.
    + intros k m'. rewrite Emat, lookup_fmap. intros Hk.
      destruct (mMaterials a !! k) as [m|] eqn:Hm; [|done].
      cbn in Hk. injection Hk as <-. exists m. split; [done|]. apply tickMat_MatCBIndex.
    + rewrite Efrs. eapply Forall2_insert_same; [done | exact Hfr |]. cbn.
      by rewrite length_insert, materialWrites_length, objectWrites_length.
  - rewrite Ebase. eapply fence_inv_frs; [exact HFence|].
    destruct (cycle_timeline (gpu_progress i) (base a) (Fence fr) blocked g' Hg')
      as [k Hk].
    by destruct (fence_inv_gpu _ _ _ _ Hfence Hk).
  - rewrite Eext.
    eapply drawable_preserved; [exact Eitems | | | apply Hdraw].
    + intros k Hk. by rewrite Egeo.
    + intros k Hk. rewrite Emat, lookup_fmap. by apply fmap_is_Some.
Qed.

Lemma LitColumns_Draw_inv i a a' :
  LitColumns.Draw i a = Some a' → ∃ calls, Draw_submit calls a = Some a'.
Proof.
  unfold LitColumns.Draw. intros H.
  destruct (mCurrFrameResource a); [|done]. cbn [mbind option_bind] in H.
  destruct (DrawRenderItems a _); [|done]. by eexists.
Qed.

Lemma LitColumns_Draw_total i a slot :
  mCurrFrameResource a = Some slot → is_Some (mFrameResources a !! slot) →
  drawable a (LitColumns.mOpaqueRitems (ext a)) →
  is_Some (LitColumns.Draw i a).
Proof.
  intros Hcur [fr Hfr] Hd. unfold LitColumns.Draw. rewrite Hcur.
  cbn [mbind option_bind].
  destruct (DrawRenderItems_total a _ Hd) as [c1 ->]. cbn [mbind option_bind].
  unfold Draw_submit. rewrite Hcur. cbn [mbind option_bind]. rewrite Hfr. by eexists.
Qed.

Lemma LitColumns_Draw_wf i a a' :
  LitColumns.wf a → mCurrentFence (base a) < 2 ^ 64 - 1 →
  LitColumns.Draw i a = Some a' → LitColumns.wf a'.
Proof.
  intros (Hring & Hidx & Hfence & Hdraw) Hsmall H.
  apply LitColumns_Draw_inv in H as [calls H].
  destruct (Draw_submit_fence _ _ _ H Hfence Hsmall) as (Hf' & _).
  apply Draw_submit_inv in H as (slot & fr & Hcur & Hfr & E). cbn zeta in E.
  unfold LitColumns.wf. split; [|split; [|split]].
  - unfold ring_ok. unwind. rewrite length_insert. apply Hring.
  - eapply indices_in_range_preserved; [exact Hidx | by unwind | |].
    + unwind. by eauto.
    + unwind. eapply Forall2_insert_same; [done | exact Hfr | done].
  - done.
  - unfold drawable. unwind. apply Hdraw.
Qed.

Lemma LitColumns_frame_inv i a a' :
  LitColumns.frame i a = Some a' →
  ∃ a1, LitColumns.Update i a = Some a1 ∧ LitColumns.Draw i a1 = Some a'.
Proof.
  unfold LitColumns.frame. intros H.
  destruct (LitColumns.Update i a) as [a1|]; [|done]. by exists a1.
Qed.

Lemma LitColumns_frame_total i a :
  LitColumns.wf a → mCurrentFence (base a) < 2 ^ 64 - 1 →
  ∃ a', LitColumns.frame i a = Some a' ∧ LitColumns.wf a' ∧
        mCurrentFence (base a') = mCurrentFence (base a) + 1.
Proof.
  intros Hwf Hsmall.
  destruct (LitColumns_Update_total i a Hwf) as [a1 H1].
  pose proof (LitColumns_Update_wf i a a1 Hwf H1) as Hwf1.
  pose proof H1 as Hinv. apply LitColumns_Update_inv in Hinv
    as (fr & blocked & g' & (_ & Hfr & _) & _ & Ebase & Efrs & Ecur & _).
  cbn zeta in *.
  assert (Hc1 : mCurrentFence (base a1) = mCurrentFence (base a)) by (by rewrite Ebase).
  destruct (LitColumns_Draw_total i a1 _ Ecur) as [a' H2].
  { rewrite Efrs. apply lookup_lt_is_Some. rewrite length_insert.
    by eapply lookup_lt_Some. }
  { apply Hwf1. }
  exists a'. unfold LitColumns.frame. rewrite H1. cbn [mbind option_bind].
  split; [done|].
  split; [eapply LitColumns_Draw_wf; eauto; lia|].
  apply LitColumns_Draw_inv in H2 as [calls H2].
  destruct Hwf1 as (_ & _ & Hf1 & _).
  destruct (Draw_submit_fence _ _ _ H2 Hf1) as (_ & -> & _); lia.
Qed.
End LitColumnsFrame.

(** ** Effects by kind *)

Section Logs.
Context {F : Type}.
Implicit Types (evs : list (Effect F)).

Lemma waits_app evs1 evs2 : waits (evs1 ++ evs2) = waits evs1 ++ waits evs2.
Proof. apply filter_app. Qed.

Lemma waits_none evs : Forall (λ e, is_wait e = false) evs → waits evs = [].
Proof.
  induction 1 as [|e evs He _ IH]; [done|].
  unfold waits. rewrite filter_cons.
  destruct (decide _) as [H|H]; [cbn in H; by rewrite He in H | exact IH].
Qed.

Lemma waits_objectEvents slot (items : list (RenderItem F)) :
  waits (reverse (objectEvents slot items)) = [].
Proof.
  apply waits_none, Forall_forall. intros ev Hev. rewrite elem_of_reverse in Hev.
  apply objectEvents_elem in Hev as (e & _ & _ & ->). done.
Qed.

Lemma materialEvents_elem slot (entries : list (string * Material F)) ev :
  ev ∈ materialEvents slot entries →
  ∃ m, ev = E_CopyMaterial slot (MatCBIndex m) (matConstants m).
Proof.
  unfold materialEvents. rewrite list_elem_of_omap.
  intros (e & _ & H). case_decide; [|done]. injection H as <-. eauto.
Qed.

Lemma waits_materialEvents slot (entries : list (string * Material F)) :
  waits (reverse (materialEvents slot entries)) = [].
Proof.
  apply waits_none, Forall_forall. intros ev Hev. rewrite elem_of_reverse in Hev.
  apply materialEvents_elem in Hev as (m & ->). done.
Qed.

Lemma object_writes_at_app n evs1 evs2 :
  object_writes_at n (evs1 ++ evs2) = object_writes_at n evs1 ++ object_writes_at n evs2.
Proof. apply filter_app. Qed.

Lemma object_writes_at_none n evs :
  Forall (λ e, is_object_write n e = false) evs → object_writes_at n evs = [].
Proof.
  induction 1 as [|e evs He _ IH]; [done|].
  unfold object_writes_at. rewrite filter_cons.
  destruct (decide _) as [H|H]; [cbn in H; by rewrite He in H | exact IH].
Qed.

Lemma object_writes_at_materialEvents n slot (entries : list (string * Material F)) :
  object_writes_at n (reverse (materialEvents slot entries)) = [].
Proof.
  apply object_writes_at_none, Forall_forall. intros ev Hev. rewrite elem_of_reverse in Hev.
  apply materialEvents_elem in Hev as (m & ->). done.
Qed.
End Logs.

(** ** C1: when the ring advance blocks *)

Section Advance.
Context {F : Type}.

Lemma cycle_outcome progress (c : Z) (q : list Z) (marker : Z)
    (blocked : bool) (g' : Z * list Z) :
  let g := gpu_run progress c q in
  (blocked = true ↔ marker ≠ 0 ∧ g.1 < marker) →
  (if blocked then WaitForFence marker g.1 g.2 = Some g' else g' = g) →
  (if blocked then [E_WaitForSingleObject marker] else [])
    = (if bool_decide (marker ≠ 0 ∧ g.1 < marker)
       then [@E_WaitForSingleObject F marker] else []) ∧
  (marker ≠ 0 → marker ≤ g'.1).
Proof.
  cbn zeta. intros Hb Hg'. destruct blocked.
  - rewrite bool_decide_eq_true_2 by (by apply Hb). split; [done|].
    intros _. by apply WaitForFence_inv in Hg' as [? _].
  - rewrite bool_decide_eq_false_2 by (intros Hc; by apply Hb in Hc).
    split; [done|]. subst g'. intros Hm.
    destruct (decide (marker ≤ (gpu_run progress c q).1)) as [|Hn]; [done|].
    exfalso. assert (false = true); [|done]. apply Hb. lia.
Qed.

Lemma waits_waveEvents {C W : Type} `{!Float32 F, !WavesOps F W}
    slot (w : W) (idx : list nat) :
  waits (reverse (Castle.waveEvents slot w idx)) = [].
Proof.
  apply waits_none, Forall_forall. intros ev Hev. rewrite elem_of_reverse in Hev.
  unfold Castle.waveEvents in Hev. apply list_elem_of_fmap in Hev as (k & -> & _). done.
Qed.
End Advance.

Section C1.
Context {F C W : Type}.
Context `{!Float32 F, !DirectXMath F, !CameraOps F C, !WavesOps F W}.
Context `{!WavesLawful F W}.

End C1.

(** ** One frame, as far as the object constants are concerned *)

Section ObjectPass.
Context {F C W : Type}.
Context `{!Float32 F, !DirectXMath F, !CameraOps F C, !WavesOps F W}.

Lemma object_writes_at_waveEvents n slot (w : W) (idx : list nat) :
  object_writes_at n (reverse (Castle.waveEvents (F:=F) slot w idx)) = [].
Proof.
  apply object_writes_at_none, Forall_forall. intros ev Hev.
  rewrite elem_of_reverse in Hev.
  unfold Castle.waveEvents in Hev. apply list_elem_of_fmap in Hev as (k & -> & _). done.
Qed.

Lemma object_writes_at_wait n (blocked : bool) (v : Z) :
  object_writes_at n (if blocked then [E_WaitForSingleObject (F:=F) v] else []) = [].
Proof. by destruct blocked. Qed.

(** The part of [object_pass] that [Draw] contributes. *)
Lemma Draw_submit_object_pass {V X : Type} calls (a1 a' : App F V X) :
  Draw_submit calls a1 = Some a' →
  mAllRitems a' = mAllRitems a1 ∧
  mCurrFrameResourceIndex a' = mCurrFrameResourceIndex a1 ∧
  mCurrFrameResource a' = mCurrFrameResource a1 ∧
  ObjectCB <$> mFrameResources a' = ObjectCB <$> mFrameResources a1 ∧
  ∃ s v, mLog a' = E_Signal v :: E_ExecuteCommandLists s calls :: mLog a1.
Proof.
  intros H. apply Draw_submit_inv in H as (slot & fr & Hcur & Hfr & E).
  cbn zeta in E. repeat split; try (by unwind).
  - unwind. by eapply column_insert.
  - eexists _, _. by unwind.
Qed.

Lemma Castle_frame_object_pass (i : FrameInput F)
    (a a' : App F (list (option (Vertex F))) (Castle.Ext F C W)) :
  Castle.frame i a = Some a' → object_pass a a'.
Proof.
  intros H. apply Castle_frame_inv in H as (a1 & H1 & H2).
  apply Castle_Draw_inv in H2 as [calls H2].
  apply Draw_submit_object_pass in H2 as (Ei & Ex & Ec & Eo & s & v & El).
  apply Castle_Update_inv in H1
    as (fr & water & p & ri & blocked & g' & (_ & Hfr & _) & _ &
        _ & Efrs & Ecur & Eidx & _ & _ & Eitems & _ & _ & Elog).
  cbn zeta in *. unfold object_pass. cbn zeta. fold (next_slot a) in *.
  split; [by rewrite Ei|]. split; [by rewrite Ex|]. split; [by rewrite Ec|].
  split.
  - exists (ObjectCB fr). split; [by rewrite list_lookup_fmap, Hfr|].
    by rewrite Eo, Efrs, list_fmap_insert.
  - eexists. split.
    + unfold new_events. rewrite El, Elog.
      rewrite !app_comm_cons, !(assoc_L (++)). reflexivity.
    + intros n.
      change (E_Signal v :: E_ExecuteCommandLists s calls :: ?l)
        with ([E_Signal (F:=F) v; E_ExecuteCommandLists s calls] ++ l).
      change (E_CopyPass ?s ?k ?pc :: ?l) with ([E_CopyPass (F:=F) s k pc] ++ l).
      rewrite !object_writes_at_app, object_writes_at_waveEvents,
        object_writes_at_materialEvents, object_writes_at_wait.
      cbn [app]. by rewrite app_nil_r.
Qed.

Lemma LitColumns_frame_object_pass (i : FrameInput F)
    (a a' : App F unit LitColumns.Ext) :
  LitColumns.frame i a = Some a' → object_pass a a'.
Proof.
  intros H. apply LitColumns_frame_inv in H as (a1 & H1 & H2).
  apply LitColumns_Draw_inv in H2 as [calls H2].
  apply Draw_submit_object_pass in H2 as (Ei & Ex & Ec & Eo & s & v & El).
  apply LitColumns_Update_inv in H1
    as (fr & blocked & g' & (_ & Hfr & _) & _ &
        _ & Efrs & Ecur & Eidx & _ & _ & Eitems & _ & _ & _ & Elog).
  cbn zeta in *. unfold object_pass. cbn zeta. fold (next_slot a) in *.
  split; [by rewrite Ei|]. split; [by rewrite Ex|]. split; [by rewrite Ec|].
  split.
  - exists (ObjectCB fr). split; [by rewrite list_lookup_fmap, Hfr|].
    by rewrite Eo, Efrs, list_fmap_insert.
  - eexists. split.
    + unfold new_events. rewrite El, Elog.
      rewrite !app_comm_cons, !(assoc_L (++)). reflexivity.
    + intros n.
      change (E_Signal v :: E_ExecuteCommandLists s calls :: E_CopyPass ?s' ?k ?pc :: ?l)
        with ([E_Signal (F:=F) v; E_ExecuteCommandLists s calls; E_CopyPass s' k pc] ++ l).
      rewrite !object_writes_at_app, object_writes_at_materialEvents,
        object_writes_at_wait.
      cbn [app]. by rewrite app_nil_r.
Qed.
End ObjectPass.

(** ** Consequences of an object pass *)

Section ObjectPassFacts.
Context {F V X : Type}.
Implicit Types (a : App F V X) (e : RenderItem F) (items : list (RenderItem F)).

Lemma objectRecord_column a s n :
  objectRecord a s n = (ObjectCB <$> mFrameResources a) !! s ≫= λ cb, mjoin (cb !! n).
Proof.
  unfold objectRecord. rewrite list_lookup_fmap.
  by destruct (mFrameResources a !! s).
Qed.

Lemma object_writes_at_reverse n (evs : list (Effect F)) :
  object_writes_at n (reverse evs) = reverse (object_writes_at n evs).
Proof. apply filter_reverse. Qed.

(** With distinct indices, the dirty items other than the one at
    position [k] write elsewhere. *)
Lemma other_items_elsewhere items k e e' :
  NoDup (ObjCBIndex <$> items) → items !! k = Some e →
  e' ∈ items → ObjCBIndex e' = ObjCBIndex e → e' = e.
Proof.
  intros Hnd Hk [k' Hk']%list_elem_of_lookup Heq.
  assert (k' = k); [|by simplify_eq].
  eapply NoDup_lookup; [exact Hnd| |].
  - by rewrite list_lookup_fmap, Hk'.
  - by rewrite list_lookup_fmap, Hk, Heq.
Qed.

Lemma objectEvents_clean slot items n :
  (∀ e, e ∈ items → 0 < NumFramesDirty e → ObjCBIndex e ≠ n) →
  object_writes_at n (objectEvents slot items) = [].
Proof.
  intros H. apply object_writes_at_none, Forall_forall. intros ev Hev.
  apply objectEvents_elem in Hev as (e & He & Hd & ->). cbn.
  apply bool_decide_eq_false_2. by apply H.
Qed.

Lemma objectEvents_once slot items k e :
  NoDup (ObjCBIndex <$> items) → items !! k = Some e → 0 < NumFramesDirty e →
  object_writes_at (ObjCBIndex e) (objectEvents slot items)
  = [E_CopyObject slot (ObjCBIndex e) (objConstants e)].
Proof.
  revert k. induction items as [|e0 items IH]; intros k Hnd Hk Hd; [done|].
  rewrite objectEvents_cons, object_writes_at_app.
  cbn in Hnd. apply NoDup_cons in Hnd as [Hfresh Hnd].
  destruct k as [|k]; cbn in Hk.
  - injection Hk as ->. rewrite decide_True by done.
    rewrite objectEvents_clean.
    + unfold object_writes_at. rewrite filter_cons, decide_True; [done|].
      cbn [is_object_write]. by apply bool_decide_pack.
    + intros e' He' _ Heq. apply Hfresh. apply list_elem_of_fmap. by exists e'.
  - rewrite (IH k) by done.
    assert (Hne : ObjCBIndex e0 ≠ ObjCBIndex e).
    { intros Heq. apply Hfresh. rewrite Heq. apply list_elem_of_fmap. exists e.
      split; [done|]. by eapply list_elem_of_lookup_2. }
    case_decide; [|done].
    unfold object_writes_at at 1. rewrite filter_cons, decide_False; [done|].
    cbn [is_object_write]. intros Hb. by apply bool_decide_unpack in Hb.
Qed.

(** An item that is not dirty is left alone by a frame. *)
Lemma object_pass_untouched a a' k e :
  object_pass a a' →
  NoDup (ObjCBIndex <$> mAllRitems a) →
  mAllRitems a !! k = Some e → NumFramesDirty e ≤ 0 →
  untouched a a' k e.
Proof.
  intros (Ei & _ & _ & (cb & Hcb & Eo) & evs & Hevs & Hw) Hnd Hk Hc.
  assert (Helse : ∀ e', e' ∈ mAllRitems a → 0 < NumFramesDirty e' →
                        ObjCBIndex e' ≠ ObjCBIndex e).
  { intros e' He' Hd Heq.
    rewrite (other_items_elsewhere _ _ _ _ Hnd Hk He' Heq) in Hd. lia. }
  split; [|split].
  - rewrite Ei, list_lookup_fmap, Hk. cbn. unfold tick. by rewrite decide_False by lia.
  - intros s. rewrite !objectRecord_column, Eo.
    destruct (decide (s = next_slot a)) as [->|Hne].
    + rewrite list_lookup_insert_eq by (by eapply lookup_lt_Some).
      rewrite Hcb. cbn. by rewrite objectWrites_other.
    + by rewrite list_lookup_insert_ne.
  - exists evs. split; [done|].
    by rewrite Hw, object_writes_at_reverse, objectEvents_clean.
Qed.

(** The record [UpdateObjectCBs] builds holds the two transposes. *)
Lemma objConstants_payload e : payload_of e (objConstants e).
Proof. split; reflexivity. Qed.

(** A dirty item is refreshed by a frame; the other slots keep their
    record. *)
Lemma object_pass_refreshed a a' k e c :
  object_pass a a' →
  NoDup (ObjCBIndex <$> mAllRitems a) →
  mAllRitems a !! k = Some (set_NumFramesDirty c e) → 0 < c →
  Forall (λ fr, (ObjCBIndex e < length (ObjectCB fr))%nat) (mFrameResources a) →
  refreshed a a' k e c ∧
  (∀ s, s ≠ next_slot a →
        objectRecord a' s (ObjCBIndex e) = objectRecord a s (ObjCBIndex e)).
Proof.
  intros (Ei & _ & Ec & (cb & Hcb & Eo) & evs & Hevs & Hw) Hnd Hk Hc Hb.
  assert (Hlen : (ObjCBIndex e < length cb)%nat).
  { rewrite list_lookup_fmap in Hcb.
    destruct (mFrameResources a !! next_slot a) as [fr|] eqn:Hfr; [|done].
    injection Hcb as <-. rewrite Forall_forall in Hb. apply Hb.
    by eapply list_elem_of_lookup_2. }
  split; [split; [done|split; [|split; [done|]]]|].
  - rewrite Ei, list_lookup_fmap, Hk. cbn. unfold tick. cbn.
    by rewrite decide_True by done.
  - exists (objConstants e). split; [apply objConstants_payload|]. split.
    + rewrite objectRecord_column, Eo.
      rewrite list_lookup_insert_eq by (by eapply lookup_lt_Some). cbn.
      by rewrite (objectWrites_dirty _ _ k (set_NumFramesDirty c e)).
    + exists evs. split; [done|].
      rewrite Hw, object_writes_at_reverse.
      by rewrite (objectEvents_once _ _ k (set_NumFramesDirty c e)).
  - intros s Hne. rewrite !objectRecord_column, Eo.
    by rewrite list_lookup_insert_ne.
Qed.

Lemma object_pass_indices a a' :
  object_pass a a' →
  ObjCBIndex <$> mAllRitems a' = ObjCBIndex <$> mAllRitems a.
Proof. intros (-> & _). apply tick_indices. Qed.

(** The slots selected by three successive ring advances are the
    three slots of the ring. *)
Lemma three_slots a a1 a2 (s : nat) :
  0 ≤ mCurrFrameResourceIndex a < gNumFrameResources →
  object_pass a a1 → object_pass a1 a2 →
  (s < 3)%nat →
  (s = next_slot a ∨ s = next_slot a1 ∨ s = next_slot a2) ∧
  next_slot a ≠ next_slot a1 ∧ next_slot a1 ≠ next_slot a2 ∧
  next_slot a ≠ next_slot a2.
Proof.
  intros Hidx (_ & E1 & _) (_ & E2 & _) Hs.
  unfold next_slot. rewrite E2, E1. unfold gNumFrameResources in *.
  assert (Hcase : mCurrFrameResourceIndex a = 0 ∨ mCurrFrameResourceIndex a = 1 ∨
                  mCurrFrameResourceIndex a = 2) by lia.
  destruct Hcase as [->|[->| ->]]; compute; lia.
Qed.
End ObjectPassFacts.

(** ** Runs of frames *)

Section Runs.
Context {F V X : Type}.
Implicit Types (a : App F V X) (e : RenderItem F).

Variable frame : FrameInput F → App F V X → option (App F V X).
Variable wf : App F V X → Prop.

Hypothesis frame_total : ∀ i a,
  wf a → mCurrentFence (base a) < 2 ^ 64 - 1 →
  ∃ a', frame i a = Some a' ∧ wf a' ∧
        mCurrentFence (base a') = mCurrentFence (base a) + 1.
Hypothesis frame_pass : ∀ i a a', frame i a = Some a' → object_pass a a'.
Hypothesis wf_shape : ∀ a, wf a → ring_ok a ∧ indices_in_range a.

Lemma run_total inputs a :
  wf a → mCurrentFence (base a) + Z.of_nat (length inputs) < 2 ^ 64 →
  ∃ states, run frame inputs a = Some states ∧
            length states = length inputs ∧ Forall wf states.
Proof.
  revert a. induction inputs as [|i inputs IH]; intros a Hwf Hsmall.
  { exists []. by repeat split. }
  cbn [length] in Hsmall.
  destruct (frame_total i a Hwf) as (a' & Hf & Hwf' & Hc); [lia|].
  destruct (IH a' Hwf') as (states & Hr & Hl & Hall); [lia|].
  exists (a' :: states). cbn [run]. rewrite Hf. cbn [mbind option_bind]. rewrite Hr.
  repeat split; [by cbn; rewrite Hl | by constructor].
Qed.

Lemma untouched_trans a a1 a2 k e :
  untouched a a1 k e → untouched a1 a2 k e → untouched a a2 k e.
Proof.
  intros (_ & Hr1 & evs1 & Hl1 & Hw1) (Hk2 & Hr2 & evs2 & Hl2 & Hw2).
  split; [done|]. split.
  - intros s. by rewrite Hr2, Hr1.
  - exists (evs2 ++ evs1). unfold new_events in *. split.
    + by rewrite Hl2, Hl1, (assoc_L (++)).
    + by rewrite object_writes_at_app, Hw1, Hw2.
Qed.

Lemma run_untouched inputs a states k e :
  NoDup (ObjCBIndex <$> mAllRitems a) →
  mAllRitems a !! k = Some e → NumFramesDirty e ≤ 0 →
  run frame inputs a = Some states →
  Forall (λ a', untouched a a' k e) states.
Proof.
  revert a states. induction inputs as [|i inputs IH]; intros a states Hnd Hk Hc Hr.
  { injection Hr as <-. constructor. }
  cbn [run] in Hr.
  destruct (frame i a) as [a'|] eqn:Hf; [|done]. cbn [mbind option_bind] in Hr.
  destruct (run frame inputs a') as [l|] eqn:Hl; [|done].
  injection Hr as <-.
  pose proof (frame_pass i a a' Hf) as Hp.
  pose proof (object_pass_untouched a a' k e Hp Hnd Hk Hc) as Hu.
  constructor; [done|].
  eapply Forall_impl.
  - apply (IH a' l); [by rewrite (object_pass_indices a a') | apply Hu | done | done].
  - cbn. intros a'' Hu'. by eapply untouched_trans.
Qed.

Lemma left_alone_intro inputs a k e :
  wf a → mCurrentFence (base a) + Z.of_nat (length inputs) < 2 ^ 64 →
  NoDup (ObjCBIndex <$> mAllRitems a) →
  mAllRitems a !! k = Some e → NumFramesDirty e = 0 →
  left_alone frame inputs a k e.
Proof.
  intros Hwf Hsmall Hnd Hk Hc.
  destruct (run_total inputs a Hwf Hsmall) as (states & Hr & Hl & _).
  exists states. split; [done|]. split; [done|].
  eapply run_untouched; eauto. lia.
Qed.

Lemma item_index_in_range a k e :
  wf a → mAllRitems a !! k = Some e →
  Forall (λ fr, (ObjCBIndex e < length (ObjectCB fr))%nat) (mFrameResources a).
Proof.
  intros Hwf Hk. destruct (wf_shape a Hwf) as [_ Hi].
  eapply Forall_impl; [exact Hi|]. cbn. intros fr (_ & Ho & _).
  rewrite Forall_forall in Ho. apply Ho. by eapply list_elem_of_lookup_2.
Qed.

Lemma propagation_intro i1 i2 i3 a k e :
  wf a → mCurrentFence (base a) + 3 < 2 ^ 64 →
  NoDup (ObjCBIndex <$> mAllRitems a) →
  mAllRitems a !! k = Some e → NumFramesDirty e = gNumFrameResources →
  propagation frame i1 i2 i3 a k e.
Proof.
  intros Hwf Hsmall Hnd Hk Hc.
  assert (He : e = set_NumFramesDirty gNumFrameResources e).
  { destruct e. cbn in Hc. by rewrite Hc. }
  assert (Hidx : ∀ c, ObjCBIndex (set_NumFramesDirty c e) = ObjCBIndex e) by done.
  destruct (frame_total i1 a Hwf) as (a1 & Hf1 & Hwf1 & Hc1); [lia|].
  destruct (frame_total i2 a1 Hwf1) as (a2 & Hf2 & Hwf2 & Hc2); [lia|].
  destruct (frame_total i3 a2 Hwf2) as (a3 & Hf3 & Hwf3 & Hc3); [lia|].
  pose proof (frame_pass _ _ _ Hf1) as Hp1.
  pose proof (frame_pass _ _ _ Hf2) as Hp2.
  pose proof (frame_pass _ _ _ Hf3) as Hp3.
  pose proof (object_pass_indices _ _ Hp1) as Hi1.
  pose proof (object_pass_indices _ _ Hp2) as Hi2.
  rewrite He in Hk.
  destruct (object_pass_refreshed a a1 k e gNumFrameResources Hp1 Hnd Hk)
    as [R1 O1]; [done | |].
  { rewrite <- (Hidx gNumFrameResources). by eapply item_index_in_range. }
  pose proof R1 as (_ & Hk1 & _).
  destruct (object_pass_refreshed a1 a2 k e (gNumFrameResources - 1) Hp2)
    as [R2 O2]; [by rewrite Hi1 | done | done | |].
  { rewrite <- (Hidx (gNumFrameResources - 1)). by eapply item_index_in_range. }
  pose proof R2 as (_ & Hk2 & _).
  destruct (object_pass_refreshed a2 a3 k e (gNumFrameResources - 1 - 1) Hp3)
    as [R3 O3]; [by rewrite Hi2, Hi1 | done | done | |].
  { rewrite <- (Hidx (gNumFrameResources - 1 - 1)). by eapply item_index_in_range. }
  exists a1, a2, a3.
  split; [done|]. split; [done|]. split; [done|].
  split; [done|]. split; [done|]. split; [exact R3|]. split.
  - destruct R3 as (_ & Hk3 & _). by rewrite Hk3.
  - intros s Hs.
    destruct (wf_shape a Hwf) as [[_ Hring] _].
    destruct (three_slots a a1 a2 s Hring Hp1 Hp2 Hs)
      as ([->|[->| ->]] & Hn1 & Hn2 & Hn3).
    + destruct R1 as (_ & _ & _ & r & Hr & Hrec & _).
      exists r. split; [exact Hr|]. by rewrite O3, O2.
    + destruct R2 as (_ & _ & _ & r & Hr & Hrec & _).
      exists r. split; [exact Hr|]. by rewrite O3.
    + destruct R3 as (_ & _ & _ & r & Hr & Hrec & _).
      exists r. by split.
Qed.
End Runs.

Section C2.
Context {F C W : Type}.
Context `{!Float32 F, !DirectXMath F, !CameraOps F C, !WavesOps F W}.
Context `{!WavesLawful F W}.

(** C2.  In either application, take a render item whose dirty
    counter is the number of frame resources, in a well-formed state
    whose items have distinct constant-buffer indices.  The next
    three frames return; each of them writes the payload of the item,
    the record made of the transpose of its [World] and the transpose
    of its [TexTransform], once, into the object buffer of the frame
    resource current in that frame, at the index of the item, and
    takes the counter down by one, from 3 to 2, to 1 and to 0.  After
    the three frames every frame resource holds, at that index, a
    record with those two transposes. *)
Theorem C2_dirty_item_reaches_every_frame_resource (i1 i2 i3 : FrameInput F)
    (a : App F (list (option (Vertex F))) (Castle.Ext F C W))
    (b : App F unit LitColumns.Ext)
    (ka kb : nat) (ea eb : RenderItem F) :
  Castle.wf a → mCurrentFence (base a) + 3 < 2 ^ 64 →
  NoDup (ObjCBIndex <$> mAllRitems a) →
  mAllRitems a !! ka = Some ea → NumFramesDirty ea = gNumFrameResources →
  LitColumns.wf b → mCurrentFence (base b) + 3 < 2 ^ 64 →
  NoDup (ObjCBIndex <$> mAllRitems b) →
  mAllRitems b !! kb = Some eb → NumFramesDirty eb = gNumFrameResources →
  propagation Castle.frame i1 i2 i3 a ka ea ∧
  propagation LitColumns.frame i1 i2 i3 b kb eb.
Proof.
  intros Hwa Hsa Hna Hka Hca Hwb Hsb Hnb Hkb Hcb. split.
  - apply (propagation_intro Castle.frame Castle.wf);
      [apply Castle_frame_total | apply Castle_frame_object_pass
      | by intros ? (? & ? & _) | done..].
  - apply (propagation_intro LitColumns.frame LitColumns.wf);
      [apply LitColumns_frame_total | apply LitColumns_frame_object_pass
      | by intros ? (? & ? & _) | done..].
Qed.
End C2.

Section C5.
Context {F C W : Type}.
Context `{!Float32 F, !DirectXMath F, !CameraOps F C, !WavesOps F W}.
Context `{!WavesLawful F W}.

(** C5.  In either application, take a render item whose dirty
    counter is 0, in a well-formed state whose items have distinct
    constant-buffer indices.  Over any number of frames (none of
    which mutates a render item) the frames return, and in every
    state they reach the item is as it was, counter included, no
    frame resource has a different record at the index of the item,
    and no write to an object buffer at that index has happened. *)
Theorem C5_clean_item_is_not_rewritten (inputs : list (FrameInput F))
    (a : App F (list (option (Vertex F))) (Castle.Ext F C W))
    (b : App F unit LitColumns.Ext)
    (ka kb : nat) (ea eb : RenderItem F) :
  Castle.wf a → mCurrentFence (base a) + Z.of_nat (length inputs) < 2 ^ 64 →
  NoDup (ObjCBIndex <$> mAllRitems a) →
  mAllRitems a !! ka = Some ea → NumFramesDirty ea = 0 →
  LitColumns.wf b → mCurrentFence (base b) + Z.of_nat (length inputs) < 2 ^ 64 →
  NoDup (ObjCBIndex <$> mAllRitems b) →
  mAllRitems b !! kb = Some eb → NumFramesDirty eb = 0 →
  left_alone Castle.frame inputs a ka ea ∧
  left_alone LitColumns.frame inputs b kb eb.
Proof.
  intros Hwa Hsa Hna Hka Hca Hwb Hsb Hnb Hkb Hcb. split.
  - apply (left_alone_intro Castle.frame Castle.wf);
      [apply Castle_frame_total | apply Castle_frame_object_pass | done..].
  - apply (left_alone_intro LitColumns.frame LitColumns.wf);
      [apply LitColumns_frame_total | apply LitColumns_frame_object_pass | done..].
Qed.
End C5.

(** ** The scenes the builders make *)

Section CastleBuild.
Context {F C W : Type}.
Context `{!Float32 F, !DirectXMath F, !CameraOps F C, !WavesOps F W}.
Implicit Types (a : App F (list (option (Vertex F))) (Castle.Ext F C W)).

Variable sceneWorld : nat → XMFLOAT4X4 F.
Variable P : App F (list (option (Vertex F))) (Castle.Ext F C W) → Prop.
Hypothesis P_item : ∀ layer prim mat geo args a,
  mat ∈ Castle.material_names → geo ∈ Castle.geometry_names →
  P a → P (Castle.newRenderItem sceneWorld layer prim mat geo args a).
Hypothesis P_waves : ∀ a, P a → P (Castle.BuildWaves sceneWorld a).

Local Ltac names := unfold Castle.material_names, Castle.geometry_names; repeat constructor.

Lemma Castle_shape_keeps mat args a :
  mat ∈ Castle.material_names → P a → P (Castle.shape sceneWorld mat args a).
Proof. intros. apply P_item; [done | names | done]. Qed.

Local Ltac shapes := repeat (apply Castle_shape_keeps; [names|]); try assumption.

Lemma Castle_BuildWalls_keeps a : P a → P (Castle.BuildWalls sceneWorld a).
Proof. intros. unfold Castle.BuildWalls. shapes. Qed.

Lemma Castle_BuildTowers_keeps a : P a → P (Castle.BuildTowers sceneWorld a).
Proof. intros. unfold Castle.BuildTowers. shapes. Qed.

Lemma Castle_BuildRailAndSpikes_keeps a :
  P a → P (Castle.BuildRailAndSpikes sceneWorld a).
Proof.
  intros. unfold Castle.BuildRailAndSpikes. cbn [foldl].
  repeat (match goal with |- context [decide (?x = ?y)] =>
            destruct (decide (x = y)); [try done | try done] end).
  shapes.
Qed.

Lemma Castle_BuildRailings_keeps a : P a → P (Castle.BuildRailings sceneWorld a).
Proof.
  intros. unfold Castle.BuildRailings. cbn [Nat.iter nat_rect].
  repeat apply Castle_BuildRailAndSpikes_keeps. done.
Qed.

Lemma Castle_BuildInner_keeps a : P a → P (Castle.BuildInner sceneWorld a).
Proof. intros. unfold Castle.BuildInner. cbn [foldl]. shapes. Qed.

Lemma Castle_BuildMaze_keeps a : P a → P (Castle.BuildMaze sceneWorld a).
Proof. intros. unfold Castle.BuildMaze. cbn [Nat.iter nat_rect]. shapes. Qed.

Lemma Castle_BuildRenderItems_keeps a :
  P a → P (Castle.BuildRenderItems sceneWorld a).
Proof.
  intros. unfold Castle.BuildRenderItems.
  apply P_item; [names | names |].
  apply P_waves, Castle_BuildMaze_keeps,
    Castle_BuildInner_keeps, Castle_BuildRailings_keeps, Castle_BuildTowers_keeps,
    Castle_BuildWalls_keeps, P_item; [names | names | done].
Qed.
End CastleBuild.

Section LitColumnsBuild.
Context {F : Type}.
Context `{!Float32 F, !DirectXMath F}.
Implicit Types (a : App F unit LitColumns.Ext).

Variable sceneWorld : nat → XMFLOAT4X4 F.
Variable P : App F unit LitColumns.Ext → Prop.
Hypothesis P_item : ∀ mat args a,
  mat ∈ LitColumns.material_names → P a → P (LitColumns.shape sceneWorld mat args a).

Local Ltac shapes :=
  repeat (apply P_item; [unfold LitColumns.material_names; repeat constructor|]);
  try assumption.

Lemma LitColumns_BuildWalls_keeps a : P a → P (LitColumns.BuildWalls sceneWorld a).
Proof. intros. unfold LitColumns.BuildWalls. shapes. Qed.

Lemma LitColumns_BuildTowers_keeps a : P a → P (LitColumns.BuildTowers sceneWorld a).
Proof. intros. unfold LitColumns.BuildTowers. shapes. Qed.

Lemma LitColumns_BuildRailAndSpikes_keeps a :
  P a → P (LitColumns.BuildRailAndSpikes sceneWorld a).
Proof.
  intros. unfold LitColumns.BuildRailAndSpikes. cbn [foldl].
  repeat (match goal with |- context [decide (?x = ?y)] =>
            destruct (decide (x = y)); [try done | try done] end).
  shapes.
Qed.

Lemma LitColumns_BuildRailings_keeps a :
  P a → P (LitColumns.BuildRailings sceneWorld a).
Proof.
  intros. unfold LitColumns.BuildRailings. cbn [Nat.iter nat_rect].
  repeat apply LitColumns_BuildRailAndSpikes_keeps. done.
Qed.

Lemma LitColumns_BuildInner_keeps a : P a → P (LitColumns.BuildInner sceneWorld a).
Proof. intros. unfold LitColumns.BuildInner. cbn [foldl]. shapes. Qed.

(** The items [BuildRenderItems] makes, before it fills the layer. *)
Lemma LitColumns_items_keep a :
  P a →
  P (LitColumns.BuildInner sceneWorld (LitColumns.BuildRailings sceneWorld
       (LitColumns.BuildTowers sceneWorld (LitColumns.BuildWalls sceneWorld
          (LitColumns.shape sceneWorld "greenMat" "grid" a))))).
Proof.
  intros.
  apply LitColumns_BuildInner_keeps, LitColumns_BuildRailings_keeps,
    LitColumns_BuildTowers_keeps, LitColumns_BuildWalls_keeps. shapes.
Qed.
End LitColumnsBuild.

(** ** The dirty counters *)

Section Counters.
Context {F V X : Type}.
Implicit Types (a : App F V X).

Lemma tick_in_range (e : RenderItem F) :
  0 ≤ NumFramesDirty e ≤ gNumFrameResources →
  0 ≤ NumFramesDirty (tick e) ≤ gNumFrameResources.
Proof. rewrite tick_counter. case_decide; lia. Qed.

Lemma tickMat_in_range (m : Material F) :
  0 ≤ MatNumFramesDirty m ≤ gNumFrameResources →
  0 ≤ MatNumFramesDirty (tickMat m) ≤ gNumFrameResources.
Proof. rewrite tickMat_counter. case_decide; lia. Qed.

Lemma counters_tick a a' :
  counters_in_range a →
  mAllRitems a' = tick <$> mAllRitems a →
  mMaterials a' = tickMat <$> mMaterials a →
  counters_in_range a'.
Proof.
  intros [Hi Hm] Ei Em. split.
  - rewrite Ei, Forall_fmap. eapply Forall_impl; [exact Hi|].
    intros e. apply tick_in_range.
  - rewrite Em. apply map_Forall_fmap. eapply map_Forall_impl; [exact Hm|].
    intros k m. apply tickMat_in_range.
Qed.

Lemma all_dirty_in_range a : all_dirty a → counters_in_range a.
Proof.
  intros [Hi Hm]. split.
  - eapply Forall_impl; [exact Hi|]. unfold gNumFrameResources. cbn. lia.
  - eapply map_Forall_impl; [exact Hm|]. unfold gNumFrameResources. cbn. lia.
Qed.

Lemma Draw_submit_scene calls a a' :
  Draw_submit calls a = Some a' →
  mAllRitems a' = mAllRitems a ∧ mMaterials a' = mMaterials a ∧
  mGeometries a' = mGeometries a ∧ ext a' = ext a.
Proof.
  intros H. apply Draw_submit_inv in H as (slot & fr & _ & _ & E).
  cbn zeta in E. by subst a'.
Qed.

Lemma Draw_submit_counters calls a a' :
  counters_in_range a → Draw_submit calls a = Some a' → counters_in_range a'.
Proof.
  intros H Hd. apply Draw_submit_scene in Hd as (Ei & Em & _).
  unfold counters_in_range. by rewrite Ei, Em.
Qed.
End Counters.

Section CastleCounters.
Context {F C W : Type}.
Context `{!Float32 F, !DirectXMath F, !CameraOps F C, !WavesOps F W}.
Implicit Types (a : App F (list (option (Vertex F))) (Castle.Ext F C W)).

Lemma scrollWater_counter i (m : Material F) :
  MatNumFramesDirty (Castle.scrollWater i m) = gNumFrameResources.
Proof. done. Qed.

Lemma Castle_AnimateMaterials_counters i a a' :
  counters_in_range a → Castle.AnimateMaterials i a = Some a' →
  counters_in_range a'.
Proof.
  intros [Hi Hm] H. apply Castle_AnimateMaterials_inv in H as (water & _ & ->).
  split; [done|]. st_cbn. apply map_Forall_insert_2; [|done].
  rewrite scrollWater_counter. unfold gNumFrameResources. lia.
Qed.

Lemma Castle_Update_counters i a a' :
  counters_in_range a → Castle.Update i a = Some a' → counters_in_range a'.
Proof.
  intros [Hi Hm] H. apply Castle_Update_inv in H
    as (fr & water & p & ri & blocked & g' & _ & _ & _ & _ & _ & _ & _ & Em & Ei & _).
  cbn zeta in Em.
  apply (counters_tick (set_mMaterials (<["water" := Castle.scrollWater i water]> (mMaterials a)) a));
    [|done..].
  split; [done|]. st_cbn. apply map_Forall_insert_2; [|done].
  rewrite scrollWater_counter. unfold gNumFrameResources. lia.
Qed.

Lemma Castle_Draw_counters i a a' :
  counters_in_range a → Castle.Draw i a = Some a' → counters_in_range a'.
Proof.
  intros H Hd. apply Castle_Draw_inv in Hd as [calls Hd].
  by eapply Draw_submit_counters.
Qed.

Variable sceneWorld : nat → XMFLOAT4X4 F.

Lemma Castle_Initialize_inv a a' :
  Castle.Initialize sceneWorld a = Some a' →
  ∃ d, FlushCommandQueue
         (base (Castle.BuildFrameResources
            (Castle.BuildRenderItems sceneWorld
               (Castle.BuildMaterials (Castle.BuildGeometries a))))) = Some d ∧
       a' = set_base d
              (Castle.BuildFrameResources
                 (Castle.BuildRenderItems sceneWorld
                    (Castle.BuildMaterials (Castle.BuildGeometries a)))).
Proof.
  unfold Castle.Initialize. cbn zeta. intros H.
  apply bind_Some in H as (d & Hd & H). injection H as <-. by exists d.
Qed.

Lemma Castle_BuildFrameResources_scene a :
  mAllRitems (Castle.BuildFrameResources a) = mAllRitems a ∧
  mMaterials (Castle.BuildFrameResources a) = mMaterials a ∧
  mGeometries (Castle.BuildFrameResources a) = mGeometries a ∧
  ext (Castle.BuildFrameResources a) = ext a ∧
  base (Castle.BuildFrameResources a) = base a.
Proof. done. Qed.

Lemma all_dirty_set_base d (a : App F (list (option (Vertex F))) (Castle.Ext F C W)) :
  all_dirty a → all_dirty (set_base d a).
Proof. done. Qed.

Lemma Castle_BuildFrameResources_dirty a :
  all_dirty a → all_dirty (Castle.BuildFrameResources a).
Proof. done. Qed.

Lemma Castle_BuildRenderItems_dirty a :
  all_dirty a → all_dirty (Castle.BuildRenderItems sceneWorld a).
Proof.
  assert (Hitem : ∀ layer prim mat geo args a0,
            all_dirty a0 →
            all_dirty (Castle.newRenderItem sceneWorld layer prim mat geo args a0)).
  { intros layer prim mat geo args a0 [Hi Hm]. split; [|done].
    unfold Castle.newRenderItem. st_cbn.
    apply Forall_app. split; [done|]. by constructor. }
  apply (Castle_BuildRenderItems_keeps sceneWorld all_dirty).
  - intros. by apply Hitem.
  - intros a0 H. unfold Castle.BuildWaves. by apply Hitem.
Qed.

Lemma Castle_BuildMaterials_dirty a :
  all_dirty a → all_dirty (Castle.BuildMaterials a).
Proof.
  intros [Hi Hm]. split; [done|]. unfold Castle.BuildMaterials. st_cbn.
  repeat (apply map_Forall_insert_2; [done|]). done.
Qed.

Lemma Castle_BuildGeometries_dirty a :
  all_dirty a → all_dirty (Castle.BuildGeometries a).
Proof. done. Qed.

Lemma CastleApp_new_dirty d (c : C) (w : W) (pc : PassConstants F) :
  all_dirty (Castle.CastleApp_new d c w pc).
Proof. split; [constructor | apply map_Forall_empty]. Qed.

Lemma Castle_Initialize_dirty d (c : C) (w : W) (pc : PassConstants F) a :
  Castle.Initialize sceneWorld (Castle.CastleApp_new d c w pc) = Some a →
  all_dirty a.
Proof.
  intros H. apply Castle_Initialize_inv in H as (d' & _ & ->).
  apply all_dirty_set_base, Castle_BuildFrameResources_dirty,
    Castle_BuildRenderItems_dirty, Castle_BuildMaterials_dirty,
    Castle_BuildGeometries_dirty, CastleApp_new_dirty.
Qed.
End CastleCounters.

Section LitColumnsCounters.
Context {F : Type}.
Context `{!Float32 F, !DirectXMath F}.
Implicit Types (a : App F unit LitColumns.Ext).

Lemma LitColumns_Update_counters i a a' :
  counters_in_range a → LitColumns.Update i a = Some a' → counters_in_range a'.
Proof.
  intros Hc H. apply LitColumns_Update_inv in H
    as (fr & blocked & g' & _ & _ & _ & _ & _ & _ & _ & Em & Ei & _).
  by apply (counters_tick a).
Qed.

Lemma LitColumns_Draw_counters i a a' :
  counters_in_range a → LitColumns.Draw i a = Some a' → counters_in_range a'.
Proof.
  intros H Hd. apply LitColumns_Draw_inv in Hd as [calls Hd].
  by eapply Draw_submit_counters.
Qed.

Variable sceneWorld : nat → XMFLOAT4X4 F.

Lemma LitColumns_Initialize_inv a a' :
  LitColumns.Initialize sceneWorld a = Some a' →
  ∃ d, FlushCommandQueue
         (base (LitColumns.BuildFrameResources
            (LitColumns.BuildRenderItems sceneWorld
               (LitColumns.BuildMaterials (LitColumns.BuildGeometries a))))) = Some d ∧
       a' = set_base d
              (LitColumns.BuildFrameResources
                 (LitColumns.BuildRenderItems sceneWorld
                    (LitColumns.BuildMaterials (LitColumns.BuildGeometries a)))).
Proof.
  unfold LitColumns.Initialize. cbn zeta. intros H.
  apply bind_Some in H as (d & Hd & H). injection H as <-. by exists d.
Qed.

Lemma LitColumns_set_base_dirty d a : all_dirty a → all_dirty (set_base d a).
Proof. done. Qed.

Lemma LitColumns_BuildFrameResources_dirty a :
  all_dirty a → all_dirty (LitColumns.BuildFrameResources a).
Proof. done. Qed.

Lemma LitColumns_set_ext_dirty x a : all_dirty a → all_dirty (set_ext x a).
Proof. done. Qed.

Lemma LitColumns_BuildRenderItems_dirty a :
  all_dirty a → all_dirty (LitColumns.BuildRenderItems sceneWorld a).
Proof.
  intros H. unfold LitColumns.BuildRenderItems. cbn zeta.
  apply LitColumns_set_ext_dirty.
  apply (LitColumns_items_keep sceneWorld all_dirty); [|done].
  intros mat args a0 _ [Hi Hm]. split; [|done].
  unfold LitColumns.shape. st_cbn.
  apply Forall_app. split; [done|]. by constructor.
Qed.

Lemma LitColumns_BuildMaterials_dirty a :
  all_dirty a → all_dirty (LitColumns.BuildMaterials a).
Proof.
  intros [Hi Hm]. split; [done|]. unfold LitColumns.BuildMaterials. st_cbn.
  repeat (apply map_Forall_insert_2; [done|]). done.
Qed.

Lemma LitColumns_BuildGeometries_dirty a :
  all_dirty a → all_dirty (LitColumns.BuildGeometries a).
Proof. done. Qed.

Lemma LitColumnsApp_new_dirty d (pc : PassConstants F) :
  all_dirty (LitColumns.LitColumnsApp_new d pc).
Proof. split; [constructor | apply map_Forall_empty]. Qed.

Lemma LitColumns_Initialize_dirty d (pc : PassConstants F) a :
  LitColumns.Initialize sceneWorld (LitColumns.LitColumnsApp_new d pc) = Some a →
  all_dirty a.
Proof.
  intros H. apply LitColumns_Initialize_inv in H as (d' & _ & ->).
  apply LitColumns_set_base_dirty, LitColumns_BuildFrameResources_dirty,
    LitColumns_BuildRenderItems_dirty, LitColumns_BuildMaterials_dirty,
    LitColumns_BuildGeometries_dirty, LitColumnsApp_new_dirty.
Qed.
End LitColumnsCounters.

Section C10.
Context {F C W : Type}.
Context `{!Float32 F, !DirectXMath F, !CameraOps F C, !WavesOps F W}.

(** C10.  In either application every dirty counter, of a render
    item or of a material, is at [gNumFrameResources] when
    [Initialize] returns, and so within 0 and [gNumFrameResources];
    [Update] and [Draw] keep every counter within these bounds.  The
    three operations on a counter are the decrement under the guard
    [NumFramesDirty > 0], which keeps the bounds, the assignment of
    [gNumFrameResources] in [AnimateMaterials], and the default of a
    new item or material. *)
Theorem C10_dirty_counters_stay_in_range
    (sceneA sceneB : nat → XMFLOAT4X4 F) (d : D3DApp) (c : C) (w : W)
    (pc : PassConstants F) :
  (∀ a, Castle.Initialize sceneA (Castle.CastleApp_new d c w pc) = Some a →
        all_dirty a ∧ counters_in_range a) ∧
  (∀ b, LitColumns.Initialize sceneB (LitColumns.LitColumnsApp_new d pc) = Some b →
        all_dirty b ∧ counters_in_range b) ∧
  (∀ i (a a' : App F (list (option (Vertex F))) (Castle.Ext F C W)),
     counters_in_range a →
     (Castle.Update i a = Some a' → counters_in_range a') ∧
     (Castle.Draw i a = Some a' → counters_in_range a') ∧
     (Castle.AnimateMaterials i a = Some a' → counters_in_range a')) ∧
  (∀ i (b b' : App F unit LitColumns.Ext),
     counters_in_range b →
     (LitColumns.Update i b = Some b' → counters_in_range b') ∧
     (LitColumns.Draw i b = Some b' → counters_in_range b')) ∧
  (∀ e : RenderItem F,
     0 ≤ NumFramesDirty e ≤ gNumFrameResources →
     0 ≤ NumFramesDirty (tick e) ≤ gNumFrameResources) ∧
  (∀ m : Material F,
     0 ≤ MatNumFramesDirty m ≤ gNumFrameResources →
     0 ≤ MatNumFramesDirty (tickMat m) ≤ gNumFrameResources) ∧
  (∀ i (m : Material F),
     MatNumFramesDirty (Castle.scrollWater i m) = gNumFrameResources).
Proof.
  split; [|split; [|split; [|split; [|split; [|split]]]]].
  - intros a H. apply Castle_Initialize_dirty in H.
    split; [done | by apply all_dirty_in_range].
  - intros b H. apply LitColumns_Initialize_dirty in H.
    split; [done | by apply all_dirty_in_range].
  - intros i a a' Hc. split; [|split].
    + by apply Castle_Update_counters.
    + by apply Castle_Draw_counters.
    + by apply Castle_AnimateMaterials_counters.
  - intros i b b' Hc. split.
    + by apply LitColumns_Update_counters.
    + by apply LitColumns_Draw_counters.
  - apply tick_in_range.
  - apply tickMat_in_range.
  - intros. apply scrollWater_counter.
Qed.
End C10.

Section C3.
Context {F C W : Type}.
Context `{!Float32 F, !DirectXMath F, !CameraOps F C, !WavesOps F W}.

(** C3.  [AnimateMaterials] of the castle, the one place where the
    frame loop mutates a material or a render item, assigns
    [gNumFrameResources] to the dirty counter of the water material
    whatever the counter [k] was, so also for [0 < k < N]: the counter
    becomes [N], which is not [k + 1] unless [k + 1] is [N].  It touches no other material and no
    render item, and in an [Update] every material whose fields other
    than the counter change is the water material, left with the
    counter [N - 1] by the write of that same frame.
    [AnimateMaterials] of the columns mutates nothing. *)
Theorem C3_remutation_resets_counter (i : FrameInput F)
    (a : App F (list (option (Vertex F))) (Castle.Ext F C W))
    (b : App F unit LitColumns.Ext) (water : Material F) (k : Z) :
  mMaterials a !! "water" = Some water →
  MatNumFramesDirty water = k →
  (∃ a1 water1,
     Castle.AnimateMaterials i a = Some a1 ∧
     mMaterials a1 !! "water" = Some water1 ∧
     MatNumFramesDirty water1 = gNumFrameResources ∧
     (k + 1 ≠ gNumFrameResources → MatNumFramesDirty water1 ≠ k + 1) ∧
     MatTransform water1 = MatTransform (Castle.scrollWater i water) ∧
     (∀ n, n ≠ "water" → mMaterials a1 !! n = mMaterials a !! n) ∧
     mAllRitems a1 = mAllRitems a) ∧
  (∀ a' n m m',
     Castle.Update i a = Some a' →
     mMaterials a !! n = Some m → mMaterials a' !! n = Some m' →
     ¬ same_material m m' →
     n = "water" ∧ MatNumFramesDirty m' = gNumFrameResources - 1) ∧
  LitColumns.AnimateMaterials i b = Some b.
Proof.
  intros Hw Hk. split; [|split; [|done]].
  - exists (set_mMaterials (<["water" := Castle.scrollWater i water]> (mMaterials a)) a),
           (Castle.scrollWater i water).
    unfold Castle.AnimateMaterials. rewrite Hw. st_cbn.
    split; [done|]. split; [by rewrite lookup_insert_eq|].
    split; [done|]. split; [rewrite scrollWater_counter; lia|].
    split; [done|]. split; [|done].
    intros n Hn. by rewrite lookup_insert_ne.
  - intros a' n m m' H Hm Hm' Hdiff.
    apply Castle_Update_inv in H
      as (fr & water' & p & ri & blocked & g' & (_ & _ & Hw' & _) &
          _ & _ & _ & _ & _ & _ & Em & _).
    cbn zeta in Em. rewrite Em, lookup_fmap in Hm'.
    destruct (decide (n = "water")) as [->|Hn].
    + split; [done|]. rewrite lookup_insert_eq in Hm'. cbn in Hm'.
      injection Hm' as <-. rewrite tickMat_counter, scrollWater_counter.
      by rewrite decide_True by (unfold gNumFrameResources; lia).
    + rewrite lookup_insert_ne, Hm in Hm' by done. cbn in Hm'.
      injection Hm' as <-. destruct Hdiff. apply tickMat_same.
Qed.
End C3.

(** ** The fence over runs *)

Section FenceSteps.
Context {F V X : Type}.
Implicit Types (a : App F V X).

Lemma cycle_polled progress (d : D3DApp) (v : Z) (blocked : bool) (g' : Z * list Z) :
  let g := gpu_run progress (mFence d) (mCommandQueue d) in
  StronglySorted Z.lt (mFence d :: mCommandQueue d) →
  (if blocked then WaitForFence v g.1 g.2 = Some g' else g' = g) →
  mFence d ≤ g.1 ∧ g.1 ≤ g'.1.
Proof.
  cbn zeta. intros Hs H.
  destruct (gpu_run_drop progress (mFence d) (mCommandQueue d)) as [k1 Hk1].
  destruct (timeline_later _ _ _ _ _ Hs Hk1) as (Hle & _).
  split; [done|].
  destruct blocked; [|subst; lia].
  apply WaitForFence_inv in H as [_ [k2 Hk2]].
  assert (Hs' : StronglySorted Z.lt
                  ((gpu_run progress (mFence d) (mCommandQueue d)).1 ::
                   (gpu_run progress (mFence d) (mCommandQueue d)).2)).
  { rewrite Hk1. by apply sorted_drop. }
  by destruct (timeline_later _ _ _ _ _ Hs' Hk2) as (? & _).
Qed.

Lemma Draw_submit_retired calls a a' :
  Draw_submit calls a = Some a' → retired a a'.
Proof.
  intros H. apply Draw_submit_inv in H as (slot & fr & Hcur & Hfr & E).
  cbn zeta in E. subst a'. exists slot, fr, calls. by st_cbn.
Qed.

Variable frame : FrameInput F → App F V X → option (App F V X).
Variable wf : App F V X → Prop.

Hypothesis frame_total : ∀ i a,
  wf a → mCurrentFence (base a) < 2 ^ 64 - 1 →
  ∃ a', frame i a = Some a' ∧ wf a' ∧
        mCurrentFence (base a') = mCurrentFence (base a) + 1.
Hypothesis frame_fence : ∀ i a a',
  wf a → mCurrentFence (base a) < 2 ^ 64 - 1 → frame i a = Some a' →
  current_marker a' = mCurrentFence (base a) + 1 ∧
  mFence (base a) ≤ polled i a ∧ polled i a ≤ mFence (base a').

Lemma fence_timeline_intro inputs a :
  wf a → mCurrentFence (base a) + Z.of_nat (length inputs) < 2 ^ 64 →
  fence_timeline frame inputs a.
Proof.
  revert a. induction inputs as [|i inputs IH]; intros a Hwf Hsmall.
  { exists []. cbn. repeat split; repeat constructor. }
  cbn [length] in Hsmall.
  destruct (frame_total i a Hwf) as (a' & Hf & Hwf' & Hc); [lia|].
  destruct (frame_fence i a a' Hwf) as (Hm & Hp1 & Hp2); [lia | done |].
  destruct (IH a' Hwf') as (states & Hr & Hl & Hms & Hps); [lia|].
  exists (a' :: states). cbn [run]. rewrite Hf. cbn [mbind option_bind]. rewrite Hr.
  split; [done|]. split; [by cbn; rewrite Hl|].
  cbn [fmap list_fmap polls].
  apply StronglySorted_inv in Hms as [Hms Hma].
  apply StronglySorted_inv in Hps as [Hps Hpa].
  split.
  - constructor.
    + rewrite Hm. constructor; [done|].
      eapply Forall_impl; [exact Hma|]. cbn. lia.
    + constructor; [lia|].
      eapply Forall_impl; [exact Hma|]. cbn. lia.
  - constructor.
    + constructor; [done|].
      eapply Forall_impl; [exact Hpa|]. cbn. lia.
    + constructor; [lia|].
      eapply Forall_impl; [exact Hpa|]. cbn. lia.
Qed.
End FenceSteps.

Section CastleFence.
Context {F C W : Type}.
Context `{!Float32 F, !DirectXMath F, !CameraOps F C, !WavesOps F W}.
Context `{!WavesLawful F W}.
Implicit Types (a : App F (list (option (Vertex F))) (Castle.Ext F C W)).

Lemma Castle_frame_fence i a a' :
  Castle.wf a → mCurrentFence (base a) < 2 ^ 64 - 1 →
  Castle.frame i a = Some a' →
  current_marker a' = mCurrentFence (base a) + 1 ∧
  mFence (base a) ≤ polled i a ∧ polled i a ≤ mFence (base a').
Proof.
  intros Hwf Hsmall H. apply Castle_frame_inv in H as (a1 & H1 & H2).
  pose proof (Castle_Update_wf i a a1 Hwf H1) as (_ & _ & Hf1 & _).
  pose proof (Castle_Update_counter i a a1 H1) as Hc1.
  destruct Hwf as (_ & _ & (_ & Hs & _) & _).
  apply Castle_Update_inv in H1
    as (fr & water & p & ri & blocked & g' & _ & (_ & Hg') & Ebase & _).
  cbn zeta in Hg', Ebase.
  destruct (cycle_polled _ _ _ _ _ Hs Hg') as [Hp1 Hp2].
  apply Castle_Draw_inv in H2 as [calls H2].
  destruct (Draw_submit_fence _ _ _ H2 Hf1) as (_ & _ & Ef & _ & Em); [lia|].
  rewrite Em, Ef, Hc1, Ebase. unfold polled. by st_cbn.
Qed.
End CastleFence.

Section LitColumnsFence.
Context {F : Type}.
Context `{!Float32 F, !DirectXMath F}.
Implicit Types (a : App F unit LitColumns.Ext).

Lemma LitColumns_Update_counter i a a' :
  LitColumns.Update i a = Some a' →
  mCurrentFence (base a') = mCurrentFence (base a).
Proof.
  intros H. apply LitColumns_Update_inv in H
    as (fr & blocked & g' & _ & _ & -> & _). done.
Qed.

Lemma LitColumns_frame_fence i a a' :
  LitColumns.wf a → mCurrentFence (base a) < 2 ^ 64 - 1 →
  LitColumns.frame i a = Some a' →
  current_marker a' = mCurrentFence (base a) + 1 ∧
  mFence (base a) ≤ polled i a ∧ polled i a ≤ mFence (base a').
Proof.
  intros Hwf Hsmall H. apply LitColumns_frame_inv in H as (a1 & H1 & H2).
  pose proof (LitColumns_Update_wf i a a1 Hwf H1) as (_ & _ & Hf1 & _).
  pose proof (LitColumns_Update_counter i a a1 H1) as Hc1.
  destruct Hwf as (_ & _ & (_ & Hs & _) & _).
  apply LitColumns_Update_inv in H1
    as (fr & blocked & g' & _ & (_ & Hg') & Ebase & _).
  cbn zeta in Hg', Ebase.
  destruct (cycle_polled _ _ _ _ _ Hs Hg') as [Hp1 Hp2].
  apply LitColumns_Draw_inv in H2 as [calls H2].
  destruct (Draw_submit_fence _ _ _ H2 Hf1) as (_ & _ & Ef & _ & Em); [lia|].
  rewrite Em, Ef, Hc1, Ebase. unfold polled. by st_cbn.
Qed.
End LitColumnsFence.

Section C6.
Context {F C W : Type}.
Context `{!Float32 F, !DirectXMath F, !CameraOps F C, !WavesOps F W}.
Context `{!WavesLawful F W}.

(** C6.  In either application, [Draw] ends by incrementing the
    64-bit fence counter, storing the new value as the marker of the
    current frame resource and queueing a signal of exactly that
    value behind the submitted commands.  Hence over any run of
    frames from a well-formed state, as long as the counter does not
    wrap around, the frames return, the markers stored by successive
    frames increase strictly, and the completed values of the fence
    the CPU polls never decrease. *)
Theorem C6_retire_markers_increase (inputs : list (FrameInput F))
    (a : App F (list (option (Vertex F))) (Castle.Ext F C W))
    (b : App F unit LitColumns.Ext) :
  Castle.wf a → mCurrentFence (base a) + Z.of_nat (length inputs) < 2 ^ 64 →
  LitColumns.wf b → mCurrentFence (base b) + Z.of_nat (length inputs) < 2 ^ 64 →
  (∀ i a', Castle.Draw i a = Some a' → retired a a') ∧
  (∀ i b', LitColumns.Draw i b = Some b' → retired b b') ∧
  fence_timeline Castle.frame inputs a ∧
  fence_timeline LitColumns.frame inputs b.
Proof.
  intros Hwa Hsa Hwb Hsb. split; [|split; [|split]].
  - intros i a' H. apply Castle_Draw_inv in H as [calls H].
    by eapply Draw_submit_retired.
  - intros i b' H. apply LitColumns_Draw_inv in H as [calls H].
    by eapply Draw_submit_retired.
  - apply (fence_timeline_intro Castle.frame Castle.wf);
      [apply Castle_frame_total | apply Castle_frame_fence | done..].
  - apply (fence_timeline_intro LitColumns.frame LitColumns.wf);
      [apply LitColumns_frame_total | apply LitColumns_frame_fence | done..].
Qed.
End C6.

(** ** The pass constants *)

Section PassLogs.
Context {F : Type}.
Implicit Types (evs : list (Effect F)).

Lemma filter_none (p : Effect F → bool) evs :
  Forall (λ e, p e = false) evs → filter (λ e, p e) evs = [].
Proof.
  induction 1 as [|e evs He _ IH]; [done|].
  rewrite filter_cons.
  destruct (decide _) as [H|H]; [by rewrite He in H | exact IH].
Qed.

Lemma pass_writes_app evs1 evs2 :
  pass_writes (evs1 ++ evs2) = pass_writes evs1 ++ pass_writes evs2.
Proof. apply filter_app. Qed.

Lemma pass_writes_objectEvents slot (items : list (RenderItem F)) :
  pass_writes (reverse (objectEvents slot items)) = [].
Proof.
  apply filter_none, Forall_forall. intros ev Hev. rewrite elem_of_reverse in Hev.
  apply objectEvents_elem in Hev as (e & _ & _ & ->). done.
Qed.

Lemma pass_writes_materialEvents slot (entries : list (string * Material F)) :
  pass_writes (reverse (materialEvents slot entries)) = [].
Proof.
  apply filter_none, Forall_forall. intros ev Hev. rewrite elem_of_reverse in Hev.
  apply materialEvents_elem in Hev as (m & ->). done.
Qed.

Lemma pass_writes_wait (blocked : bool) v :
  pass_writes (if blocked then [@E_WaitForSingleObject F v] else []) = [].
Proof. by destruct blocked. Qed.

Lemma pass_writes_waveEvents {W : Type} `{!Float32 F, !WavesOps F W}
    slot (w : W) (idx : list nat) :
  pass_writes (reverse (Castle.waveEvents slot w idx)) = [].
Proof.
  apply filter_none, Forall_forall. intros ev Hev. rewrite elem_of_reverse in Hev.
  unfold Castle.waveEvents in Hev. apply list_elem_of_fmap in Hev as (k & -> & _). done.
Qed.

Lemma vertex_writes_app evs1 evs2 :
  vertex_writes (evs1 ++ evs2) = vertex_writes evs1 ++ vertex_writes evs2.
Proof. apply filter_app. Qed.

Lemma vertex_writes_objectEvents slot (items : list (RenderItem F)) :
  vertex_writes (reverse (objectEvents slot items)) = [].
Proof.
  apply filter_none, Forall_forall. intros ev Hev. rewrite elem_of_reverse in Hev.
  apply objectEvents_elem in Hev as (e & _ & _ & ->). done.
Qed.

Lemma vertex_writes_materialEvents slot (entries : list (string * Material F)) :
  vertex_writes (reverse (materialEvents slot entries)) = [].
Proof.
  apply filter_none, Forall_forall. intros ev Hev. rewrite elem_of_reverse in Hev.
  apply materialEvents_elem in Hev as (m & ->). done.
Qed.

Lemma vertex_writes_wait (blocked : bool) v :
  vertex_writes (if blocked then [@E_WaitForSingleObject F v] else []) = [].
Proof. by destruct blocked. Qed.

Lemma vertex_writes_all evs :
  Forall (λ e, is_vertex_write e = true) evs → vertex_writes evs = evs.
Proof.
  induction 1 as [|e evs He _ IH]; [done|].
  unfold vertex_writes. rewrite filter_cons.
  destruct (decide _) as [H|H]; [by f_equal | by rewrite He in H].
Qed.

Lemma vertex_writes_waveEvents {W : Type} `{!Float32 F, !WavesOps F W}
    slot (w : W) (idx : list nat) :
  vertex_writes (reverse (Castle.waveEvents slot w idx)) =
  reverse (Castle.waveEvents slot w idx).
Proof.
  apply vertex_writes_all, Forall_forall. intros ev Hev. rewrite elem_of_reverse in Hev.
  unfold Castle.waveEvents in Hev. apply list_elem_of_fmap in Hev as (k & -> & _). done.
Qed.
End PassLogs.

Section C7.
Context {F C W : Type}.
Context `{!Float32 F, !DirectXMath F, !CameraOps F C, !WavesOps F W}.
Context `{!WavesLawful F W}.

(** C7.  In either application, whatever the state of the dirty
    counters, [Update] on a well-formed state returns and has written
    the pass constants into record 0 of the pass buffer of the frame
    resource it selected, this being the one write of pass constants
    of the frame.  In the record written, the six matrices are the
    transposes of the view matrix, of the projection matrix, of their
    product [view * proj], and of the inverses of the three, each
    taken by [XMMatrixInverse] on the determinant of the matrix
    inverted.  The view and the projection are those of the camera
    in the castle, and [mView] and [mProj] in the columns. *)
Theorem C7_pass_constants_rewritten_every_frame (i : FrameInput F)
    (a : App F (list (option (Vertex F))) (Castle.Ext F C W))
    (b : App F unit LitColumns.Ext) :
  Castle.wf a → LitColumns.wf b →
  (∃ a' pc, Castle.Update i a = Some a' ∧ pass_written a a' pc ∧
            pass_matrices (GetView (Castle.mCamera (ext a')))
                          (GetProj (Castle.mCamera (ext a'))) pc) ∧
  (∃ b' pc, LitColumns.Update i b = Some b' ∧ pass_written b b' pc ∧
            pass_matrices (mView b') (mProj b') pc).
Proof.
  intros Hwa Hwb. split.
  - destruct (Castle_Update_total i a Hwa) as [a' H].
    exists a', (mMainPassCB a'). split; [done|].
    apply Castle_Update_inv in H
      as (fr & water & p & ri & blocked & g' & (_ & Hfr & _ & _ & _ & _ & Hlen & _) & _ &
          _ & Efrs & Ecur & _ & _ & _ & _ & Epc & Eext & Elog).
    cbn zeta in *.
    remember (Castle.UpdateCamera i (Castle.OnKeyboardInput i a)) as a0 eqn:Ea0.
    clear Ea0.
    assert (Hpass : pass_writes
              (reverse (Castle.waveEvents (next_slot a)
                 (Castle.stepWaves i (Castle.t_base (ext a)) (Castle.mWaves (ext a))).2
                 (seq 0 (Z.to_nat (VertexCount
                    (Castle.stepWaves i (Castle.t_base (ext a))
                       (Castle.mWaves (ext a))).2)))) ++
               E_CopyPass (next_slot a) 0 (Castle.mainPassConstants i a0) ::
               reverse (materialEvents (next_slot a)
                  (map_to_list (<["water" := Castle.scrollWater i water]> (mMaterials a)))) ++
               reverse (objectEvents (next_slot a) (mAllRitems a)) ++
               (if blocked then [E_WaitForSingleObject (Fence fr)] else []))
             = [E_CopyPass (next_slot a) 0 (Castle.mainPassConstants i a0)]).
    { rewrite pass_writes_app, pass_writes_waveEvents. cbn [app].
      change (E_CopyPass ?s ?k ?pc :: ?l) with ([E_CopyPass (F:=F) s k pc] ++ l).
      by rewrite !pass_writes_app, pass_writes_materialEvents,
        pass_writes_objectEvents, pass_writes_wait. }
    split.
    + split; [done|]. split; [|split; [done|]].
      * eexists. rewrite Efrs. split.
        -- apply list_lookup_insert_eq. by eapply lookup_lt_Some.
        -- cbn. rewrite Epc. by apply list_lookup_insert_eq.
      * rewrite Epc. eexists. split; [|exact Hpass].
        unfold new_events. rewrite Elog. unfold next_slot.
        by rewrite <- !(assoc_L (++)), <- app_comm_cons, <- !(assoc_L (++)).
    + rewrite Epc, Eext. st_cbn. unfold pass_matrices, Castle.mainPassConstants.
      by cbn.
  - destruct (LitColumns_Update_total i b Hwb) as [b' H].
    exists b', (mMainPassCB b'). split; [done|].
    destruct (LitColumns_camera_inv i b) as (e & v & E0).
    apply LitColumns_Update_inv in H
      as (fr & blocked & g' & (_ & Hfr & Hlen) & _ &
          _ & Efrs & Ecur & _ & _ & _ & _ & Epc & _ & (Ev & Ep & _) & Elog).
    cbn zeta in *.
    remember (LitColumns.UpdateCamera i (LitColumns.OnKeyboardInput i b)) as b0 eqn:Eb0.
    clear Eb0.
    assert (Hpass : pass_writes
              (E_CopyPass (next_slot b) 0 (LitColumns.mainPassConstants i b0) ::
               reverse (materialEvents (next_slot b) (map_to_list (mMaterials b))) ++
               reverse (objectEvents (next_slot b) (mAllRitems b)) ++
               (if blocked then [E_WaitForSingleObject (Fence fr)] else []))
             = [E_CopyPass (next_slot b) 0 (LitColumns.mainPassConstants i b0)]).
    { change (E_CopyPass ?s ?k ?pc :: ?l) with ([E_CopyPass (F:=F) s k pc] ++ l).
      by rewrite !pass_writes_app, pass_writes_materialEvents,
        pass_writes_objectEvents, pass_writes_wait. }
    split.
    + split; [done|]. split; [|split; [done|]].
      * eexists. rewrite Efrs. split.
        -- apply list_lookup_insert_eq. by eapply lookup_lt_Some.
        -- cbn. rewrite Epc. by apply list_lookup_insert_eq.
      * rewrite Epc. eexists. split; [|exact Hpass].
        unfold new_events. rewrite Elog. unfold next_slot.
        by rewrite <- app_comm_cons, <- !(assoc_L (++)).
    + rewrite Epc, Ev, Ep.
      assert (Eproj : mProj b = mProj b0) by (by rewrite E0).
      rewrite Eproj. unfold pass_matrices, LitColumns.mainPassConstants.
      by cbn.
Qed.
End C7.

(** ** The waves *)

Section Waves.
Context {F C W : Type}.
Context `{!Float32 F, !DirectXMath F, !CameraOps F C, !WavesOps F W}.
Implicit Types (a : App F (list (option (Vertex F))) (Castle.Ext F C W)).

(** The vertex [UpdateWaves] builds for the grid point [k] is the
    one of the simulation. *)
Lemma Castle_waveVertex_of (w : W) (k : nat) :
  Castle.vertex_of w k (Castle.waveVertex w k).
Proof. repeat split. Qed.

Lemma Castle_waveEvents_of slot (w : W) (idx : list nat) :
  Forall2 (λ k ev, ∃ v, ev = E_CopyVertex slot k v ∧ Castle.vertex_of w k v)
          idx (Castle.waveEvents slot w idx).
Proof.
  unfold Castle.waveEvents.
  apply Forall2_fmap_r, Forall_Forall2_diag, Forall_forall.
  intros k _. eexists. split; [reflexivity | apply Castle_waveVertex_of].
Qed.

Lemma Castle_waveWrites_elsewhere (w : W) idx (vb : list (option (Vertex F))) k :
  k ∉ idx → Castle.waveWrites w idx vb !! k = vb !! k.
Proof.
  revert vb. induction idx as [|k0 idx IH]; intros vb Hk; [done|].
  apply not_elem_of_cons in Hk as [Hne Hk].
  rewrite Castle_waveWrites_cons, IH by done.
  by apply list_lookup_insert_ne.
Qed.

Lemma Castle_waveWrites_lookup (w : W) idx (vb : list (option (Vertex F))) k :
  k ∈ idx → (k < length vb)%nat →
  Castle.waveWrites w idx vb !! k = Some (Some (Castle.waveVertex w k)).
Proof.
  revert vb. induction idx as [|k0 idx IH]; intros vb Hk Hlen.
  { by apply elem_of_nil in Hk. }
  rewrite Castle_waveWrites_cons.
  destruct (decide (k ∈ idx)) as [Hin|Hout].
  - apply IH; [done | by rewrite length_insert].
  - apply elem_of_cons in Hk as [->|?]; [|done].
    rewrite Castle_waveWrites_elsewhere by done.
    by apply list_lookup_insert_eq.
Qed.

Lemma DrawRenderItems_elem {V X : Type} (s : App F V X) ritems calls p :
  DrawRenderItems s ritems = Some calls → p ∈ ritems →
  ∃ ri geo mat,
    mAllRitems s !! p = Some ri ∧ mGeometries s !! Geo ri = Some geo ∧
    mMaterials s !! Mat ri = Some mat ∧
    MkDrawCall (VertexBufferGPU geo) (PrimitiveType ri) (ObjCBIndex ri)
               (MatCBIndex mat) (DrawArgs ri) ∈ calls.
Proof.
  revert calls. induction ritems as [|q ritems IH]; intros calls H Hp.
  { by apply elem_of_nil in Hp. }
  cbn [DrawRenderItems] in H.
  apply bind_Some in H as (ri & Hri & H).
  apply bind_Some in H as (geo & Hgeo & H).
  apply bind_Some in H as (mat & Hmat & H).
  apply bind_Some in H as (rest & Hrest & H).
  injection H as <-.
  apply elem_of_cons in Hp as [->|Hp].
  - exists ri, geo, mat. repeat split; try done. constructor.
  - destruct (IH rest Hrest Hp) as (ri' & geo' & mat' & ? & ? & ? & ?).
    exists ri', geo', mat'. repeat split; try done. by constructor.
Qed.

Lemma Castle_Draw_layers i a a' :
  Castle.Draw i a = Some a' →
  ∃ c1 c2 c3 c4,
    DrawRenderItems a (Castle.mRitemLayer (ext a) Castle.Opaque) = Some c1 ∧
    DrawRenderItems a (Castle.mRitemLayer (ext a) Castle.AlphaTested) = Some c2 ∧
    DrawRenderItems a (Castle.mRitemLayer (ext a) Castle.AlphaTestedTreeSprites) = Some c3 ∧
    DrawRenderItems a (Castle.mRitemLayer (ext a) Castle.Transparent) = Some c4 ∧
    Draw_submit (c1 ++ c2 ++ c3 ++ c4) a = Some a'.
Proof.
  unfold Castle.Draw. intros H.
  apply bind_Some in H as (slot & _ & H).
  apply bind_Some in H as (c1 & H1 & H).
  apply bind_Some in H as (c2 & H2 & H).
  apply bind_Some in H as (c3 & H3 & H).
  apply bind_Some in H as (c4 & H4 & H).
  by exists c1, c2, c3, c4.
Qed.

Lemma Castle_Draw_call i a a' p (l : Castle.RenderLayer) :
  Castle.Draw i a = Some a' → p ∈ Castle.mRitemLayer (ext a) l →
  ∃ slot calls ri geo mat,
    mCurrFrameResource a = Some slot ∧
    mLog a' = E_Signal (UINT64_incr (mCurrentFence (base a))) ::
              E_ExecuteCommandLists slot calls :: mLog a ∧
    mAllRitems a !! p = Some ri ∧ mGeometries a !! Geo ri = Some geo ∧
    mMaterials a !! Mat ri = Some mat ∧
    MkDrawCall (VertexBufferGPU geo) (PrimitiveType ri) (ObjCBIndex ri)
               (MatCBIndex mat) (DrawArgs ri) ∈ calls.
Proof.
  intros H Hp. apply Castle_Draw_layers in H as (c1 & c2 & c3 & c4 & H1 & H2 & H3 & H4 & H).
  apply Draw_submit_inv in H as (slot & fr & Hcur & _ & E). cbn zeta in E.
  assert (Hcall : ∃ ri geo mat,
    mAllRitems a !! p = Some ri ∧ mGeometries a !! Geo ri = Some geo ∧
    mMaterials a !! Mat ri = Some mat ∧
    MkDrawCall (VertexBufferGPU geo) (PrimitiveType ri) (ObjCBIndex ri)
               (MatCBIndex mat) (DrawArgs ri) ∈ c1 ++ c2 ++ c3 ++ c4).
  { destruct l.
    - destruct (DrawRenderItems_elem _ _ _ _ H1 Hp) as (ri & geo & mat & ? & ? & ? & ?).
      exists ri, geo, mat. rewrite !elem_of_app. eauto 10.
    - destruct (DrawRenderItems_elem _ _ _ _ H4 Hp) as (ri & geo & mat & ? & ? & ? & ?).
      exists ri, geo, mat. rewrite !elem_of_app. eauto 10.
    - destruct (DrawRenderItems_elem _ _ _ _ H2 Hp) as (ri & geo & mat & ? & ? & ? & ?).
      exists ri, geo, mat. rewrite !elem_of_app. eauto 10.
    - destruct (DrawRenderItems_elem _ _ _ _ H3 Hp) as (ri & geo & mat & ? & ? & ? & ?).
      exists ri, geo, mat. rewrite !elem_of_app. eauto 10. }
  destruct Hcall as (ri & geo & mat & ? & ? & ? & ?).
  exists slot, (c1 ++ c2 ++ c3 ++ c4), ri, geo, mat. subst a'. by st_cbn.
Qed.
End Waves.

Section C8.
Context {F C W : Type}.
Context `{!Float32 F, !DirectXMath F, !CameraOps F C, !WavesOps F W}.
Context `{!WavesLawful F W}.

(** C8.  In a frame of the castle on a well-formed state, [Update]
    and [Draw] return.  [Update] steps the simulation and copies
    every one of its [VertexCount()] vertices, whatever the state,
    into the wave buffer of the frame resource it selected, each at
    its vertex index and each once, in the order of the indices: the
    record at index [k] has the position and the normal the
    simulation gives for [k], and the texture coordinates of that
    position.  It leaves the geometry of the wave item bound to that
    buffer.  [Draw], which comes after, then
    submits for the wave item (a member of the layer [l]) a draw call
    that reads this buffer. *)
Theorem C8_waves_uploaded_and_bound (i : FrameInput F)
    (a : App F (list (option (Vertex F))) (Castle.Ext F C W))
    (p : nat) (l : Castle.RenderLayer) :
  Castle.wf a → mCurrentFence (base a) < 2 ^ 64 - 1 →
  Castle.mWavesRitem (ext a) = Some p → p ∈ Castle.mRitemLayer (ext a) l →
  ∃ a' a'', Castle.Update i a = Some a' ∧ Castle.Draw i a' = Some a'' ∧
            Castle.waves_uploaded i a a' ∧ Castle.waves_drawn a' a''.
Proof.
  intros Hwf Hsmall Hp Hl.
  destruct (Castle_frame_total i a Hwf Hsmall) as (a'' & Hf & _).
  apply Castle_frame_inv in Hf as (a' & H1 & H2).
  exists a', a''. split; [done|]. split; [done|].
  apply Castle_Update_inv in H1
    as (fr & water & p' & ri & blocked & g' &
        (_ & Hfr & _ & Hp' & Hri & _ & _ & Hlen) & _ &
        _ & Efrs & Ecur & _ & Egeo & _ & Eitems & _ & Eext & Elog).
  cbn zeta in *.
  remember (Castle.UpdateCamera i (Castle.OnKeyboardInput i a)) as a0 eqn:Ea0.
  clear Ea0.
  rewrite Hp in Hp'. injection Hp' as <-.
  assert (Ew : Castle.mWaves (ext a') =
               (Castle.stepWaves i (Castle.t_base (ext a)) (Castle.mWaves (ext a))).2)
    by (by rewrite Eext).
  assert (Hitem : mAllRitems a' !! p = Some (tick ri))
    by (by rewrite Eitems, list_lookup_fmap, Hri).
  assert (Hgeo : mGeometries a' !! Geo (tick ri) =
                 Some (MkMeshGeometry (Some (UploadResource (next_slot a) WavesRole)))).
  { rewrite Egeo, tick_Geo. apply lookup_insert_eq. }
  assert (Hvertex : vertex_writes
            (reverse (Castle.waveEvents (next_slot a)
               (Castle.stepWaves i (Castle.t_base (ext a)) (Castle.mWaves (ext a))).2
               (seq 0 (Z.to_nat (VertexCount
                  (Castle.stepWaves i (Castle.t_base (ext a))
                     (Castle.mWaves (ext a))).2)))) ++
             E_CopyPass (next_slot a) 0 (Castle.mainPassConstants i a0) ::
             reverse (materialEvents (next_slot a)
                (map_to_list (<["water" := Castle.scrollWater i water]> (mMaterials a)))) ++
             reverse (objectEvents (next_slot a) (mAllRitems a)) ++
             (if blocked then [E_WaitForSingleObject (Fence fr)] else []))
           = reverse (Castle.waveEvents (next_slot a)
               (Castle.stepWaves i (Castle.t_base (ext a)) (Castle.mWaves (ext a))).2
               (seq 0 (Z.to_nat (VertexCount
                  (Castle.stepWaves i (Castle.t_base (ext a))
                     (Castle.mWaves (ext a))).2))))).
  { rewrite vertex_writes_app, vertex_writes_waveEvents.
    change (E_CopyPass ?s ?k ?pc :: ?l) with ([E_CopyPass (F:=F) s k pc] ++ l).
    rewrite !vertex_writes_app, vertex_writes_materialEvents,
      vertex_writes_objectEvents, vertex_writes_wait.
    unfold vertex_writes. rewrite filter_cons.
    destruct (decide _) as [Hv|_]; [done|].
    rewrite filter_nil. by rewrite !(right_id_L [] (++)). }
  split.
  - unfold Castle.waves_uploaded. cbn zeta. rewrite Ew.
    split; [done|]. split; [|split].
    + eexists. rewrite Efrs. split.
      * apply list_lookup_insert_eq. by eapply lookup_lt_Some.
      * cbn. intros k Hk. eexists. split; [|apply Castle_waveVertex_of].
        apply Castle_waveWrites_lookup; [|lia].
        apply elem_of_seq. lia.
    + eexists. split; [|rewrite Hvertex, reverse_involutive; apply Castle_waveEvents_of].
      unfold new_events. rewrite Elog. unfold next_slot.
      by rewrite <- !(assoc_L (++)), <- app_comm_cons, <- !(assoc_L (++)).
    + exists p, (tick ri). split; [by rewrite Eext|]. by split.
  - assert (Hl' : p ∈ Castle.mRitemLayer (ext a') l) by (by rewrite Eext).
    destruct (Castle_Draw_call i a' a'' p l H2 Hl')
      as (slot & calls & ri' & geo & mat & Hcur & El & Hri' & Hgeo' & Hmat & Hcall).
    rewrite Hitem in Hri'. injection Hri' as <-.
    rewrite Hgeo in Hgeo'. injection Hgeo' as <-.
    rewrite Ecur in Hcur. injection Hcur as <-.
    exists (next_slot a), calls, p, (tick ri), mat.
    split; [done|]. split; [done|]. split; [by rewrite Eext|]. by split.
Qed.
End C8.

(** ** What [Initialize] establishes *)

Section Flush.
Context {F V : Type}.

Lemma FlushCommandQueue_ok (d : D3DApp) (frs : list (FrameResource F V)) :
  d3d_ok d → Forall (λ fr, Fence fr ≤ mFence d ∨ Fence fr ∈ mCommandQueue d) frs →
  ∃ d', FlushCommandQueue d = Some d' ∧ fence_inv d' frs ∧
        mCurrentFence d' = mCurrentFence d + 1 ∧
        mCurrentFence d + 1 ≤ mFence d' ∧
        mCurrBackBuffer d' = mCurrBackBuffer d ∧
        mClientWidth d' = mClientWidth d ∧ mClientHeight d' = mClientHeight d.
Proof.
  intros (H0 & Hs & Hb & Hsmall) Hm. unfold FlushCommandQueue. cbn zeta.
  pose proof Hb as Hb'. apply Forall_cons in Hb' as [Hc Hq].
  rewrite UINT64_incr_small by lia. cbn [mFence mCommandQueue set_mCommandQueue set_mCurrentFence].
  destruct (WaitForFence_total (mCurrentFence d + 1) (mFence d)
              (mCommandQueue d ++ [mCurrentFence d + 1])) as [g Hg].
  { right. apply elem_of_app. right. constructor. }
  rewrite Hg. cbn [mbind option_bind].
  eexists. split; [done|].
  apply WaitForFence_inv in Hg as [Hle [k Hk]].
  assert (Hinv : fence_inv
            (set_mCommandQueue (mCommandQueue d ++ [mCurrentFence d + 1])
               (set_mCurrentFence (mCurrentFence d + 1) d)) frs).
  { unfold fence_inv. cbn. split; [done|]. split; [|split].
    - change (mFence d :: mCommandQueue d ++ [mCurrentFence d + 1])
        with ((mFence d :: mCommandQueue d) ++ [mCurrentFence d + 1]).
      apply StronglySorted_snoc; [done|].
      eapply Forall_impl; [exact Hb|]. cbn. lia.
    - constructor; [lia|]. apply Forall_app. split.
      + eapply Forall_impl; [exact Hq|]. cbn. lia.
      + constructor; [lia | constructor].
    - eapply Forall_impl; [exact Hm|]. cbn. intros fr [?|?]; [by left|].
      right. apply elem_of_app. by left. }
  destruct (fence_inv_gpu _ _ g k Hinv Hk) as [Hinv' _].
  split; [exact Hinv'|]. by cbn.
Qed.
End Flush.

Section CastleScene.
Context {F C W : Type}.
Context `{!Float32 F, !DirectXMath F, !CameraOps F C, !WavesOps F W}.
Implicit Types (a : App F (list (option (Vertex F))) (Castle.Ext F C W)).

Variable sceneWorld : nat → XMFLOAT4X4 F.

Lemma Castle_newRenderItem_scene_ok layer prim mat geo args a :
  mat ∈ Castle.material_names → geo ∈ Castle.geometry_names →
  Castle.scene_ok a →
  Castle.scene_ok (Castle.newRenderItem sceneWorld layer prim mat geo args a).
Proof.
  intros Hmat Hgeo (Hn & Hidx & Hreg & Hlayers & Hw).
  unfold Castle.scene_ok, Castle.newRenderItem. st_cbn.
  rewrite length_app, fmap_app, Hidx, Hn. cbn [length fmap list_fmap ObjCBIndex].
  split; [lia|]. split; [by rewrite seq_app|]. split; [|split].
  - apply Forall_app. split; [done|]. by constructor.
  - intros l. apply Forall_app. split.
    + eapply Forall_impl; [apply Hlayers|]. cbn. lia.
    + case_decide; [|constructor]. constructor; [lia | constructor].
  - intros p Hp. apply Hw in Hp. lia.
Qed.

Lemma Castle_BuildWaves_scene_ok a :
  Castle.scene_ok a → Castle.scene_ok (Castle.BuildWaves sceneWorld a).
Proof.
  intros (Hn & Hidx & Hreg & Hlayers & Hw).
  unfold Castle.scene_ok, Castle.BuildWaves, Castle.newRenderItem. st_cbn.
  rewrite length_app, fmap_app, Hidx, Hn. cbn [length fmap list_fmap ObjCBIndex].
  split; [lia|]. split; [by rewrite seq_app|]. split; [|split].
  - apply Forall_app. split; [done|].
    constructor; [|constructor]. cbn.
    split; unfold Castle.material_names, Castle.geometry_names; repeat constructor.
  - intros l. apply Forall_app. split.
    + eapply Forall_impl; [apply Hlayers|]. cbn. lia.
    + case_decide; [|constructor]. constructor; [lia | constructor].
  - intros p [= <-]. lia.
Qed.

Lemma Castle_BuildRenderItems_scene_ok a :
  Castle.scene_ok a → Castle.scene_ok (Castle.BuildRenderItems sceneWorld a).
Proof.
  apply (Castle_BuildRenderItems_keeps sceneWorld Castle.scene_ok).
  - intros. by apply Castle_newRenderItem_scene_ok.
  - apply Castle_BuildWaves_scene_ok.
Qed.

Lemma Castle_BuildRenderItems_rest a :
  Castle.scene_rest a (Castle.BuildRenderItems sceneWorld a).
Proof.
  apply (Castle_BuildRenderItems_keeps sceneWorld (Castle.scene_rest a)).
  - intros layer prim mat geo args a0 _ _ H. exact H.
  - intros a0 H. exact H.
  - by repeat split.
Qed.

Lemma Castle_BuildRenderItems_waves a :
  is_Some (Castle.mWavesRitem (ext (Castle.BuildRenderItems sceneWorld a))).
Proof.
  unfold Castle.BuildRenderItems, Castle.BuildWaves. cbn zeta.
  generalize (Castle.BuildMaze sceneWorld
    (Castle.BuildInner sceneWorld (Castle.BuildRailings sceneWorld
      (Castle.BuildTowers sceneWorld (Castle.BuildWalls sceneWorld
        (Castle.newRenderItem sceneWorld Castle.Opaque TOPOLOGY_TRIANGLELIST
           "grass" "landGeo" "grid" a)))))).
  intros X. by eexists.
Qed.
End CastleScene.

Section CastleInitialize.
Context {F C W : Type}.
Context `{!Float32 F, !DirectXMath F, !CameraOps F C, !WavesOps F W}.
Implicit Types (a : App F (list (option (Vertex F))) (Castle.Ext F C W)).

Variable sceneWorld : nat → XMFLOAT4X4 F.

Lemma Castle_BuildFrameResources_eq a :
  Castle.BuildFrameResources a =
  set_mFrameResources
    (mFrameResources a ++
     replicate 3 (FrameResource_new 1 (length (mAllRitems a)) (size (mMaterials a))
                    (UploadBuffer_new (Z.to_nat (VertexCount (Castle.mWaves (ext a))))))) a.
Proof.
  unfold Castle.BuildFrameResources. cbn [foldl]. st_cbn.
  rewrite <- !(assoc_L (++)). done.
Qed.

Lemma Castle_registered_materials a :
  mMaterials a = ∅ →
  (∀ n, n ∈ Castle.material_names → is_Some (mMaterials (Castle.BuildMaterials a) !! n)) ∧
  size (mMaterials (Castle.BuildMaterials a)) = 10%nat ∧
  map_Forall (λ _ (m : Material F), (MatCBIndex m < 10)%nat)
             (mMaterials (Castle.BuildMaterials a)).
Proof.
  intros E. unfold Castle.BuildMaterials. st_cbn. rewrite E.
  split; [|split].
  - intros n Hn. unfold Castle.material_names in Hn.
    repeat (apply elem_of_cons in Hn as [->|Hn]; [by eexists|]).
    by apply elem_of_nil in Hn.
  - done.
  - repeat (apply map_Forall_insert_2; [cbn; lia|]). apply map_Forall_empty.
Qed.

Lemma Castle_registered_geometries a :
  mGeometries a = ∅ →
  ∀ n, n ∈ Castle.geometry_names → is_Some (mGeometries (Castle.BuildGeometries a) !! n).
Proof.
  intros E n Hn. unfold Castle.BuildGeometries. st_cbn. rewrite E.
  unfold Castle.geometry_names in Hn.
  repeat (apply elem_of_cons in Hn as [->|Hn]; [by eexists|]).
  by apply elem_of_nil in Hn.
Qed.

(** The state [Initialize] flushes. *)
Lemma Castle_built_wf a d' :
  Castle.scene_ok a → Castle.scene_registered a →
  is_Some (Castle.mWavesRitem (ext a)) →
  mFrameResources a = [] → mCurrFrameResourceIndex a = 0 →
  fence_inv d' (mFrameResources (Castle.BuildFrameResources a)) →
  Castle.wf (set_base d' (Castle.BuildFrameResources a)) ∧
  NoDup (ObjCBIndex <$> mAllRitems (set_base d' (Castle.BuildFrameResources a))).
Proof.
  intros (Hn & Hidx & Hreg & Hlayers & Hw) (Hmats & Hgeos & Hmi) [p Hp] Hfrs Hi Hfence.
  rewrite Castle_BuildFrameResources_eq in Hfence |- *.
  rewrite Hfrs in Hfence |- *. cbn [app] in Hfence |- *.
  assert (Hitems : ∀ q, (q < length (mAllRitems a))%nat →
            ∃ ri, mAllRitems a !! q = Some ri ∧
                  is_Some (mGeometries a !! Geo ri) ∧ is_Some (mMaterials a !! Mat ri)).
  { intros q Hq. destruct (lookup_lt_is_Some_2 _ _ Hq) as [ri Hri].
    exists ri. split; [done|].
    rewrite Forall_forall in Hreg.
    destruct (Hreg ri) as [Hm Hg]; [by eapply list_elem_of_lookup_2|].
    split; [by apply Hgeos | by apply Hmats]. }
  split; [|st_cbn; rewrite Hidx; apply NoDup_seq].
  unfold Castle.wf. st_cbn.
  split; [|split; [|split; [exact Hfence|split; [|split; [|split]]]]].
  - unfold ring_ok. st_cbn. split; [done | rewrite Hi; done].
  - unfold indices_in_range. st_cbn.
    apply Forall_replicate. unfold FrameResource_new, UploadBuffer_new.
    cbn [PassCB ObjectCB MaterialCB]. rewrite !length_replicate.
    split; [lia|]. split; [|done].
    apply Forall_forall. intros e He.
    assert (Hin : ObjCBIndex e ∈ ObjCBIndex <$> mAllRitems a)
      by (by apply list_elem_of_fmap_2).
    rewrite Hidx in Hin. apply elem_of_seq in Hin. lia.
  - apply Hmats. unfold Castle.material_names. repeat constructor.
  - exists p. destruct (Hitems p (Hw p Hp)) as (ri & Hri & Hg & _). by exists ri.
  - apply Forall_replicate. unfold FrameResource_new, UploadBuffer_new.
    cbn [WavesVB]. by rewrite length_replicate.
  - intros l. unfold drawable. st_cbn.
    eapply Forall_impl; [apply Hlayers|]. cbn. intros q Hq. by apply Hitems.
Qed.

(** [Initialize] returns, on a well-formed state in which every
    constant-buffer index is in range, the items have distinct
    indices and every dirty counter is at [gNumFrameResources]. *)
Lemma Castle_Initialize_wf d (c : C) (w : W) (pc : PassConstants F) :
  d3d_ok d →
  ∃ a, Castle.Initialize sceneWorld (Castle.CastleApp_new d c w pc) = Some a ∧
       Castle.wf a ∧ NoDup (ObjCBIndex <$> mAllRitems a) ∧ all_dirty a ∧
       mCurrentFence (base a) = mCurrentFence d + 1.
Proof.
  intros Hd.
  pose (X0 := Castle.BuildMaterials (Castle.BuildGeometries (Castle.CastleApp_new d c w pc))).
  pose proof (Castle_BuildRenderItems_rest sceneWorld X0)
    as (Em & Eg & Ef & Ei & _ & Eb & _).
  assert (Hok : Castle.scene_ok (Castle.BuildRenderItems sceneWorld X0)).
  { apply Castle_BuildRenderItems_scene_ok. unfold Castle.scene_ok. cbn.
    split; [done|]. split; [done|]. split; [constructor|]. split; [|done].
    intros l. constructor. }
  assert (Hreg : Castle.scene_registered (Castle.BuildRenderItems sceneWorld X0)).
  { unfold Castle.scene_registered. rewrite Em, Eg.
    destruct (Castle_registered_materials
                (Castle.BuildGeometries (Castle.CastleApp_new d c w pc)))
      as (Hm & Hs & Hi); [done|].
    split; [exact Hm|]. split.
    - apply (Castle_registered_geometries (Castle.CastleApp_new d c w pc)). done.
    - unfold X0. rewrite Hs. exact Hi. }
  set (S0 := Castle.BuildRenderItems sceneWorld X0) in *.
  destruct (FlushCommandQueue_ok d (mFrameResources (Castle.BuildFrameResources S0)))
    as (d' & Hflush & Hinv & Hc & _); [done | |].
  { rewrite Castle_BuildFrameResources_eq, Ef. cbn [app].
    apply Forall_replicate. left. apply Hd. }
  exists (set_base d' (Castle.BuildFrameResources S0)).
  destruct (Castle_built_wf S0 d' Hok Hreg) as [Hwf Hnd];
    [apply Castle_BuildRenderItems_waves | by rewrite Ef | by rewrite Ei | done |].
  assert (Hinit : Castle.Initialize sceneWorld (Castle.CastleApp_new d c w pc) =
                  Some (set_base d' (Castle.BuildFrameResources S0))).
  { unfold Castle.Initialize. cbn zeta. fold X0. fold S0.
    destruct (Castle_BuildFrameResources_scene S0) as (_ & _ & _ & _ & Ebase).
    rewrite Ebase, Eb. unfold X0 at 1. cbn [base Castle.BuildMaterials Castle.BuildGeometries
      Castle.CastleApp_new set_mMaterials set_mGeometries].
    rewrite Hflush. done. }
  split; [exact Hinit|]. split; [exact Hwf|]. split; [exact Hnd|].
  split; [by eapply Castle_Initialize_dirty | exact Hc].
Qed.
End CastleInitialize.

(** ** When the material pass returns *)

Section MaterialBounds.
Context {F V X : Type}.
Implicit Types (a : App F V X).

Lemma UpdateMaterialCBs_loop_bounds slot (entries : list (string * Material F))
    mats cb log r :
  UpdateMaterialCBs_loop slot entries mats cb log = Some r →
  Forall (λ e, 0 < MatNumFramesDirty e.2 → (MatCBIndex e.2 < length cb)%nat) entries.
Proof.
  revert mats cb log.
  induction entries as [|[key m] entries IH]; intros mats cb log H; [constructor|].
  cbn [UpdateMaterialCBs_loop] in H. cbn [fst snd] in H.
  destruct (decide (0 < MatNumFramesDirty m)) as [Hd|Hd].
  - destruct (CopyData _ _ cb) as [cb1|] eqn:Hc; [|done]. cbn in H.
    apply CopyData_Some in Hc as [Hlt ->].
    apply IH in H. rewrite length_insert in H.
    constructor; [done | exact H].
  - apply IH in H. constructor; [|exact H]. cbn. intros. lia.
Qed.

Lemma UpdateMaterialCBs_bounds a a' :
  UpdateMaterialCBs a = Some a' →
  ∃ slot fr, mCurrFrameResource a = Some slot ∧ mFrameResources a !! slot = Some fr ∧
    map_Forall (λ _ m, 0 < MatNumFramesDirty m → (MatCBIndex m < length (MaterialCB fr))%nat)
               (mMaterials a).
Proof.
  unfold UpdateMaterialCBs. intros H.
  destruct (mCurrFrameResource a) as [slot|]; [|done]. cbn in H.
  destruct (mFrameResources a !! slot) as [fr|] eqn:Hfr; [|done]. cbn in H.
  destruct (UpdateMaterialCBs_loop _ _ _ _ _) as [r|] eqn:Hl; [|done].
  exists slot, fr. split; [done|]. split; [done|].
  apply UpdateMaterialCBs_loop_bounds in Hl.
  apply map_Forall_to_list. eapply Forall_impl; [exact Hl|].
  by intros [k m].
Qed.
End MaterialBounds.

Section LitColumnsScene.
Context {F : Type}.
Context `{!Float32 F, !DirectXMath F}.
Implicit Types (a : App F unit LitColumns.Ext).

(** [Update] returns only if every dirty material has its index
    inside the material buffer of the frame resource selected. *)
Lemma LitColumns_Update_bounds i a a' :
  LitColumns.Update i a = Some a' →
  ∃ fr, mFrameResources a !! next_slot a = Some fr ∧
    map_Forall (λ _ m, 0 < MatNumFramesDirty m → (MatCBIndex m < length (MaterialCB fr))%nat)
               (mMaterials a).
Proof.
  unfold LitColumns.Update, LitColumns.AnimateMaterials. intros H. cbn zeta in *.
  destruct (LitColumns_camera_inv i a) as (e & v & E0).
  remember (LitColumns.UpdateCamera i (LitColumns.OnKeyboardInput i a)) as a0 eqn:Ea0.
  clear Ea0.
  apply bind_Some in H as (a1 & H1 & H).
  cbn [mbind option_bind] in H.
  apply bind_Some in H as (a3 & H3 & H).
  apply bind_Some in H as (a4 & H4 & _).
  apply CycleFrameResources_inv in H1
    as (fr & blocked & g' & Hidx & Hfr & _ & _ & E1).
  cbn zeta in Hidx, Hfr, E1.
  apply UpdateObjectCBs_inv in H3 as (s3 & fr3 & Hs3 & Hfr3 & E3).
  apply UpdateMaterialCBs_bounds in H4 as (s4 & fr4 & Hs4 & Hfr4 & Hb).
  unwind_in Hs3. injection Hs3 as <-.
  unwind_in Hs4. injection Hs4 as <-.
  unwind_in Hidx. unwind_in Hfr.
  assert (Hlt : (Z.to_nat ((mCurrFrameResourceIndex a + 1) `rem` gNumFrameResources)
                 < length (mFrameResources a))%nat) by (by eapply lookup_lt_Some).
  unwind_in Hfr3. rewrite Hfr in Hfr3. injection Hfr3 as <-.
  unwind_in Hfr4. rewrite list_lookup_insert_eq in Hfr4 by done. injection Hfr4 as <-.
  unwind_in Hb.
  exists fr. split; [exact Hfr | exact Hb].
Qed.

Variable sceneWorld : nat → XMFLOAT4X4 F.

Lemma LitColumns_shape_scene_ok mat args a :
  mat ∈ LitColumns.material_names →
  LitColumns.scene_ok a → LitColumns.scene_ok (LitColumns.shape sceneWorld mat args a).
Proof.
  intros Hmat (Hn & Hidx & Hreg).
  unfold LitColumns.scene_ok, LitColumns.shape. st_cbn.
  rewrite length_app, fmap_app, Hidx, Hn. cbn [length fmap list_fmap ObjCBIndex].
  split; [lia|]. split; [by rewrite seq_app|].
  apply Forall_app. split; [done|]. by constructor.
Qed.

Lemma LitColumns_set_ext_scene_ok x a :
  LitColumns.scene_ok a → LitColumns.scene_ok (set_ext x a).
Proof. done. Qed.

Lemma LitColumns_BuildRenderItems_scene_ok a :
  LitColumns.scene_ok a → LitColumns.scene_ok (LitColumns.BuildRenderItems sceneWorld a).
Proof.
  intros H. unfold LitColumns.BuildRenderItems. cbn zeta.
  apply LitColumns_set_ext_scene_ok.
  apply (LitColumns_items_keep sceneWorld LitColumns.scene_ok); [|done].
  intros. by apply LitColumns_shape_scene_ok.
Qed.

Lemma LitColumns_set_ext_rest x a0 a :
  LitColumns.scene_rest a0 a → LitColumns.scene_rest a0 (set_ext x a).
Proof. done. Qed.

Lemma LitColumns_BuildRenderItems_rest a :
  LitColumns.scene_rest a (LitColumns.BuildRenderItems sceneWorld a).
Proof.
  unfold LitColumns.BuildRenderItems. cbn zeta.
  apply LitColumns_set_ext_rest.
  apply (LitColumns_items_keep sceneWorld (LitColumns.scene_rest a)).
  - intros mat args a0 _ H. exact H.
  - by repeat split.
Qed.

Lemma LitColumns_set_ext_layer a :
  LitColumns.mOpaqueRitems (ext a) = [] →
  LitColumns.mOpaqueRitems
    (ext (set_ext (LitColumns.MkExt (LitColumns.mOpaqueRitems (ext a) ++
                                     seq 0 (length (mAllRitems a)))) a)) =
  seq 0 (length (mAllRitems
    (set_ext (LitColumns.MkExt (LitColumns.mOpaqueRitems (ext a) ++
                                seq 0 (length (mAllRitems a)))) a))).
Proof. intros E. st_cbn. by rewrite E. Qed.

Lemma LitColumns_BuildRenderItems_layer a :
  LitColumns.mOpaqueRitems (ext a) = [] →
  LitColumns.mOpaqueRitems (ext (LitColumns.BuildRenderItems sceneWorld a)) =
  seq 0 (length (mAllRitems (LitColumns.BuildRenderItems sceneWorld a))).
Proof.
  intros E. unfold LitColumns.BuildRenderItems. cbn zeta.
  apply LitColumns_set_ext_layer.
  apply (LitColumns_items_keep sceneWorld
           (λ a', LitColumns.mOpaqueRitems (ext a') = [])); [by intros | done].
Qed.

Lemma LitColumns_BuildFrameResources_eq a :
  LitColumns.BuildFrameResources a =
  set_mFrameResources
    (mFrameResources a ++
     replicate 3 (FrameResource_new 1 (length (mAllRitems a)) (size (mMaterials a)) ())) a.
Proof.
  unfold LitColumns.BuildFrameResources. cbn [foldl]. st_cbn.
  rewrite <- !(assoc_L (++)). done.
Qed.

Lemma LitColumns_BuildFrameResources_scene a :
  mAllRitems (LitColumns.BuildFrameResources a) = mAllRitems a ∧
  mMaterials (LitColumns.BuildFrameResources a) = mMaterials a ∧
  mGeometries (LitColumns.BuildFrameResources a) = mGeometries a ∧
  ext (LitColumns.BuildFrameResources a) = ext a ∧
  base (LitColumns.BuildFrameResources a) = base a ∧
  objCBIndex (LitColumns.BuildFrameResources a) = objCBIndex a ∧
  mCurrFrameResourceIndex (LitColumns.BuildFrameResources a) = mCurrFrameResourceIndex a ∧
  mFrameResources (LitColumns.BuildFrameResources a) =
    mFrameResources a ++
    replicate 3 (FrameResource_new 1 (length (mAllRitems a)) (size (mMaterials a)) ()).
Proof. by rewrite LitColumns_BuildFrameResources_eq. Qed.

Lemma LitColumns_registered_materials a :
  mMaterials a = ∅ →
  (∀ n, n ∈ LitColumns.material_names →
        is_Some (mMaterials (LitColumns.BuildMaterials a) !! n)) ∧
  size (mMaterials (LitColumns.BuildMaterials a)) = 4%nat ∧
  map_Forall (λ _ (m : Material F), (MatCBIndex m < 5)%nat)
             (mMaterials (LitColumns.BuildMaterials a)) ∧
  ∃ brown, mMaterials (LitColumns.BuildMaterials a) !! "brownMat" = Some brown ∧
           MatCBIndex brown = 4%nat ∧ MatNumFramesDirty brown = gNumFrameResources.
Proof.
  intros E. unfold LitColumns.BuildMaterials. st_cbn. rewrite E.
  split; [|split; [|split]].
  - intros n Hn. unfold LitColumns.material_names in Hn.
    repeat (apply elem_of_cons in Hn as [->|Hn]; [by eexists|]).
    by apply elem_of_nil in Hn.
  - done.
  - repeat (apply map_Forall_insert_2; [cbn; lia|]). apply map_Forall_empty.
  - eexists. split; [apply lookup_insert_eq|]. done.
Qed.
End LitColumnsScene.

Section LitColumnsInitialize.
Context {F : Type}.
Context `{!Float32 F, !DirectXMath F}.
Implicit Types (a : App F unit LitColumns.Ext).

Variable sceneWorld : nat → XMFLOAT4X4 F.

Lemma set_base_scene d a :
  mAllRitems (set_base d a) = mAllRitems a ∧
  mMaterials (set_base d a) = mMaterials a ∧
  mGeometries (set_base d a) = mGeometries a ∧
  ext (set_base d a) = ext a ∧
  base (set_base d a) = d ∧
  objCBIndex (set_base d a) = objCBIndex a ∧
  mCurrFrameResourceIndex (set_base d a) = mCurrFrameResourceIndex a ∧
  mFrameResources (set_base d a) = mFrameResources a.
Proof. done. Qed.

Lemma LitColumns_Initialize_eq a :
  LitColumns.Initialize sceneWorld a =
  d' ← FlushCommandQueue (base a);
  Some (set_base d' (LitColumns.BuildFrameResources
                       (LitColumns.BuildRenderItems sceneWorld
                          (LitColumns.BuildMaterials (LitColumns.BuildGeometries a))))).
Proof.
  unfold LitColumns.Initialize. cbn zeta.
  destruct (LitColumns_BuildFrameResources_scene
              (LitColumns.BuildRenderItems sceneWorld
                 (LitColumns.BuildMaterials (LitColumns.BuildGeometries a))))
    as (_ & _ & _ & _ & -> & _).
  destruct (LitColumns_BuildRenderItems_rest sceneWorld
              (LitColumns.BuildMaterials (LitColumns.BuildGeometries a)))
    as (_ & _ & _ & _ & _ & -> & _).
  done.
Qed.

(** The state [Initialize] flushes, over the scene [x] that
    [BuildMaterials] leaves. *)
Lemma LitColumns_built_scene x d' :
  LitColumns.scene_ok x → LitColumns.mOpaqueRitems (ext x) = [] →
  mFrameResources x = [] → mCurrFrameResourceIndex x = 0 →
  (∀ n, n ∈ LitColumns.material_names → is_Some (mMaterials x !! n)) →
  size (mMaterials x) = 4%nat →
  is_Some (mGeometries x !! "shapeGeo") →
  all_dirty x →
  let b := set_base d' (LitColumns.BuildFrameResources
                          (LitColumns.BuildRenderItems sceneWorld x)) in
  LitColumns.scene_ok b ∧ LitColumns.scene_registered b ∧
  LitColumns.mOpaqueRitems (ext b) = seq 0 (length (mAllRitems b)) ∧
  mFrameResources b = replicate 3 (FrameResource_new 1 (length (mAllRitems b)) 4 ()) ∧
  mCurrFrameResourceIndex b = 0 ∧ mMaterials b = mMaterials x ∧ base b = d' ∧
  all_dirty b.
Proof.
  intros Hok0 Hl0 Hf0 Hi0 Hm Hs Hg Hd0. cbn zeta.
  pose proof (LitColumns_BuildRenderItems_rest sceneWorld x)
    as (Em & Eg & Ef & Ei & _ & Eb & _).
  pose proof (LitColumns_BuildRenderItems_scene_ok sceneWorld x Hok0) as Hok.
  pose proof (LitColumns_BuildRenderItems_layer sceneWorld x Hl0) as Hlayer.
  pose proof (LitColumns_BuildRenderItems_dirty sceneWorld x Hd0) as Hdirty.
  remember (LitColumns.BuildRenderItems sceneWorld x) as S0 eqn:ES0. clear ES0.
  destruct (LitColumns_BuildFrameResources_scene S0)
    as (Eitems & Emats & Egeos & Eext & Ebase & Eobj & Eidx & Efrs).
  rewrite Ef, Hf0, Em, Hs in Efrs. cbn [app] in Efrs.
  remember (LitColumns.BuildFrameResources S0) as S1 eqn:ES1. clear ES1.
  destruct (set_base_scene d' S1)
    as (Bitems & Bmats & Bgeos & Bext & Bbase & Bobj & Bidx & Bfrs).
  unfold LitColumns.scene_ok, LitColumns.scene_registered, all_dirty.
  rewrite Bitems, Bmats, Bgeos, Bext, Bbase, Bobj, Bidx, Bfrs.
  rewrite Eitems, Emats, Egeos, Eext, Eobj, Eidx, Efrs, Em, Eg, Ei, Hlayer.
  split; [exact Hok|]. split.
  { split; [exact Hm|]. split; [done|].
    apply Forall_forall. intros p Hp. apply elem_of_seq in Hp. lia. }
  split; [done|]. split; [done|]. split; [done|]. split; [done|]. split; [done|].
  destruct Hdirty as [Hdi Hdm]. by rewrite Em in Hdm.
Qed.

(** What [Initialize] of the columns returns. *)
Lemma LitColumns_Initialize_scene d (pc : PassConstants F) :
  d3d_ok d →
  ∃ b, LitColumns.Initialize sceneWorld (LitColumns.LitColumnsApp_new d pc) = Some b ∧
       LitColumns.scene_ok b ∧ LitColumns.scene_registered b ∧
       LitColumns.mOpaqueRitems (ext b) = seq 0 (length (mAllRitems b)) ∧
       mFrameResources b =
         replicate 3 (FrameResource_new 1 (length (mAllRitems b)) 4 ()) ∧
       mCurrFrameResourceIndex b = 0 ∧
       fence_inv (base b) (mFrameResources b) ∧
       mCurrentFence (base b) = mCurrentFence d + 1 ∧
       size (mMaterials b) = 4%nat ∧
       map_Forall (λ _ (m : Material F), (MatCBIndex m < 5)%nat) (mMaterials b) ∧
       (∃ brown, mMaterials b !! "brownMat" = Some brown ∧
                 MatCBIndex brown = 4%nat ∧
                 MatNumFramesDirty brown = gNumFrameResources) ∧
       all_dirty b.
Proof.
  intros Hd.
  destruct (LitColumns_registered_materials
              (LitColumns.BuildGeometries (LitColumns.LitColumnsApp_new d pc)))
    as (Hm & Hs & Hi & Hbrown); [done|].
  destruct (FlushCommandQueue_ok d
              (replicate 3 (FrameResource_new (F:=F) (V:=unit) 1 0 0 ())))
    as (d' & Hflush & _ & Hc & _); [done | apply Forall_replicate; left; apply Hd |].
  assert (Hx : LitColumns.scene_ok
                 (LitColumns.BuildMaterials
                    (LitColumns.BuildGeometries (LitColumns.LitColumnsApp_new d pc)))).
  { unfold LitColumns.scene_ok. cbn.
    split; [done|]. split; [done|]. constructor. }
  destruct (LitColumns_built_scene
              (LitColumns.BuildMaterials
                 (LitColumns.BuildGeometries (LitColumns.LitColumnsApp_new d pc))) d')
    as (Hok & Hreg & Hlayer & Hfrs & Hidx & Emats & Ebase & Hdirty);
    [done | done | done | done | done | done | by eexists | |].
  { apply LitColumns_BuildMaterials_dirty, LitColumns_BuildGeometries_dirty,
      LitColumnsApp_new_dirty. }
  rewrite LitColumns_Initialize_eq.
  change (base (LitColumns.LitColumnsApp_new d pc)) with d.
  rewrite Hflush. cbn [mbind option_bind].
  eexists. split; [done|].
  split; [exact Hok|]. split; [exact Hreg|]. split; [exact Hlayer|].
  split; [exact Hfrs|]. split; [exact Hidx|].
  split.
  { rewrite Ebase, Hfrs.
    destruct (FlushCommandQueue_ok d
                (replicate 3 (FrameResource_new (F:=F) (V:=unit) 1
                   (length (mAllRitems (set_base d'
                      (LitColumns.BuildFrameResources
                         (LitColumns.BuildRenderItems sceneWorld
                            (LitColumns.BuildMaterials
                               (LitColumns.BuildGeometries
                                  (LitColumns.LitColumnsApp_new d pc)))))))) 4 ())))
      as (d'' & Hflush' & Hinv & _); [done | apply Forall_replicate; left; apply Hd |].
    rewrite Hflush in Hflush'. by injection Hflush' as <-. }
  split; [by rewrite Ebase|].
  rewrite Emats.
  split; [exact Hs|]. split; [exact Hi|]. split; [exact Hbrown|]. exact Hdirty.
Qed.

(** Over material buffers of five records the state [Initialize]
    returns is well formed. *)
Lemma LitColumns_widened_wf d (pc : PassConstants F) b :
  d3d_ok d →
  LitColumns.Initialize sceneWorld (LitColumns.LitColumnsApp_new d pc) = Some b →
  LitColumns.wf (LitColumns.widened 5 b) ∧
  NoDup (ObjCBIndex <$> mAllRitems (LitColumns.widened 5 b)).
Proof.
  intros Hd Hb.
  destruct (LitColumns_Initialize_scene d pc Hd)
    as (b' & Hb' & (Hn & Hidx & Hreg) & (Hmats & Hgeo & Hlayer) & _ & Hfrs & Hi &
        Hinv & _ & _ & Hmi & _).
  rewrite Hb in Hb'. injection Hb' as <-.
  unfold LitColumns.widened. split; [|st_cbn; rewrite Hidx; apply NoDup_seq].
  unfold LitColumns.wf, ring_ok, indices_in_range, drawable. st_cbn.
  rewrite Hfrs, fmap_replicate.
  split; [|split; [|split]].
  - split; [done | rewrite Hi; done].
  - apply Forall_replicate. unfold FrameResource_new, UploadBuffer_new.
    cbn [PassCB ObjectCB MaterialCB set_MaterialCB]. rewrite !length_replicate.
    split; [lia|]. split; [|done].
    apply Forall_forall. intros e He.
    assert (Hin : ObjCBIndex e ∈ ObjCBIndex <$> mAllRitems b)
      by (by apply list_elem_of_fmap_2).
    rewrite Hidx in Hin. apply elem_of_seq in Hin. lia.
  - destruct Hinv as (H0 & Hs & Hbd & _). split; [done|]. split; [done|].
    split; [done|]. apply Forall_replicate. by left.
  - eapply Forall_impl; [exact Hlayer|]. cbn. intros q Hq.
    destruct (lookup_lt_is_Some_2 _ _ Hq) as [ri Hri].
    exists ri. split; [done|].
    rewrite Forall_forall in Hreg.
    destruct (Hreg ri) as [Hm Hg]; [by eapply list_elem_of_lookup_2|].
    rewrite Hg. split; [done | by apply Hmats].
Qed.
End LitColumnsInitialize.

Section C4.
Context {F C W : Type}.
Context `{!Float32 F, !DirectXMath F, !CameraOps F C, !WavesOps F W}.

(** C4.  In the castle every index handed to a record write is
    inside its buffer when [Initialize] returns: the object indices
    are below the number of render items and the material indices
    below the number of materials, the counts the frame resources are
    made with.  In the columns the object indices are in range too,
    but [BuildMaterials] gives the material [brownMat] the index 4
    while the frame resources have material buffers of
    [mMaterials.size()], that is 4, records; the first [Update],
    whatever its input, writes this material out of range and does not
    return. *)
Theorem C4_brownMat_index_out_of_range (sceneA sceneB : nat → XMFLOAT4X4 F)
    (d : D3DApp) (c : C) (w : W) (pc : PassConstants F) (i : FrameInput F) :
  d3d_ok d →
  (∃ a, Castle.Initialize sceneA (Castle.CastleApp_new d c w pc) = Some a ∧
        indices_in_range a) ∧
  (∃ b brown,
     LitColumns.Initialize sceneB (LitColumns.LitColumnsApp_new d pc) = Some b ∧
     Forall (λ fr, Forall (λ e, (ObjCBIndex e < length (ObjectCB fr))%nat) (mAllRitems b))
            (mFrameResources b) ∧
     mMaterials b !! "brownMat" = Some brown ∧ MatCBIndex brown = 4%nat ∧
     size (mMaterials b) = 4%nat ∧
     Forall (λ fr, length (MaterialCB fr) = 4%nat) (mFrameResources b) ∧
     ¬ indices_in_range b ∧
     LitColumns.Update i b = None).
Proof.
  intros Hd. split.
  - destruct (Castle_Initialize_wf sceneA d c w pc Hd) as (a & Ha & (_ & Hi & _) & _).
    by exists a.
  - destruct (LitColumns_Initialize_scene sceneB d pc Hd)
      as (b & Hb & (Hn & Hidx & Hreg) & (Hmats & Hgeo & Hlayer) & _ & Hfrs & Hi &
          Hinv & _ & Hsize & Hmi & (brown & Hbrown & Hbi & Hbd) & _).
    exists b, brown. split; [done|].
    assert (Hlen : Forall (λ fr : FrameResource F unit, length (MaterialCB fr) = 4%nat)
                          (mFrameResources b)).
    { rewrite Hfrs. apply Forall_replicate. unfold FrameResource_new, UploadBuffer_new.
      cbn [MaterialCB]. by rewrite length_replicate. }
    split; [|split; [done|split; [done|split; [|split; [done|split]]]]].
    + rewrite Hfrs. apply Forall_replicate. unfold FrameResource_new, UploadBuffer_new.
      cbn [ObjectCB]. rewrite length_replicate.
      apply Forall_forall. intros e He.
      assert (Hin : ObjCBIndex e ∈ ObjCBIndex <$> mAllRitems b)
        by (by apply list_elem_of_fmap_2).
      rewrite Hidx in Hin. apply elem_of_seq in Hin. lia.
    + done.
    + intros Hin. unfold indices_in_range in Hin.
      rewrite Forall_forall in Hin, Hlen.
      destruct (lookup_lt_is_Some_2 (mFrameResources b) 0) as [fr Hfr].
      { rewrite Hfrs, length_replicate. lia. }
      apply list_elem_of_lookup_2 in Hfr.
      destruct (Hin fr Hfr) as (_ & _ & Hm).
      specialize (Hm "brownMat" brown Hbrown). cbn in Hm.
      rewrite (Hlen fr Hfr) in Hm. lia.
    + destruct (LitColumns.Update i b) as [b'|] eqn:Hu; [exfalso|done].
      apply LitColumns_Update_bounds in Hu as (fr & Hfr & Hbound).
      specialize (Hbound "brownMat" brown Hbrown).
      rewrite Forall_forall in Hlen.
      rewrite (Hlen fr) in Hbound by (by eapply list_elem_of_lookup_2).
      rewrite Hbd, Hbi in Hbound. unfold gNumFrameResources in Hbound. lia.
Qed.
End C4.

(** ** What the update pass leaves alone *)

Section Kept.
Context {F V X : Type}.
Implicit Types (a : App F V X).

Lemma Forall2_tick (items : list (RenderItem F)) :
  Forall2 same_item items (tick <$> items).
Proof.
  induction items as [|e items IH]; [constructor|].
  constructor; [apply tick_same | exact IH].
Qed.

Lemma Forall2_same_item_refl (items : list (RenderItem F)) :
  Forall2 same_item items items.
Proof. induction items; by constructor. Qed.

Lemma materials_tick (mats : gmap string (Material F)) n :
  option_Forall2 same_material (mats !! n) ((tickMat <$> mats) !! n).
Proof.
  rewrite lookup_fmap. destruct (mats !! n) as [m|]; constructor.
  apply tickMat_same.
Qed.

Lemma materials_refl (mats : gmap string (Material F)) n :
  option_Forall2 same_material (mats !! n) (mats !! n).
Proof. destruct (mats !! n); by constructor. Qed.

Lemma UpdateObjectCBs_kept a a' : UpdateObjectCBs a = Some a' → scene_kept a a'.
Proof.
  intros H. apply UpdateObjectCBs_inv in H as (slot & fr & _ & _ & ->).
  split; [apply Forall2_tick | apply materials_refl].
Qed.

Lemma UpdateMaterialCBs_kept a a' : UpdateMaterialCBs a = Some a' → scene_kept a a'.
Proof.
  intros H. apply UpdateMaterialCBs_inv in H as (slot & fr & _ & _ & ->).
  split; [apply Forall2_same_item_refl | apply materials_tick].
Qed.

Lemma CycleFrameResources_kept progress a a' :
  CycleFrameResources progress a = Some a' →
  mAllRitems a' = mAllRitems a ∧ mMaterials a' = mMaterials a.
Proof.
  intros H. apply CycleFrameResources_inv in H as (fr & blocked & g' & _ & _ & _ & _ & ->).
  done.
Qed.
End Kept.

Section C9.
Context {F C W : Type}.
Context `{!Float32 F, !DirectXMath F, !CameraOps F C, !WavesOps F W}.
Context `{!WavesLawful F W}.

(** C9.  [UpdateObjectCBs] and [UpdateMaterialCBs], in either
    application, change of a render item or a material the dirty
    counter at most; the ring advance changes no item and no
    material.  [Update] of the columns as a whole does the same.
    [Update] of the castle does so for every render item and for
    every material but the one under the key "water", of which
    [AnimateMaterials] rewrites, besides the counter, the entries
    (3, 0) and (3, 1) of [MatTransform]. *)
Theorem C9_update_changes_counters_and_water_only (i : FrameInput F)
    (a : App F (list (option (Vertex F))) (Castle.Ext F C W))
    (b : App F unit LitColumns.Ext) :
  Castle.wf a → LitColumns.wf b →
  (∃ a', Castle.Update i a = Some a' ∧ Castle.scene_kept_but_water a a') ∧
  (∃ b', LitColumns.Update i b = Some b' ∧ scene_kept b b') ∧
  (∀ a1 a2 : App F (list (option (Vertex F))) (Castle.Ext F C W),
     (UpdateObjectCBs a1 = Some a2 → scene_kept a1 a2) ∧
     (UpdateMaterialCBs a1 = Some a2 → scene_kept a1 a2) ∧
     (CycleFrameResources (gpu_progress i) a1 = Some a2 →
      mAllRitems a2 = mAllRitems a1 ∧ mMaterials a2 = mMaterials a1)) ∧
  (∀ b1 b2 : App F unit LitColumns.Ext,
     (UpdateObjectCBs b1 = Some b2 → scene_kept b1 b2) ∧
     (UpdateMaterialCBs b1 = Some b2 → scene_kept b1 b2) ∧
     (CycleFrameResources (gpu_progress i) b1 = Some b2 →
      mAllRitems b2 = mAllRitems b1 ∧ mMaterials b2 = mMaterials b1)).
Proof.
  intros Hwa Hwb.
  split; [|split; [|split]].
  - destruct (Castle_Update_total i a Hwa) as [a' H]. exists a'. split; [done|].
    apply Castle_Update_inv in H
      as (fr & water & p & ri & blocked & g' & (_ & _ & Hw & _) &
          _ & _ & _ & _ & _ & _ & Em & Ei & _).
    cbn zeta in Em. split; [|split].
    + rewrite Ei. apply Forall2_tick.
    + intros n Hn. rewrite Em, lookup_fmap, lookup_insert_ne by done.
      destruct (mMaterials a !! n) as [m|]; constructor. apply tickMat_same.
    + rewrite Em, lookup_fmap, lookup_insert_eq, Hw. constructor.
      eexists _, _. unfold Castle.scrollWater. cbn zeta.
      unfold same_material, tickMat. by case_decide.
  - destruct (LitColumns_Update_total i b Hwb) as [b' H]. exists b'. split; [done|].
    apply LitColumns_Update_inv in H
      as (fr & blocked & g' & _ & _ & _ & _ & _ & _ & _ & Em & Ei & _).
    split.
    + rewrite Ei. apply Forall2_tick.
    + intros n. rewrite Em. apply materials_tick.
  - intros a1 a2. split; [apply UpdateObjectCBs_kept|].
    split; [apply UpdateMaterialCBs_kept | apply CycleFrameResources_kept].
  - intros b1 b2. split; [apply UpdateObjectCBs_kept|].
    split; [apply UpdateMaterialCBs_kept | apply CycleFrameResources_kept].
Qed.
End C9.

(** * Further properties of the frame loop *)

(** ** When the passes and [DrawRenderItems] return *)

Section Returns.
Context {F V X : Type}.
Implicit Types (a : App F V X).

Lemma UpdateObjectCBs_loop_returns slot (items : list (RenderItem F)) cb log :
  is_Some (UpdateObjectCBs_loop slot items cb log) ↔ dirty_items_fit items cb.
Proof.
  unfold dirty_items_fit. revert cb log.
  induction items as [|e items IH]; intros cb log.
  { split; [constructor | by eexists]. }
  cbn [UpdateObjectCBs_loop]. rewrite Forall_cons.
  destruct (decide (0 < NumFramesDirty e)) as [Hd|Hd].
  - unfold CopyData. destruct (decide (ObjCBIndex e < length cb)%nat) as [Hlt|Hge].
    + cbn [mbind option_bind].
      specialize (IH (<[ObjCBIndex e := Some (objConstants e)]> cb)
                     (E_CopyObject slot (ObjCBIndex e) (objConstants e) :: log)).
      rewrite length_insert in IH.
      destruct (UpdateObjectCBs_loop slot items _ _) as [[[r c] l]|]; cbn.
      * split; [intros _ | by eexists]. split; [done|]. apply IH. by eexists.
      * split; [by intros [? ?] | intros [_ H]]. by apply IH in H.
    + cbn. split; [by intros [? ?] | intros [H _]]. by specialize (H Hd).
  - specialize (IH cb log).
    destruct (UpdateObjectCBs_loop slot items cb log) as [[[r c] l]|]; cbn.
    + split; [intros _ | by eexists]. split; [intros; lia|]. apply IH. by eexists.
    + split; [by intros [? ?] | intros [_ H]]. by apply IH in H.
Qed.

Lemma UpdateMaterialCBs_loop_returns slot (entries : list (string * Material F))
    mats cb log :
  is_Some (UpdateMaterialCBs_loop slot entries mats cb log) ↔
  Forall (λ e, 0 < MatNumFramesDirty e.2 → (MatCBIndex e.2 < length cb)%nat) entries.
Proof.
  revert mats cb log.
  induction entries as [|[key m] entries IH]; intros mats cb log.
  { split; [constructor | by eexists]. }
  cbn [UpdateMaterialCBs_loop]. rewrite Forall_cons. cbn [fst snd].
  destruct (decide (0 < MatNumFramesDirty m)) as [Hd|Hd].
  - unfold CopyData. destruct (decide (MatCBIndex m < length cb)%nat) as [Hlt|Hge].
    + cbn [mbind option_bind]. rewrite IH, length_insert. tauto.
    + cbn. split; [by intros [? ?] | intros [H _]]. by specialize (H Hd).
  - rewrite IH. split; [intros H; split; [intros; lia | done] | by intros [_ H]].
Qed.

Lemma UpdateObjectCBs_returns a :
  is_Some (UpdateObjectCBs a) ↔
  ∃ slot fr, mCurrFrameResource a = Some slot ∧ mFrameResources a !! slot = Some fr ∧
             dirty_items_fit (mAllRitems a) (ObjectCB fr).
Proof.
  unfold UpdateObjectCBs. split.
  - intros [a' H].
    destruct (mCurrFrameResource a) as [slot|]; [|done]. cbn in H.
    destruct (mFrameResources a !! slot) as [fr|] eqn:Hfr; [|done]. cbn in H.
    exists slot, fr. split; [done|]. split; [done|].
    apply (UpdateObjectCBs_loop_returns slot _ _ (mLog a)).
    destruct (UpdateObjectCBs_loop _ _ _ _); [by eexists | done].
  - intros (slot & fr & -> & Hfr & Hfit). cbn. rewrite Hfr. cbn.
    apply (UpdateObjectCBs_loop_returns slot _ _ (mLog a)) in Hfit as [[[r c] l] ->].
    by eexists.
Qed.

Lemma UpdateMaterialCBs_returns a :
  is_Some (UpdateMaterialCBs a) ↔
  ∃ slot fr, mCurrFrameResource a = Some slot ∧ mFrameResources a !! slot = Some fr ∧
             dirty_materials_fit (mMaterials a) (MaterialCB fr).
Proof.
  unfold UpdateMaterialCBs, dirty_materials_fit. split.
  - intros [a' H].
    destruct (mCurrFrameResource a) as [slot|]; [|done]. cbn in H.
    destruct (mFrameResources a !! slot) as [fr|] eqn:Hfr; [|done]. cbn in H.
    exists slot, fr. split; [done|]. split; [done|].
    apply map_Forall_to_list.
    assert (Hl : is_Some (UpdateMaterialCBs_loop slot (map_to_list (mMaterials a))
                            (mMaterials a) (MaterialCB fr) (mLog a))).
    { destruct (UpdateMaterialCBs_loop _ _ _ _ _); [by eexists | done]. }
    apply UpdateMaterialCBs_loop_returns in Hl.
    eapply Forall_impl; [exact Hl|]. by intros [k m].
  - intros (slot & fr & -> & Hfr & Hfit). cbn. rewrite Hfr. cbn.
    apply map_Forall_to_list in Hfit.
    assert (Hl : is_Some (UpdateMaterialCBs_loop slot (map_to_list (mMaterials a))
                            (mMaterials a) (MaterialCB fr) (mLog a))).
    { apply UpdateMaterialCBs_loop_returns.
      eapply Forall_impl; [exact Hfit|]. by intros [k m]. }
    destruct Hl as [[[r c] l] ->]. by eexists.
Qed.

Lemma DrawRenderItems_spec a ritems calls :
  DrawRenderItems a ritems = Some calls ↔ Forall2 (draws a) ritems calls.
Proof.
  revert calls. induction ritems as [|p ritems IH]; intros calls.
  { cbn. split; [intros [= <-]; constructor | intros H; by inversion H]. }
  cbn [DrawRenderItems]. split.
  - intros H.
    apply bind_Some in H as (ri & Hri & H).
    apply bind_Some in H as (geo & Hgeo & H).
    apply bind_Some in H as (mat & Hmat & H).
    apply bind_Some in H as (rest & Hrest & H).
    injection H as <-. constructor; [by exists ri, geo, mat | by apply IH].
  - intros H. inversion H as [|p' c ritems' rest (ri & geo & mat & Hri & Hgeo & Hmat & ->) Hrest];
      subst.
    rewrite Hri. cbn. rewrite Hgeo. cbn. rewrite Hmat. cbn.
    apply IH in Hrest. rewrite Hrest. done.
Qed.

Lemma DrawRenderItems_returns a ritems :
  is_Some (DrawRenderItems a ritems) ↔ drawable a ritems.
Proof.
  split; [|apply DrawRenderItems_total].
  intros [calls H]. apply DrawRenderItems_spec in H.
  unfold drawable. induction H as [|p c ritems calls (ri & geo & mat & ? & ? & ? & _) _ IH];
    constructor; [|done].
  exists ri. split; [done|]. split; by eexists.
Qed.
End Returns.

(** ** What [Update] writes and what [Draw] leaves alone *)

Section Slots.
Context {F V X : Type}.
Implicit Types (a : App F V X).

Lemma only_current_written_intro progress a a' fr fr' (blocked : bool) (g' : Z * list Z) :
  let g := gpu_run progress (mFence (base a)) (mCommandQueue (base a)) in
  fence_inv (base a) (mFrameResources a) →
  mFrameResources a !! next_slot a = Some fr →
  (blocked = true ↔ Fence fr ≠ 0 ∧ g.1 < Fence fr) →
  (if blocked then WaitForFence (Fence fr) g.1 g.2 = Some g' else g' = g) →
  base a' = set_gpu g' (base a) →
  mFrameResources a' = <[next_slot a := fr']> (mFrameResources a) →
  Fence fr' = Fence fr →
  only_current_written a a'.
Proof.
  cbn zeta. intros (H0 & Hs & _) Hfr Hb Hg' Ebase Efrs Ef.
  unfold only_current_written. cbn zeta. rewrite Efrs, Ebase.
  split; [by rewrite length_insert|].
  split; [intros s Hs'; by rewrite list_lookup_insert_ne|].
  exists fr, fr'. split; [done|]. split.
  { apply list_lookup_insert_eq. by eapply lookup_lt_Some. }
  split; [done|]. cbn.
  destruct (cycle_polled progress (base a) (Fence fr) blocked g' Hs Hg') as [Hp1 Hp2].
  destruct (cycle_outcome (F := F) progress (mFence (base a)) (mCommandQueue (base a))
              (Fence fr) blocked g' Hb Hg') as [_ Hm].
  destruct (decide (Fence fr = 0)) as [->|Hne]; [lia | by apply Hm].
Qed.

Lemma Draw_submit_effect calls a a' : Draw_submit calls a = Some a' → draw_effect a a'.
Proof.
  intros H. apply Draw_submit_inv in H as (slot & fr & Hcur & Hfr & E).
  cbn zeta in E. subst a'. unfold draw_effect. st_cbn.
  repeat (split; [done|]). split; [|split; [|done]].
  - apply Forall2_flip.
    eapply (Forall2_insert_same (flip same_buffers)); [by intros ? | exact Hfr | done].
  - intros s Hs. apply list_lookup_insert_ne. intros ->. by rewrite Hcur in Hs.
Qed.
End Slots.

Section UpdateAndDraw.
Context {F C W : Type}.
Context `{!Float32 F, !DirectXMath F, !CameraOps F C, !WavesOps F W}.
Context `{!WavesLawful F W}.

(** X1.  [UpdateObjectCBs] returns exactly when the current frame
    resource exists and the index of every dirty render item lies
    inside its object buffer, and [UpdateMaterialCBs] exactly when
    the index of every dirty material lies inside its material
    buffer: the index of a clean item or material is not used. *)
Theorem constant_passes_return_iff_dirty_indices_fit {V X : Type} (a : App F V X) :
  (is_Some (UpdateObjectCBs a) ↔
   ∃ slot fr, mCurrFrameResource a = Some slot ∧ mFrameResources a !! slot = Some fr ∧
              dirty_items_fit (mAllRitems a) (ObjectCB fr)) ∧
  (is_Some (UpdateMaterialCBs a) ↔
   ∃ slot fr, mCurrFrameResource a = Some slot ∧ mFrameResources a !! slot = Some fr ∧
              dirty_materials_fit (mMaterials a) (MaterialCB fr)).
Proof.
  split.
  - apply UpdateObjectCBs_returns.
  - apply UpdateMaterialCBs_returns.
Qed.

(** X2.  [DrawRenderItems] returns the draw calls of the entries of a
    layer, one for each entry and in the order of the layer, each
    with the vertex buffer, topology, object index, material index
    and draw arguments of its item; it returns exactly when every
    entry points at an item whose geometry and material exist. *)
Theorem DrawRenderItems_one_call_per_entry {V X : Type} (a : App F V X)
    (ritems : list nat) :
  (∀ calls, DrawRenderItems a ritems = Some calls ↔ Forall2 (draws a) ritems calls) ∧
  (is_Some (DrawRenderItems a ritems) ↔ drawable a ritems).
Proof.
  split.
  - intros calls. apply DrawRenderItems_spec.
  - apply DrawRenderItems_returns.
Qed.

(** X3.  On a well-formed state [Update], of either application,
    writes into the frame resource the ring advance selects and into
    no other, keeps the marker of the one it selects, and that marker
    is completed when [Update] returns. *)
Theorem Update_writes_only_the_selected_slot (i : FrameInput F)
    (a : App F (list (option (Vertex F))) (Castle.Ext F C W))
    (b : App F unit LitColumns.Ext) :
  Castle.wf a → LitColumns.wf b →
  (∃ a', Castle.Update i a = Some a' ∧ only_current_written a a') ∧
  (∃ b', LitColumns.Update i b = Some b' ∧ only_current_written b b').
Proof.
  intros Hwa Hwb. split.
  - destruct (Castle_Update_total i a Hwa) as [a' H]. exists a'. split; [done|].
    apply Castle_Update_inv in H
      as (fr & water & p & ri & blocked & g' & (_ & Hfr & _) & (Hb & Hg') & Ebase & Efrs & _).
    cbn zeta in *.
    eapply (only_current_written_intro (gpu_progress i) a a' fr _ blocked g');
      [apply Hwa | exact Hfr | exact Hb | exact Hg' | exact Ebase | exact Efrs | done].
  - destruct (LitColumns_Update_total i b Hwb) as [b' H]. exists b'. split; [done|].
    apply LitColumns_Update_inv in H
      as (fr & blocked & g' & (_ & Hfr & _) & (Hb & Hg') & Ebase & Efrs & _).
    cbn zeta in *.
    eapply (only_current_written_intro (gpu_progress i) b b' fr _ blocked g');
      [apply Hwb | exact Hfr | exact Hb | exact Hg' | exact Ebase | exact Efrs | done].
Qed.

(** X4.  [Draw], of either application, when it returns, leaves the
    render items, the materials, the geometries, the pass constants
    and every buffer of every frame resource as they are; of the
    frame resources it changes the current one only (its marker),
    and the back buffer index goes to the other back buffer. *)
Theorem Draw_leaves_scene_and_buffers (i : FrameInput F) :
  (∀ a a' : App F (list (option (Vertex F))) (Castle.Ext F C W),
     Castle.Draw i a = Some a' → draw_effect a a') ∧
  (∀ b b' : App F unit LitColumns.Ext,
     LitColumns.Draw i b = Some b' → draw_effect b b').
Proof.
  split.
  - intros a a' H. apply Castle_Draw_inv in H as [calls H].
    by eapply Draw_submit_effect.
  - intros b b' H. apply LitColumns_Draw_inv in H as [calls H].
    by eapply Draw_submit_effect.
Qed.
End UpdateAndDraw.

(** ** Every render item is drawn once in a frame *)

Section DrawOrder.
Context {F V X : Type}.
Implicit Types (a : App F V X).

Lemma draws_indices a order calls :
  indexed a → Forall2 (draws a) order calls → dc_ObjCBIndex <$> calls = order.
Proof.
  intros Hidx H.
  induction H as [|p c order calls (ri & geo & mat & Hri & _ & _ & ->) _ IH]; [done|].
  cbn. f_equal; [|done].
  assert (E : (ObjCBIndex <$> mAllRitems a) !! p = Some (ObjCBIndex ri)).
  { by rewrite list_lookup_fmap, Hri. }
  unfold indexed in Hidx. rewrite Hidx in E. apply lookup_seq in E as [E _]. done.
Qed.

Lemma indexed_tick a a' :
  mAllRitems a' = tick <$> mAllRitems a → indexed a → indexed a'.
Proof.
  unfold indexed. intros -> H. by rewrite tick_indices, length_fmap.
Qed.

Lemma Draw_submit_submitted calls a a' :
  Draw_submit calls a = Some a' → submitted a a' calls.
Proof.
  intros H. apply Draw_submit_inv in H as (slot & fr & Hcur & Hfr & E).
  cbn zeta in E. subst a'. exists slot. by st_cbn.
Qed.
End DrawOrder.

Section CastleDrawOrder.
Context {F C W : Type}.
Context `{!Float32 F, !DirectXMath F, !CameraOps F C, !WavesOps F W}.
Implicit Types (a : App F (list (option (Vertex F))) (Castle.Ext F C W))
               (i : FrameInput F).

Variable sceneWorld : nat → XMFLOAT4X4 F.

Lemma Castle_Draw_order i a a' :
  Castle.Draw i a = Some a' →
  ∃ calls, Forall2 (draws a) (Castle.draw_order a) calls ∧ Draw_submit calls a = Some a'.
Proof.
  intros H. apply Castle_Draw_layers in H as (c1 & c2 & c3 & c4 & H1 & H2 & H3 & H4 & H).
  exists (c1 ++ c2 ++ c3 ++ c4). split; [|done].
  apply DrawRenderItems_spec in H1, H2, H3, H4.
  unfold Castle.draw_order. by repeat apply Forall2_app.
Qed.

Lemma Castle_newRenderItem_order layer prim mat geo args a :
  Castle.draw_order a ≡ₚ seq 0 (length (mAllRitems a)) →
  Castle.draw_order (Castle.newRenderItem sceneWorld layer prim mat geo args a)
  ≡ₚ seq 0 (length (mAllRitems (Castle.newRenderItem sceneWorld layer prim mat geo args a))).
Proof.
  intros H. unfold Castle.draw_order, Castle.newRenderItem in *. st_cbn.
  rewrite length_app, seq_app. cbn [length seq Nat.add]. rewrite <- H.
  destruct layer; repeat case_decide; try done; rewrite ?app_nil_r; solve_Permutation.
Qed.

Lemma Castle_BuildRenderItems_order a :
  Castle.draw_order a ≡ₚ seq 0 (length (mAllRitems a)) →
  Castle.draw_order (Castle.BuildRenderItems sceneWorld a)
  ≡ₚ seq 0 (length (mAllRitems (Castle.BuildRenderItems sceneWorld a))).
Proof.
  apply (Castle_BuildRenderItems_keeps sceneWorld
           (λ a, Castle.draw_order a ≡ₚ seq 0 (length (mAllRitems a)))).
  - intros. by apply Castle_newRenderItem_order.
  - intros a0 H. unfold Castle.BuildWaves. cbn zeta.
    apply Castle_newRenderItem_order. exact H.
Qed.
End CastleDrawOrder.

Section DrawnOnce.
Context {F C W : Type}.
Context `{!Float32 F, !DirectXMath F, !CameraOps F C, !WavesOps F W}.
Context `{!WavesLawful F W}.

(** X5.  In a frame of either application, on a well-formed state
    whose layers hold every render item once, [Draw] submits one
    draw call for every render item: in the castle in the order
    opaque, alpha tested, tree sprites, transparent of the layers,
    in the columns demo in the order of the items; and the layers
    hold every item once after the frame as well. *)
Theorem every_item_drawn_once_per_frame (i : FrameInput F)
    (a : App F (list (option (Vertex F))) (Castle.Ext F C W))
    (b : App F unit LitColumns.Ext) :
  Castle.wf a → Castle.drawn_once a → LitColumns.wf b → LitColumns.drawn_once b →
  (∃ a1 a' calls,
     Castle.Update i a = Some a1 ∧ Castle.Draw i a1 = Some a' ∧
     submitted a1 a' calls ∧
     Forall2 (draws a1) (Castle.draw_order a) calls ∧
     dc_ObjCBIndex <$> calls = Castle.draw_order a ∧
     dc_ObjCBIndex <$> calls ≡ₚ seq 0 (length (mAllRitems a)) ∧
     Castle.drawn_once a') ∧
  (∃ b1 b' calls,
     LitColumns.Update i b = Some b1 ∧ LitColumns.Draw i b1 = Some b' ∧
     submitted b1 b' calls ∧
     Forall2 (draws b1) (seq 0 (length (mAllRitems b))) calls ∧
     dc_ObjCBIndex <$> calls = seq 0 (length (mAllRitems b)) ∧
     LitColumns.drawn_once b').
Proof.
  intros Hwa [Hia Hoa] Hwb [Hib Hob]. split.
  - destruct (Castle_Update_total i a Hwa) as [a1 H1].
    pose proof (Castle_Update_wf i a a1 Hwa H1) as Hwf1.
    pose proof H1 as Hinv. apply Castle_Update_inv in Hinv
      as (fr & water & p & ri & blocked & g' & (_ & Hfr & _) & _ & _ & Efrs & Ecur &
          _ & _ & _ & Eitems & _ & Eext & _).
    cbn zeta in *.
    destruct (Castle_Draw_total i a1 _ Ecur) as [a' H2].
    { rewrite Efrs. apply lookup_lt_is_Some. rewrite length_insert.
      by eapply lookup_lt_Some. }
    { apply Hwf1. }
    destruct (Castle_Draw_order i a1 a' H2) as (calls & Hcalls & Hsub).
    assert (Eord : Castle.draw_order a1 = Castle.draw_order a).
    { unfold Castle.draw_order. by rewrite Eext. }
    assert (Hi1 : indexed a1) by (by eapply indexed_tick).
    assert (Elen : length (mAllRitems a1) = length (mAllRitems a)).
    { by rewrite Eitems, length_fmap. }
    pose proof (draws_indices a1 _ _ Hi1 Hcalls) as Ecalls.
    destruct (Draw_submit_effect _ _ _ Hsub) as (Ei' & _ & _ & Ee' & _).
    exists a1, a', calls. rewrite <- Eord.
    split; [done|]. split; [done|]. split; [by eapply Draw_submit_submitted|].
    split; [done|]. split; [done|]. split; [by rewrite Ecalls, Eord, Hoa|].
    unfold Castle.drawn_once, indexed, Castle.draw_order. rewrite Ei', Ee'.
    split; [exact Hi1|]. fold (Castle.draw_order a1). by rewrite Eord, Elen.
  - destruct (LitColumns_Update_total i b Hwb) as [b1 H1].
    pose proof (LitColumns_Update_wf i b b1 Hwb H1) as Hwf1.
    pose proof H1 as Hinv. apply LitColumns_Update_inv in Hinv
      as (fr & blocked & g' & (_ & Hfr & _) & _ & _ & Efrs & Ecur &
          _ & _ & _ & Eitems & _ & Eext & _).
    cbn zeta in *.
    destruct (LitColumns_Draw_total i b1 _ Ecur) as [b' H2].
    { rewrite Efrs. apply lookup_lt_is_Some. rewrite length_insert.
      by eapply lookup_lt_Some. }
    { apply Hwf1. }
    pose proof H2 as Hd. unfold LitColumns.Draw in Hd.
    apply bind_Some in Hd as (slot & _ & Hd).
    apply bind_Some in Hd as (calls & Hcalls & Hsub).
    apply DrawRenderItems_spec in Hcalls. rewrite Eext, Hob in Hcalls.
    assert (Hi1 : indexed b1) by (by eapply indexed_tick).
    assert (Elen : length (mAllRitems b1) = length (mAllRitems b)).
    { by rewrite Eitems, length_fmap. }
    pose proof (draws_indices b1 _ _ Hi1 Hcalls) as Ecalls.
    destruct (Draw_submit_effect _ _ _ Hsub) as (Ei' & _ & _ & Ee' & _).
    exists b1, b', calls.
    split; [done|]. split; [done|]. split; [by eapply Draw_submit_submitted|].
    split; [done|]. split; [done|].
    unfold LitColumns.drawn_once, indexed. rewrite Ei', Ee', Eext, Hob.
    split; [exact Hi1 | by rewrite Elen].
Qed.
End DrawnOnce.

(** ** What [Initialize] leaves for the first frame *)

Section Flushed.
Lemma sorted_NoDup (l : list Z) : StronglySorted Z.lt l → NoDup l.
Proof.
  induction 1 as [|x l _ IH Hx]; constructor; [|done].
  intros Hin. rewrite Forall_forall in Hx. specialize (Hx x Hin). lia.
Qed.

Lemma FlushCommandQueue_flushed (d d' : D3DApp) :
  d3d_ok d → FlushCommandQueue d = Some d' →
  mCommandQueue d' = [] ∧ mFence d' = mCurrentFence d'.
Proof.
  intros Hd H.
  destruct (FlushCommandQueue_ok (F:=unit) (V:=unit) d [] Hd)
    as (d'' & H' & (_ & Hs & Hb & _) & Hc & Hle & _); [constructor|].
  rewrite H in H'. injection H' as <-.
  apply Forall_cons in Hb as [Hb1 Hb2].
  apply StronglySorted_inv in Hs as [_ Hs].
  assert (E : mFence d' = mCurrentFence d') by lia.
  split; [|done].
  destruct (mCommandQueue d') as [|v q]; [done|].
  apply Forall_cons in Hb2 as [? _]. apply Forall_cons in Hs as [? _]. lia.
Qed.
End Flushed.

Section InitializeIdle.
Context {F C W : Type}.
Context `{!Float32 F, !DirectXMath F, !CameraOps F C, !WavesOps F W}.

Variable sceneWorld : nat → XMFLOAT4X4 F.

Lemma Castle_built_idle (x : App F (list (option (Vertex F))) (Castle.Ext F C W)) d' :
  indexed x → Castle.draw_order x ≡ₚ seq 0 (length (mAllRitems x)) →
  mFrameResources x = [] → mCurrFrameResourceIndex x = 0 → mCurrFrameResource x = None →
  mCommandQueue d' = [] → mFence d' = mCurrentFence d' →
  Castle.drawn_once (set_base d' (Castle.BuildFrameResources x)) ∧
  idle (set_base d' (Castle.BuildFrameResources x)).
Proof.
  intros Hi Ho Hf Hx Hc Hq He. rewrite Castle_BuildFrameResources_eq, Hf. cbn [app].
  unfold Castle.drawn_once, idle, indexed, Castle.draw_order in *. st_cbn.
  split; [done|]. split; [done|]. split; [done|]. split; [|done].
  by apply Forall_replicate.
Qed.

Lemma Castle_Initialize_idle d (c : C) (w : W) (pc : PassConstants F) a :
  d3d_ok d →
  Castle.Initialize sceneWorld (Castle.CastleApp_new d c w pc) = Some a →
  Castle.drawn_once a ∧ idle a.
Proof.
  intros Hd H. apply Castle_Initialize_inv in H as (d' & Hflush & ->).
  pose proof (Castle_BuildRenderItems_rest sceneWorld
                (Castle.BuildMaterials (Castle.BuildGeometries
                   (Castle.CastleApp_new d c w pc))))
    as (_ & _ & Ef & Ei & Ec & Eb & _).
  assert (Hok : Castle.scene_ok (Castle.BuildRenderItems sceneWorld
                  (Castle.BuildMaterials (Castle.BuildGeometries
                     (Castle.CastleApp_new d c w pc))))).
  { apply Castle_BuildRenderItems_scene_ok. unfold Castle.scene_ok. cbn.
    split; [done|]. split; [done|]. split; [constructor|]. split; [|done].
    intros l. constructor. }
  assert (Hord : Castle.draw_order (Castle.BuildRenderItems sceneWorld
                   (Castle.BuildMaterials (Castle.BuildGeometries
                      (Castle.CastleApp_new d c w pc))))
                 ≡ₚ seq 0 (length (mAllRitems (Castle.BuildRenderItems sceneWorld
                      (Castle.BuildMaterials (Castle.BuildGeometries
                         (Castle.CastleApp_new d c w pc))))))).
  { apply Castle_BuildRenderItems_order. done. }
  destruct (Castle_BuildFrameResources_scene
              (Castle.BuildRenderItems sceneWorld
                 (Castle.BuildMaterials (Castle.BuildGeometries
                    (Castle.CastleApp_new d c w pc))))) as (_ & _ & _ & _ & Ebase).
  rewrite Ebase, Eb in Hflush.
  change (base (Castle.BuildMaterials (Castle.BuildGeometries
            (Castle.CastleApp_new d c w pc)))) with d in Hflush.
  destruct (FlushCommandQueue_flushed d d' Hd Hflush) as [Hq He].
  remember (Castle.BuildRenderItems sceneWorld
              (Castle.BuildMaterials (Castle.BuildGeometries
                 (Castle.CastleApp_new d c w pc)))) as S0 eqn:ES0.
  clear ES0. apply Castle_built_idle; try done. apply Hok.
Qed.

Lemma set_base_current {V X : Type} d (a : App F V X) :
  mCurrFrameResource (set_base d a) = mCurrFrameResource a ∧ base (set_base d a) = d.
Proof. done. Qed.

Lemma LitColumns_BuildFrameResources_current (a : App F unit LitColumns.Ext) :
  mCurrFrameResource (LitColumns.BuildFrameResources a) = mCurrFrameResource a.
Proof. by rewrite LitColumns_BuildFrameResources_eq. Qed.

Lemma LitColumns_built_idle (x : App F unit LitColumns.Ext) d' :
  mCurrFrameResource x = None →
  mCommandQueue d' = [] → mFence d' = mCurrentFence d' →
  mCommandQueue (base (set_base d' (LitColumns.BuildFrameResources
                                      (LitColumns.BuildRenderItems sceneWorld x)))) = [] ∧
  mFence (base (set_base d' (LitColumns.BuildFrameResources
                               (LitColumns.BuildRenderItems sceneWorld x))))
  = mCurrentFence (base (set_base d' (LitColumns.BuildFrameResources
                                        (LitColumns.BuildRenderItems sceneWorld x)))) ∧
  mCurrFrameResource (set_base d' (LitColumns.BuildFrameResources
                                     (LitColumns.BuildRenderItems sceneWorld x))) = None.
Proof.
  intros Hc Hq He.
  pose proof (LitColumns_BuildRenderItems_rest sceneWorld x) as (_ & _ & _ & _ & Ec & _).
  rewrite Hc in Ec.
  remember (LitColumns.BuildRenderItems sceneWorld x) as S0 eqn:ES0. clear ES0.
  pose proof (LitColumns_BuildFrameResources_current S0) as Ec1.
  remember (LitColumns.BuildFrameResources S0) as S1 eqn:ES1. clear ES1.
  destruct (set_base_current d' S1) as [Ec2 Eb2].
  rewrite Ec2, Eb2, Ec1.
  split; [exact Hq|]. split; [exact He | exact Ec].
Qed.

Lemma LitColumns_Initialize_idle d (pc : PassConstants F) b :
  d3d_ok d →
  LitColumns.Initialize sceneWorld (LitColumns.LitColumnsApp_new d pc) = Some b →
  LitColumns.drawn_once b ∧ idle b.
Proof.
  intros Hd H.
  destruct (LitColumns_Initialize_scene sceneWorld d pc Hd)
    as (b' & Hb' & (_ & Hidx & _) & _ & Hlayer & Hfrs & Hi & _).
  rewrite H in Hb'. injection Hb' as <-.
  split; [by split|].
  rewrite LitColumns_Initialize_eq in H.
  change (base (LitColumns.LitColumnsApp_new d pc)) with d in H.
  apply bind_Some in H as (d' & Hflush & H).
  destruct (FlushCommandQueue_flushed d d' Hd Hflush) as [Hq He].
  destruct (LitColumns_built_idle
              (LitColumns.BuildMaterials (LitColumns.BuildGeometries
                 (LitColumns.LitColumnsApp_new d pc))) d' eq_refl Hq He)
    as (Iq & Ie & Ic).
  injection H as E. rewrite E in Iq, Ie, Ic.
  unfold idle. rewrite Iq, Ie, Ic, Hi, Hfrs.
  split; [done|]. split; [done|]. split; [by apply Forall_replicate | done].
Qed.
End InitializeIdle.

Section InitializeFacts.
Context {F C W : Type}.
Context `{!Float32 F, !DirectXMath F, !CameraOps F C, !WavesOps F W}.

(** X6.  [Initialize], of either application, on a base-class state
    whose fence is in order, returns a state in which every render
    item and every material is dirty for all frame resources, every
    render item is in the layers once, the GPU has completed
    everything submitted, no frame resource carries a marker and the
    ring stands at index 0; the fence counter has advanced by one.
    The state of the castle is well formed. *)
Theorem Initialize_leaves_dirty_idle_scene (sceneA sceneB : nat → XMFLOAT4X4 F)
    (d : D3DApp) (c : C) (w : W) (pc : PassConstants F) :
  d3d_ok d →
  (∃ a, Castle.Initialize sceneA (Castle.CastleApp_new d c w pc) = Some a ∧
        Castle.wf a ∧ all_dirty a ∧ Castle.drawn_once a ∧ idle a ∧
        mCurrentFence (base a) = mCurrentFence d + 1) ∧
  (∃ b, LitColumns.Initialize sceneB (LitColumns.LitColumnsApp_new d pc) = Some b ∧
        all_dirty b ∧ LitColumns.drawn_once b ∧ idle b ∧
        mCurrentFence (base b) = mCurrentFence d + 1).
Proof.
  intros Hd. split.
  - destruct (Castle_Initialize_wf sceneA d c w pc Hd) as (a & Ha & Hwf & _ & Hdirty & Hc).
    destruct (Castle_Initialize_idle sceneA d c w pc a Hd Ha) as [Honce Hidle].
    by exists a.
  - destruct (LitColumns_Initialize_scene sceneB d pc Hd)
      as (b & Hb & _ & _ & _ & _ & _ & _ & Hc & _ & _ & _ & Hdirty).
    destruct (LitColumns_Initialize_idle sceneB d pc b Hd Hb) as [Honce Hidle].
    by exists b.
Qed.
End InitializeFacts.

(** ** Frames in flight *)

Section InFlight.
Context {F V X : Type}.
Implicit Types (a : App F V X).

Lemma elem_of_delete_other {A : Type} (l : list A) (i j : nat) (x : A) :
  l !! j = Some x → j ≠ i → x ∈ delete i l.
Proof.
  intros Hj Hne. apply list_elem_of_lookup.
  destruct (decide (j < i)%nat).
  - exists j. by rewrite list_lookup_delete_lt.
  - exists (pred j). rewrite list_lookup_delete_ge by lia.
    replace (S (pred j)) with j by lia. done.
Qed.

Lemma queue_above (d : D3DApp) (frs : list (FrameResource F V)) v :
  fence_inv d frs → v ∈ mCommandQueue d → mFence d < v.
Proof.
  intros (_ & Hs & _) Hv. apply StronglySorted_inv in Hs as [_ Hs].
  rewrite Forall_forall in Hs. by apply Hs.
Qed.

Lemma cycle_queue progress (d : D3DApp) (v : Z) (blocked : bool) (g' : Z * list Z) :
  let g := gpu_run progress (mFence d) (mCommandQueue d) in
  StronglySorted Z.lt (mFence d :: mCommandQueue d) →
  (if blocked then WaitForFence v g.1 g.2 = Some g' else g' = g) →
  ∀ x, x ∈ g'.2 → x ∈ mCommandQueue d.
Proof.
  cbn zeta. intros Hs H.
  destruct (cycle_timeline progress d v blocked g' H) as [k Hk].
  by destruct (timeline_later _ _ _ _ _ Hs Hk) as (_ & _ & Hnew).
Qed.

Lemma update_queue a a1 :
  fence_inv (base a1) (mFrameResources a1) → queue_owned a →
  only_current_written a a1 →
  (∀ v, v ∈ mCommandQueue (base a1) → v ∈ mCommandQueue (base a)) →
  ∀ v, v ∈ mCommandQueue (base a1) →
       ∃ s fr, s ≠ next_slot a ∧ mFrameResources a1 !! s = Some fr ∧ Fence fr = v.
Proof.
  intros Hinv Hown (Hlen & Hoth & fr & fr' & Hfr & Hfr' & Ef & Hdone) Hsub v Hv.
  pose proof (queue_above _ _ _ Hinv Hv) as Hgt.
  apply Hsub, Hown in Hv. apply list_elem_of_fmap in Hv as (fr0 & -> & Hin).
  apply list_elem_of_lookup in Hin as [s Hs].
  exists s, fr0. destruct (decide (s = next_slot a)) as [->|Hne].
  - rewrite Hfr in Hs. injection Hs as <-. lia.
  - split; [done|]. split; [|done]. by rewrite Hoth.
Qed.

Lemma frame_in_flight calls a a1 a' :
  ring_ok a →
  fence_inv (base a1) (mFrameResources a1) → queue_owned a →
  only_current_written a a1 →
  (∀ v, v ∈ mCommandQueue (base a1) → v ∈ mCommandQueue (base a)) →
  mCurrFrameResource a1 = Some (next_slot a) →
  Draw_submit calls a1 = Some a' →
  (in_flight a1 ≤ 2)%nat ∧ (in_flight a' ≤ 3)%nat ∧ queue_owned a'.
Proof.
  intros [Hlen3 _] Hinv Hown Hwr Hsub Hcur Hdraw.
  pose proof (update_queue a a1 Hinv Hown Hwr Hsub) as Hq.
  destruct Hwr as (Hlen & _ & fr & fr' & _ & Hfr' & _).
  assert (H2 : (in_flight a1 ≤ 2)%nat).
  { unfold in_flight.
    assert (Hnd : NoDup (mCommandQueue (base a1))).
    { destruct Hinv as (_ & Hs & _). apply StronglySorted_inv in Hs as [Hs _].
      by apply sorted_NoDup. }
    assert (Hsm : mCommandQueue (base a1) ⊆+
                  Fence <$> delete (next_slot a) (mFrameResources a1)).
    { apply NoDup_submseteq; [done|]. intros v Hv.
      destruct (Hq v Hv) as (s & fr0 & Hne & Hs & <-).
      apply list_elem_of_fmap_2. by eapply elem_of_delete_other. }
    apply submseteq_length in Hsm.
    rewrite length_fmap, length_delete in Hsm by (by eexists).
    rewrite Hlen, Hlen3 in Hsm. exact Hsm. }
  split; [exact H2|].
  apply Draw_submit_inv in Hdraw as (slot & fr1 & Hcur1 & Hfr1 & E). cbn zeta in E.
  rewrite Hcur in Hcur1. injection Hcur1 as <-. subst a'.
  unfold in_flight, queue_owned in *. st_cbn.
  split; [rewrite length_app; cbn; lia|].
  intros v Hv. apply elem_of_app in Hv as [Hv|Hv].
  - destruct (Hq v Hv) as (s & fr0 & Hne & Hs & <-).
    apply list_elem_of_fmap_2. apply list_elem_of_lookup. exists s.
    by rewrite list_lookup_insert_ne.
  - apply list_elem_of_singleton in Hv as ->.
    apply list_elem_of_fmap. eexists. split; [|apply list_elem_of_lookup; exists (next_slot a);
      apply list_lookup_insert_eq; by eapply lookup_lt_Some]. done.
Qed.

Lemma idle_queue_owned a : idle a → queue_owned a.
Proof. intros (Hq & _) v Hv. rewrite Hq in Hv. by apply elem_of_nil in Hv. Qed.
End InFlight.

Section InFlightBound.
Context {F C W : Type}.
Context `{!Float32 F, !DirectXMath F, !CameraOps F C, !WavesOps F W}.
Context `{!WavesLawful F W}.

(** X7.  In a frame of either application, on a well-formed state in
    which every queued signal is the marker of a frame resource, at
    most two submitted frames are not completed when [Update]
    returns, so that the frame resource it writes is not one of
    them, and at most three when [Draw] returns; every queued signal
    is the marker of a frame resource afterwards as well. *)
Theorem at_most_three_frames_in_flight (i : FrameInput F)
    (a : App F (list (option (Vertex F))) (Castle.Ext F C W))
    (b : App F unit LitColumns.Ext) :
  Castle.wf a → queue_owned a → LitColumns.wf b → queue_owned b →
  (∃ a1 a', Castle.Update i a = Some a1 ∧ Castle.Draw i a1 = Some a' ∧
            (in_flight a1 ≤ 2)%nat ∧ (in_flight a' ≤ 3)%nat ∧ queue_owned a') ∧
  (∃ b1 b', LitColumns.Update i b = Some b1 ∧ LitColumns.Draw i b1 = Some b' ∧
            (in_flight b1 ≤ 2)%nat ∧ (in_flight b' ≤ 3)%nat ∧ queue_owned b').
Proof.
  intros Hwa Hoa Hwb Hob. split.
  - destruct (Castle_Update_total i a Hwa) as [a1 H1].
    pose proof (Castle_Update_wf i a a1 Hwa H1) as Hwf1.
    pose proof H1 as Hinv. apply Castle_Update_inv in Hinv
      as (fr & water & p & ri & blocked & g' & (_ & Hfr & _) & (Hb & Hg') & Ebase &
          Efrs & Ecur & _).
    cbn zeta in *.
    destruct (Castle_Draw_total i a1 _ Ecur) as [a' H2].
    { rewrite Efrs. apply lookup_lt_is_Some. rewrite length_insert.
      by eapply lookup_lt_Some. }
    { apply Hwf1. }
    exists a1, a'. split; [done|]. split; [done|].
    pose proof H2 as Hd. apply Castle_Draw_inv in Hd as [calls Hd].
    apply (frame_in_flight calls a a1 a'); try done.
    + apply Hwa.
    + apply Hwf1.
    + eapply (only_current_written_intro (gpu_progress i) a a1 fr _ blocked g');
        [apply Hwa | exact Hfr | exact Hb | exact Hg' | exact Ebase | exact Efrs | done].
    + rewrite Ebase. cbn [mCommandQueue set_gpu].
      eapply cycle_queue; [|exact Hg']. apply Hwa.
  - destruct (LitColumns_Update_total i b Hwb) as [b1 H1].
    pose proof (LitColumns_Update_wf i b b1 Hwb H1) as Hwf1.
    pose proof H1 as Hinv. apply LitColumns_Update_inv in Hinv
      as (fr & blocked & g' & (_ & Hfr & _) & (Hb & Hg') & Ebase & Efrs & Ecur & _).
    cbn zeta in *.
    destruct (LitColumns_Draw_total i b1 _ Ecur) as [b' H2].
    { rewrite Efrs. apply lookup_lt_is_Some. rewrite length_insert.
      by eapply lookup_lt_Some. }
    { apply Hwf1. }
    exists b1, b'. split; [done|]. split; [done|].
    pose proof H2 as Hd. apply LitColumns_Draw_inv in Hd as [calls Hd].
    apply (frame_in_flight calls b b1 b'); try done.
    + apply Hwb.
    + apply Hwf1.
    + eapply (only_current_written_intro (gpu_progress i) b b1 fr _ blocked g');
        [apply Hwb | exact Hfr | exact Hb | exact Hg' | exact Ebase | exact Efrs | done].
    + rewrite Ebase. cbn [mCommandQueue set_gpu].
      eapply cycle_queue; [|exact Hg']. apply Hwb.
Qed.
End InFlightBound.

(** ** The first frames do not wait *)

Section FrameSteps.
Context {F C W : Type}.
Context `{!Float32 F, !DirectXMath F, !CameraOps F C, !WavesOps F W}.
Context `{!WavesLawful F W}.

Lemma Castle_frame_step (i : FrameInput F)
    (a a' : App F (list (option (Vertex F))) (Castle.Ext F C W)) :
  Castle.frame i a = Some a' → frame_step a a'.
Proof.
  intros H. apply Castle_frame_inv in H as (a1 & H1 & H2).
  apply Castle_Draw_inv in H2 as [calls H2].
  apply Draw_submit_inv in H2 as (slot & fr1 & Hcur1 & Hfr1 & E). cbn zeta in E.
  apply Castle_Update_inv in H1
    as (fr & water & p & ri & blocked & g' & (_ & Hfr & _) & (Hb & _) &
        _ & Efrs & Ecur & Eidx & _ & _ & _ & _ & _ & Elog).
  cbn zeta in *. fold (next_slot a) in *.
  rewrite Ecur in Hcur1. injection Hcur1 as <-.
  exists fr. eexists. split; [exact Hfr|]. split; [|split; [|split]].
  - unfold new_events. subst a'. st_cbn. rewrite Elog.
    rewrite !app_comm_cons, !(assoc_L (++)). reflexivity.
  - intros H0. destruct blocked; [by destruct (proj1 Hb eq_refl)|].
    rewrite app_nil_r.
    change (E_Signal ?v :: E_ExecuteCommandLists ?s ?c :: ?l)
      with ([E_Signal (F:=F) v; E_ExecuteCommandLists s c] ++ l).
    change (E_CopyPass ?s ?k ?pc :: ?l) with ([E_CopyPass (F:=F) s k pc] ++ l).
    rewrite !waits_app, (waits_waveEvents (C:=C)), waits_materialEvents,
      waits_objectEvents. done.
  - intros s Hs. subst a'. st_cbn. rewrite Efrs.
    by rewrite !list_lookup_insert_ne.
  - subst a'. st_cbn. exact Eidx.
Qed.

Lemma LitColumns_frame_step (i : FrameInput F) (a a' : App F unit LitColumns.Ext) :
  LitColumns.frame i a = Some a' → frame_step a a'.
Proof.
  intros H. apply LitColumns_frame_inv in H as (a1 & H1 & H2).
  apply LitColumns_Draw_inv in H2 as [calls H2].
  apply Draw_submit_inv in H2 as (slot & fr1 & Hcur1 & Hfr1 & E). cbn zeta in E.
  apply LitColumns_Update_inv in H1
    as (fr & blocked & g' & (_ & Hfr & _) & (Hb & _) &
        _ & Efrs & Ecur & Eidx & _ & _ & _ & _ & _ & _ & Elog).
  cbn zeta in *. fold (next_slot a) in *.
  rewrite Ecur in Hcur1. injection Hcur1 as <-.
  exists fr. eexists. split; [exact Hfr|]. split; [|split; [|split]].
  - unfold new_events. subst a'. st_cbn. rewrite Elog.
    rewrite !app_comm_cons, !(assoc_L (++)). reflexivity.
  - intros H0. destruct blocked; [by destruct (proj1 Hb eq_refl)|].
    rewrite app_nil_r.
    change (E_Signal ?v :: E_ExecuteCommandLists ?s ?c :: E_CopyPass ?s' ?k ?pc :: ?l)
      with ([E_Signal (F:=F) v; E_ExecuteCommandLists s c; E_CopyPass s' k pc] ++ l).
    rewrite !waits_app, waits_materialEvents, waits_objectEvents. done.
  - intros s Hs. subst a'. st_cbn. rewrite Efrs.
    by rewrite !list_lookup_insert_ne.
  - subst a'. st_cbn. exact Eidx.
Qed.
End FrameSteps.

Section NoWait.
Context {F V X : Type}.
Implicit Types (a : App F V X).

Variable frame : FrameInput F → App F V X → option (App F V X).
Variable wf : App F V X → Prop.

Hypothesis frame_total : ∀ i a,
  wf a → mCurrentFence (base a) < 2 ^ 64 - 1 →
  ∃ a', frame i a = Some a' ∧ wf a' ∧
        mCurrentFence (base a') = mCurrentFence (base a) + 1.
Hypothesis frame_steps : ∀ i a a', frame i a = Some a' → frame_step a a'.

Lemma first_frames_no_wait i1 i2 i3 a :
  wf a → idle a → mCurrentFence (base a) + 3 < 2 ^ 64 →
  ∃ a1 a2 a3 evs,
    run frame [i1; i2; i3] a = Some [a1; a2; a3] ∧
    new_events (mLog a) (mLog a3) evs ∧ waits evs = [].
Proof.
  intros Hwf (_ & _ & Hm & Hidx & _) Hsmall.
  assert (Hzero : ∀ s fr, mFrameResources a !! s = Some fr → Fence fr = 0).
  { intros s fr Hs. rewrite Forall_forall in Hm. apply Hm.
    by eapply list_elem_of_lookup_2. }
  destruct (frame_total i1 a Hwf) as (a1 & H1 & Hwf1 & Hc1); [lia|].
  destruct (frame_total i2 a1 Hwf1) as (a2 & H2 & Hwf2 & Hc2); [lia|].
  destruct (frame_total i3 a2 Hwf2) as (a3 & H3 & Hwf3 & Hc3); [lia|].
  destruct (frame_steps _ _ _ H1) as (fr1 & e1 & Hf1 & Hl1 & Hw1 & Ho1 & Hx1).
  destruct (frame_steps _ _ _ H2) as (fr2 & e2 & Hf2 & Hl2 & Hw2 & Ho2 & Hx2).
  destruct (frame_steps _ _ _ H3) as (fr3 & e3 & Hf3 & Hl3 & Hw3 & Ho3 & Hx3).
  assert (Hn1 : next_slot a = 1%nat) by (unfold next_slot; by rewrite Hidx).
  assert (Hn2 : next_slot a1 = 2%nat) by (unfold next_slot; by rewrite Hx1, Hidx).
  assert (Hn3 : next_slot a2 = 0%nat) by (unfold next_slot; by rewrite Hx2, Hx1, Hidx).
  rewrite Hn1 in *. rewrite Hn2 in *. rewrite Hn3 in *.
  assert (Z1 : Fence fr1 = 0) by (by eapply Hzero).
  assert (Z2 : Fence fr2 = 0).
  { specialize (Ho1 2%nat). rewrite Hf2 in Ho1.
    destruct (mFrameResources a !! 2%nat) as [fr|] eqn:E; [|by discriminate Ho1].
    cbn in Ho1. injection Ho1 as ->; [|lia]. by eapply Hzero. }
  assert (Z3 : Fence fr3 = 0).
  { specialize (Ho2 0%nat). specialize (Ho1 0%nat). rewrite Hf3 in Ho2.
    rewrite Ho1 in Ho2 by lia.
    destruct (mFrameResources a !! 0%nat) as [fr|] eqn:E; [|by discriminate Ho2].
    cbn in Ho2. injection Ho2 as ->; [|lia]. by eapply Hzero. }
  exists a1, a2, a3, (e3 ++ e2 ++ e1). cbn [run]. rewrite H1. cbn [mbind option_bind].
  rewrite H2. cbn [mbind option_bind]. rewrite H3. cbn [mbind option_bind].
  split; [done|]. split.
  - unfold new_events in *. rewrite Hl3, Hl2, Hl1. by rewrite <- !(assoc_L (++)).
  - by rewrite !waits_app, Hw1, Hw2, Hw3.
Qed.
End NoWait.

Section FirstFrames.
Context {F C W : Type}.
Context `{!Float32 F, !DirectXMath F, !CameraOps F C, !WavesOps F W}.
Context `{!WavesLawful F W}.

(** X8.  From a well-formed state as [Initialize] leaves it, in which
    no frame resource carries a marker, the first three frames of
    either application return without a wait for the GPU, whatever
    the progress of the GPU: each selects a frame resource that was
    never submitted. *)
Theorem first_three_frames_never_wait (i1 i2 i3 : FrameInput F)
    (a : App F (list (option (Vertex F))) (Castle.Ext F C W))
    (b : App F unit LitColumns.Ext) :
  Castle.wf a → idle a → mCurrentFence (base a) + 3 < 2 ^ 64 →
  LitColumns.wf b → idle b → mCurrentFence (base b) + 3 < 2 ^ 64 →
  (∃ a1 a2 a3 evs,
     run Castle.frame [i1; i2; i3] a = Some [a1; a2; a3] ∧
     new_events (mLog a) (mLog a3) evs ∧ waits evs = []) ∧
  (∃ b1 b2 b3 evs,
     run LitColumns.frame [i1; i2; i3] b = Some [b1; b2; b3] ∧
     new_events (mLog b) (mLog b3) evs ∧ waits evs = []).
Proof.
  intros Hwa Hia Hsa Hwb Hib Hsb. split.
  - apply (first_frames_no_wait Castle.frame Castle.wf); try done.
    + apply Castle_frame_total.
    + apply Castle_frame_step.
  - apply (first_frames_no_wait LitColumns.frame LitColumns.wf); try done.
    + apply LitColumns_frame_total.
    + apply LitColumns_frame_step.
Qed.
End FirstFrames.

(** * Examples: the model over the rationals *)

Section Examples.
Import Example.

Lemma Q_WavesLawful : WavesLawful QArith_base.Q (list QArith_base.Q).
Proof.
  split.
  - intros dt w. cbn. by rewrite length_fmap.
  - intros i j r w. cbn. by rewrite length_alter.
Qed.

#[local] Existing Instance Q_WavesLawful.

Lemma d0_ok : d3d_ok d0.
Proof.
  unfold d3d_ok, d0. cbn. split; [lia|]. split; [repeat constructor|].
  split; [|lia]. constructor; [lia | constructor].
Qed.

(** *** The states of the examples *)

Lemma castle0_init : Castle.Initialize sceneWorld0 castle_new = Some castle0.
Proof.
  destruct (Castle_Initialize_wf sceneWorld0 d0 c0 w0 pc0 d0_ok) as (a & Ha & _).
  unfold castle0, castle_new. rewrite Ha. reflexivity.
Qed.

Lemma castle0_facts :
  Castle.wf castle0 ∧ NoDup (ObjCBIndex <$> mAllRitems castle0) ∧
  mCurrentFence (base castle0) = 1.
Proof.
  destruct (Castle_Initialize_wf sceneWorld0 d0 c0 w0 pc0 d0_ok)
    as (a & Ha & Hwf & Hnd & _ & Hc).
  pose proof castle0_init as H0. unfold castle_new in H0.
  rewrite Ha in H0. injection H0 as H0.
  rewrite <- H0. split; [exact Hwf|]. split; [exact Hnd|exact Hc].
Qed.

Lemma castle_step (a a' : App QArith_base.Q (list (option (Vertex QArith_base.Q)))
                              (Castle.Ext QArith_base.Q (XMFLOAT3 QArith_base.Q)
                                          (list QArith_base.Q))) (c : Z) :
  Castle.wf a ∧ NoDup (ObjCBIndex <$> mAllRitems a) ∧ mCurrentFence (base a) = c →
  c < 2 ^ 64 - 1 →
  a' = default a (Castle.frame i0 a) →
  Castle.frame i0 a = Some a' ∧
  (Castle.wf a' ∧ NoDup (ObjCBIndex <$> mAllRitems a') ∧
   mCurrentFence (base a') = c + 1).
Proof.
  intros (Hwf & Hnd & Hc) Hsmall ->.
  destruct (Castle_frame_total i0 a Hwf) as (a1 & Hf & Hwf1 & Hc1); [lia|].
  pose proof (object_pass_indices _ _ (Castle_frame_object_pass _ _ _ Hf)) as Hi.
  rewrite Hf. cbn [default from_option id].
  split; [done|]. split; [done|]. split; [by rewrite Hi | lia].
Qed.

Lemma castle1_facts :
  Castle.frame i0 castle0 = Some castle1 ∧
  (Castle.wf castle1 ∧ NoDup (ObjCBIndex <$> mAllRitems castle1) ∧
   mCurrentFence (base castle1) = 2).
Proof. apply (castle_step castle0 castle1 1 castle0_facts); [lia | reflexivity]. Qed.

Lemma castle2_facts :
  Castle.frame i0 castle1 = Some castle2 ∧
  (Castle.wf castle2 ∧ NoDup (ObjCBIndex <$> mAllRitems castle2) ∧
   mCurrentFence (base castle2) = 3).
Proof.
  apply (castle_step castle1 castle2 2 (proj2 castle1_facts)); [lia | reflexivity].
Qed.

Lemma castle3_facts :
  Castle.frame i0 castle2 = Some castle3 ∧
  (Castle.wf castle3 ∧ NoDup (ObjCBIndex <$> mAllRitems castle3) ∧
   mCurrentFence (base castle3) = 4).
Proof.
  apply (castle_step castle2 castle3 3 (proj2 castle2_facts)); [lia | reflexivity].
Qed.

Lemma columns_init_eq :
  LitColumns.Initialize sceneWorld0 columns_new = Some columns_init.
Proof.
  destruct (LitColumns_Initialize_scene sceneWorld0 d0 pc0 d0_ok) as (b & Hb & _).
  unfold columns_init, columns_new. rewrite Hb. reflexivity.
Qed.

Lemma widened_base k (b : App QArith_base.Q unit LitColumns.Ext) :
  base (LitColumns.widened k b) = base b.
Proof. done. Qed.

Lemma columns0_facts :
  LitColumns.wf columns0 ∧ NoDup (ObjCBIndex <$> mAllRitems columns0) ∧
  mCurrentFence (base columns0) = 1.
Proof.
  destruct (LitColumns_Initialize_scene sceneWorld0 d0 pc0 d0_ok)
    as (b & Hb & _ & _ & _ & _ & _ & _ & Hc & _).
  pose proof columns_init_eq as H0. unfold columns_new in H0.
  rewrite Hb in H0. injection H0 as H0.
  destruct (LitColumns_widened_wf sceneWorld0 d0 pc0 b d0_ok Hb) as [Hwf Hnd].
  unfold columns0. rewrite <- H0.
  split; [exact Hwf|]. split; [exact Hnd|].
  rewrite widened_base. exact Hc.
Qed.

Lemma columns_step (b b' : App QArith_base.Q unit LitColumns.Ext) (c : Z) :
  LitColumns.wf b ∧ NoDup (ObjCBIndex <$> mAllRitems b) ∧ mCurrentFence (base b) = c →
  c < 2 ^ 64 - 1 →
  b' = default b (LitColumns.frame i0 b) →
  LitColumns.frame i0 b = Some b' ∧
  (LitColumns.wf b' ∧ NoDup (ObjCBIndex <$> mAllRitems b') ∧
   mCurrentFence (base b') = c + 1).
Proof.
  intros (Hwf & Hnd & Hc) Hsmall ->.
  destruct (LitColumns_frame_total i0 b Hwf) as (b1 & Hf & Hwf1 & Hc1); [lia|].
  pose proof (object_pass_indices _ _ (LitColumns_frame_object_pass _ _ _ Hf)) as Hi.
  rewrite Hf. cbn [default from_option id].
  split; [done|]. split; [done|]. split; [by rewrite Hi | lia].
Qed.

Lemma columns1_facts :
  LitColumns.frame i0 columns0 = Some columns1 ∧
  (LitColumns.wf columns1 ∧ NoDup (ObjCBIndex <$> mAllRitems columns1) ∧
   mCurrentFence (base columns1) = 2).
Proof. apply (columns_step columns0 columns1 1 columns0_facts); [lia | reflexivity]. Qed.

Lemma columns2_facts :
  LitColumns.frame i0 columns1 = Some columns2 ∧
  (LitColumns.wf columns2 ∧ NoDup (ObjCBIndex <$> mAllRitems columns2) ∧
   mCurrentFence (base columns2) = 3).
Proof.
  apply (columns_step columns1 columns2 2 (proj2 columns1_facts)); [lia | reflexivity].
Qed.

Lemma columns3_facts :
  LitColumns.frame i0 columns2 = Some columns3 ∧
  (LitColumns.wf columns3 ∧ NoDup (ObjCBIndex <$> mAllRitems columns3) ∧
   mCurrentFence (base columns3) = 4).
Proof.
  apply (columns_step columns2 columns3 3 (proj2 columns2_facts)); [lia | reflexivity].
Qed.

(** The states after frames without progress of the GPU. *)
Lemma castle_stall_step (a a' : App QArith_base.Q (list (option (Vertex QArith_base.Q)))
                                    (Castle.Ext QArith_base.Q (XMFLOAT3 QArith_base.Q)
                                                (list QArith_base.Q))) (c : Z) :
  Castle.wf a ∧ mCurrentFence (base a) = c → c < 2 ^ 64 - 1 →
  a' = default a (Castle.frame i_stall a) →
  Castle.wf a' ∧ mCurrentFence (base a') = c + 1.
Proof.
  intros (Hwf & Hc) Hsmall ->.
  destruct (Castle_frame_total i_stall a Hwf) as (a1 & Hf & Hwf1 & Hc1); [lia|].
  rewrite Hf. cbn [default from_option id]. split; [done | lia].
Qed.

Lemma castle_s3_facts : Castle.wf castle_s3 ∧ mCurrentFence (base castle_s3) = 4.
Proof.
  apply (castle_stall_step castle_s2 castle_s3 3); [|lia | reflexivity].
  apply (castle_stall_step castle_s1 castle_s2 2); [|lia | reflexivity].
  apply (castle_stall_step castle0 castle_s1 1); [|lia | reflexivity].
  destruct castle0_facts as (? & _ & ?). by split.
Qed.

Lemma columns_stall_step (b b' : App QArith_base.Q unit LitColumns.Ext) (c : Z) :
  LitColumns.wf b ∧ mCurrentFence (base b) = c → c < 2 ^ 64 - 1 →
  b' = default b (LitColumns.frame i_stall b) →
  LitColumns.wf b' ∧ mCurrentFence (base b') = c + 1.
Proof.
  intros (Hwf & Hc) Hsmall ->.
  destruct (LitColumns_frame_total i_stall b Hwf) as (b1 & Hf & Hwf1 & Hc1); [lia|].
  rewrite Hf. cbn [default from_option id]. split; [done | lia].
Qed.

Lemma columns_s3_facts : LitColumns.wf columns_s3 ∧ mCurrentFence (base columns_s3) = 4.
Proof.
  apply (columns_stall_step columns_s2 columns_s3 3); [|lia | reflexivity].
  apply (columns_stall_step columns_s1 columns_s2 2); [|lia | reflexivity].
  apply (columns_stall_step columns0 columns_s1 1); [|lia | reflexivity].
  destruct columns0_facts as (? & _ & ?). by split.
Qed.

(** There the frame resources carry the markers 4, 2 and 3, the GPU
    has completed 1, and the ring advance selects slot 1, with the
    marker 2: without progress the fence reads 1, with one signal
    reached it reads 2. *)
Lemma castle_s3_ring :
  Fence <$> mFrameResources castle_s3 = [4; 2; 3] ∧
  mCommandQueue (base castle_s3) = [2; 3; 4] ∧
  next_slot castle_s3 = 1%nat ∧
  polled i_stall castle_s3 = 1 ∧ polled i0 castle_s3 = 2.
Proof. vm_compute. done. Qed.

Lemma columns_s3_ring :
  Fence <$> mFrameResources columns_s3 = [4; 2; 3] ∧
  mCommandQueue (base columns_s3) = [2; 3; 4] ∧
  next_slot columns_s3 = 1%nat ∧
  polled i_stall columns_s3 = 1 ∧ polled i0 columns_s3 = 2.
Proof. vm_compute. done. Qed.

Lemma castle0_gate : mAllRitems castle0 !! 1%nat = Some (castle_gate 3).
Proof. vm_compute. reflexivity. Qed.

Lemma columns0_box : mAllRitems columns0 !! 1%nat = Some (columns_box 3).
Proof. vm_compute. reflexivity. Qed.

(** The world matrix of the box is not its own transpose. *)
Lemma gate_transpose :
  XMMatrixTranspose (World (castle_gate 3)) ≠ World (castle_gate 3) ∧
  XMMatrixTranspose (World (columns_box 3)) ≠ World (columns_box 3).
Proof. split; vm_compute; intros [=]. Qed.

Lemma castle0_floor : mAllRitems castle0 !! 0%nat = Some (castle_floor 3).
Proof. vm_compute. reflexivity. Qed.

Lemma castle3_floor : mAllRitems castle3 !! 0%nat = Some (castle_floor 0).
Proof. vm_compute. reflexivity. Qed.

Lemma columns0_floor : mAllRitems columns0 !! 0%nat = Some (columns_floor 3).
Proof. vm_compute. reflexivity. Qed.

Lemma columns3_floor : mAllRitems columns3 !! 0%nat = Some (columns_floor 0).
Proof. vm_compute. reflexivity. Qed.

Lemma castle0_waves : Castle.mWavesRitem (ext castle0) = Some 202%nat.
Proof. vm_compute. reflexivity. Qed.

Lemma castle0_transparent : 202%nat ∈ Castle.mRitemLayer (ext castle0) Castle.Transparent.
Proof.
  assert (E : Castle.mRitemLayer (ext castle0) Castle.Transparent = [202%nat])
    by (vm_compute; reflexivity).
  rewrite E. constructor.
Qed.

Lemma castle0_water : mMaterials castle0 !! "water" = Some water0.
Proof. vm_compute. reflexivity. Qed.

Lemma castle_water1_water : mMaterials castle_water1 !! "water" = Some water1.
Proof. vm_compute. reflexivity. Qed.

Lemma castle0_small (n : Z) : n ≤ 1000 → mCurrentFence (base castle0) + n < 2 ^ 64.
Proof. destruct castle0_facts as (_ & _ & ->). lia. Qed.

Lemma columns0_small (n : Z) : n ≤ 1000 → mCurrentFence (base columns0) + n < 2 ^ 64.
Proof. destruct columns0_facts as (_ & _ & ->). lia. Qed.

Lemma castle3_small (n : Z) : n ≤ 1000 → mCurrentFence (base castle3) + n < 2 ^ 64.
Proof. destruct castle3_facts as (_ & _ & _ & ->). lia. Qed.

Lemma columns3_small (n : Z) : n ≤ 1000 → mCurrentFence (base columns3) + n < 2 ^ 64.
Proof. destruct columns3_facts as (_ & _ & _ & ->). lia. Qed.

Lemma small_3 : 3 ≤ 1000.
Proof. lia. Qed.

Lemma small_0 : 0 ≤ 1000.
Proof. lia. Qed.

(** *** The claims at the examples *)


(** The propagation of the second item of either scene, a box whose
    world matrix is a translation and differs from its transpose. *)
Lemma C2_witness :
  (propagation Castle.frame i0 i0 i0 castle0 1 (castle_gate 3) ∧
   propagation LitColumns.frame i0 i0 i0 columns0 1 (columns_box 3)) ∧
  (XMMatrixTranspose (World (castle_gate 3)) ≠ World (castle_gate 3) ∧
   XMMatrixTranspose (World (columns_box 3)) ≠ World (columns_box 3)).
Proof.
  split; [|exact gate_transpose].
  exact (C2_dirty_item_reaches_every_frame_resource i0 i0 i0 castle0 columns0
           1 1 (castle_gate 3) (columns_box 3)
           (proj1 castle0_facts) (castle0_small 3 small_3)
           (proj1 (proj2 castle0_facts)) castle0_gate eq_refl
           (proj1 columns0_facts) (columns0_small 3 small_3)
           (proj1 (proj2 columns0_facts)) columns0_box eq_refl).
Defined.

Lemma C3_witness :
  (∃ a1 water1',
     Castle.AnimateMaterials i0 castle_water1 = Some a1 ∧
     mMaterials a1 !! "water" = Some water1' ∧
     MatNumFramesDirty water1' = gNumFrameResources ∧
     (1 + 1 ≠ gNumFrameResources → MatNumFramesDirty water1' ≠ 1 + 1) ∧
     MatTransform water1' = MatTransform (Castle.scrollWater i0 water1) ∧
     (∀ n, n ≠ "water" → mMaterials a1 !! n = mMaterials castle_water1 !! n) ∧
     mAllRitems a1 = mAllRitems castle_water1) ∧
  (∀ a' n m m',
     Castle.Update i0 castle_water1 = Some a' →
     mMaterials castle_water1 !! n = Some m → mMaterials a' !! n = Some m' →
     ¬ same_material m m' →
     n = "water" ∧ MatNumFramesDirty m' = gNumFrameResources - 1) ∧
  LitColumns.AnimateMaterials i0 columns0 = Some columns0.
Proof.
  exact (C3_remutation_resets_counter i0 castle_water1 columns0 water1 1
           castle_water1_water eq_refl).
Defined.

Lemma C4_witness :
  (∃ a, Castle.Initialize sceneWorld0 (Castle.CastleApp_new d0 c0 w0 pc0) = Some a ∧
        indices_in_range a) ∧
  (∃ b brown,
     LitColumns.Initialize sceneWorld0 (LitColumns.LitColumnsApp_new d0 pc0) = Some b ∧
     Forall (λ fr, Forall (λ e, (ObjCBIndex e < length (ObjectCB fr))%nat) (mAllRitems b))
            (mFrameResources b) ∧
     mMaterials b !! "brownMat" = Some brown ∧ MatCBIndex brown = 4%nat ∧
     size (mMaterials b) = 4%nat ∧
     Forall (λ fr, length (MaterialCB fr) = 4%nat) (mFrameResources b) ∧
     ¬ indices_in_range b ∧
     LitColumns.Update i0 b = None).
Proof.
  exact (C4_brownMat_index_out_of_range sceneWorld0 sceneWorld0 d0 c0 w0 pc0 i0 d0_ok).
Defined.

Lemma C5_witness :
  left_alone Castle.frame [i0; i0; i0] castle3 0 (castle_floor 0) ∧
  left_alone LitColumns.frame [i0; i0; i0] columns3 0 (columns_floor 0).
Proof.
  exact (C5_clean_item_is_not_rewritten [i0; i0; i0] castle3 columns3
           0 0 (castle_floor 0) (columns_floor 0)
           (proj1 (proj2 castle3_facts)) (castle3_small 3 small_3)
           (proj1 (proj2 (proj2 castle3_facts))) castle3_floor eq_refl
           (proj1 (proj2 columns3_facts)) (columns3_small 3 small_3)
           (proj1 (proj2 (proj2 columns3_facts))) columns3_floor eq_refl).
Defined.

Lemma C6_witness :
  (∀ i a', Castle.Draw i castle0 = Some a' → retired castle0 a') ∧
  (∀ i b', LitColumns.Draw i columns0 = Some b' → retired columns0 b') ∧
  fence_timeline Castle.frame [i0; i0; i0] castle0 ∧
  fence_timeline LitColumns.frame [i0; i0; i0] columns0.
Proof.
  exact (C6_retire_markers_increase [i0; i0; i0] castle0 columns0
           (proj1 castle0_facts) (castle0_small 3 small_3)
           (proj1 columns0_facts) (columns0_small 3 small_3)).
Defined.

Lemma C7_witness :
  (∃ a' pc, Castle.Update i0 castle0 = Some a' ∧ pass_written castle0 a' pc ∧
            pass_matrices (GetView (Castle.mCamera (ext a')))
                          (GetProj (Castle.mCamera (ext a'))) pc) ∧
  (∃ b' pc, LitColumns.Update i0 columns0 = Some b' ∧ pass_written columns0 b' pc ∧
            pass_matrices (mView b') (mProj b') pc).
Proof.
  exact (C7_pass_constants_rewritten_every_frame i0 castle0 columns0
           (proj1 castle0_facts) (proj1 columns0_facts)).
Defined.

Lemma castle0_small_1 : mCurrentFence (base castle0) < 2 ^ 64 - 1.
Proof. destruct castle0_facts as (_ & _ & ->). lia. Qed.

Lemma C8_witness :
  ∃ a' a'', Castle.Update i0 castle0 = Some a' ∧ Castle.Draw i0 a' = Some a'' ∧
            Castle.waves_uploaded i0 castle0 a' ∧ Castle.waves_drawn a' a''.
Proof.
  exact (C8_waves_uploaded_and_bound i0 castle0 202 Castle.Transparent
           (proj1 castle0_facts) castle0_small_1 castle0_waves castle0_transparent).
Defined.

Lemma C9_witness :
  (∃ a', Castle.Update i0 castle0 = Some a' ∧ Castle.scene_kept_but_water castle0 a') ∧
  (∃ b', LitColumns.Update i0 columns0 = Some b' ∧ scene_kept columns0 b') ∧
  (∀ a1 a2 : App QArith_base.Q (list (option (Vertex QArith_base.Q)))
                 (Castle.Ext QArith_base.Q (XMFLOAT3 QArith_base.Q) (list QArith_base.Q)),
     (UpdateObjectCBs a1 = Some a2 → scene_kept a1 a2) ∧
     (UpdateMaterialCBs a1 = Some a2 → scene_kept a1 a2) ∧
     (CycleFrameResources (gpu_progress i0) a1 = Some a2 →
      mAllRitems a2 = mAllRitems a1 ∧ mMaterials a2 = mMaterials a1)) ∧
  (∀ b1 b2 : App QArith_base.Q unit LitColumns.Ext,
     (UpdateObjectCBs b1 = Some b2 → scene_kept b1 b2) ∧
     (UpdateMaterialCBs b1 = Some b2 → scene_kept b1 b2) ∧
     (CycleFrameResources (gpu_progress i0) b1 = Some b2 →
      mAllRitems b2 = mAllRitems b1 ∧ mMaterials b2 = mMaterials b1)).
Proof.
  exact (C9_update_changes_counters_and_water_only i0 castle0 columns0
           (proj1 castle0_facts) (proj1 columns0_facts)).
Defined.

(** *** The further properties at the examples *)

Lemma castle0_scene : Castle.drawn_once castle0 ∧ idle castle0.
Proof. exact (Castle_Initialize_idle sceneWorld0 d0 c0 w0 pc0 castle0 d0_ok castle0_init). Qed.

Lemma widened_scene k (b : App QArith_base.Q unit LitColumns.Ext) :
  LitColumns.drawn_once b ∧ idle b →
  LitColumns.drawn_once (LitColumns.widened k b) ∧ idle (LitColumns.widened k b).
Proof.
  intros [Ho (Hq & He & Hm & Hi & Hc)]. split; [exact Ho|].
  unfold idle, LitColumns.widened. st_cbn.
  split; [done|]. split; [done|]. split; [|done].
  apply Forall_fmap. eapply Forall_impl; [exact Hm|]. by intros fr.
Qed.

Lemma columns0_scene : LitColumns.drawn_once columns0 ∧ idle columns0.
Proof.
  apply widened_scene.
  exact (LitColumns_Initialize_idle sceneWorld0 d0 pc0 columns_init d0_ok columns_init_eq).
Qed.

Lemma castle_s3_owned : queue_owned castle_s3.
Proof.
  destruct castle_s3_ring as (Hm & Hq & _). unfold queue_owned.
  rewrite Hm, Hq. intros v. rewrite !elem_of_cons. tauto.
Qed.

Lemma columns_s3_owned : queue_owned columns_s3.
Proof.
  destruct columns_s3_ring as (Hm & Hq & _). unfold queue_owned.
  rewrite Hm, Hq. intros v. rewrite !elem_of_cons. tauto.
Qed.

Lemma Update_writes_only_the_selected_slot_witness :
  (∃ a', Castle.Update i_stall castle_s3 = Some a' ∧ only_current_written castle_s3 a') ∧
  (∃ b', LitColumns.Update i_stall columns_s3 = Some b' ∧
         only_current_written columns_s3 b').
Proof.
  exact (Update_writes_only_the_selected_slot i_stall castle_s3 columns_s3
           (proj1 castle_s3_facts) (proj1 columns_s3_facts)).
Defined.

Lemma every_item_drawn_once_per_frame_witness :
  (∃ a1 a' calls,
     Castle.Update i0 castle0 = Some a1 ∧ Castle.Draw i0 a1 = Some a' ∧
     submitted a1 a' calls ∧
     Forall2 (draws a1) (Castle.draw_order castle0) calls ∧
     dc_ObjCBIndex <$> calls = Castle.draw_order castle0 ∧
     dc_ObjCBIndex <$> calls ≡ₚ seq 0 (length (mAllRitems castle0)) ∧
     Castle.drawn_once a') ∧
  (∃ b1 b' calls,
     LitColumns.Update i0 columns0 = Some b1 ∧ LitColumns.Draw i0 b1 = Some b' ∧
     submitted b1 b' calls ∧
     Forall2 (draws b1) (seq 0 (length (mAllRitems columns0))) calls ∧
     dc_ObjCBIndex <$> calls = seq 0 (length (mAllRitems columns0)) ∧
     LitColumns.drawn_once b').
Proof.
  exact (every_item_drawn_once_per_frame i0 castle0 columns0
           (proj1 castle0_facts) (proj1 castle0_scene)
           (proj1 columns0_facts) (proj1 columns0_scene)).
Defined.

Lemma Initialize_leaves_dirty_idle_scene_witness :
  (∃ a, Castle.Initialize sceneWorld0 (Castle.CastleApp_new d0 c0 w0 pc0) = Some a ∧
        Castle.wf a ∧ all_dirty a ∧ Castle.drawn_once a ∧ idle a ∧
        mCurrentFence (base a) = mCurrentFence d0 + 1) ∧
  (∃ b, LitColumns.Initialize sceneWorld0 (LitColumns.LitColumnsApp_new d0 pc0) = Some b ∧
        all_dirty b ∧ LitColumns.drawn_once b ∧ idle b ∧
        mCurrentFence (base b) = mCurrentFence d0 + 1).
Proof.
  exact (Initialize_leaves_dirty_idle_scene sceneWorld0 sceneWorld0 d0 c0 w0 pc0 d0_ok).
Defined.

Lemma at_most_three_frames_in_flight_witness :
  (∃ a1 a', Castle.Update i_stall castle_s3 = Some a1 ∧
            Castle.Draw i_stall a1 = Some a' ∧
            (in_flight a1 ≤ 2)%nat ∧ (in_flight a' ≤ 3)%nat ∧ queue_owned a') ∧
  (∃ b1 b', LitColumns.Update i_stall columns_s3 = Some b1 ∧
            LitColumns.Draw i_stall b1 = Some b' ∧
            (in_flight b1 ≤ 2)%nat ∧ (in_flight b' ≤ 3)%nat ∧ queue_owned b').
Proof.
  exact (at_most_three_frames_in_flight i_stall castle_s3 columns_s3
           (proj1 castle_s3_facts) castle_s3_owned
           (proj1 columns_s3_facts) columns_s3_owned).
Defined.

Lemma first_three_frames_never_wait_witness :
  (∃ a1 a2 a3 evs,
     run Castle.frame [i_stall; i_stall; i_stall] castle0 = Some [a1; a2; a3] ∧
     new_events (mLog castle0) (mLog a3) evs ∧ waits evs = []) ∧
  (∃ b1 b2 b3 evs,
     run LitColumns.frame [i_stall; i_stall; i_stall] columns0 = Some [b1; b2; b3] ∧
     new_events (mLog columns0) (mLog b3) evs ∧ waits evs = []).
Proof.
  exact (first_three_frames_never_wait i_stall i_stall i_stall castle0 columns0
           (proj1 castle0_facts) (proj2 castle0_scene) (castle0_small 3 small_3)
           (proj1 columns0_facts) (proj2 columns0_scene) (columns0_small 3 small_3)).
Defined.

Lemma water0_scrolls :
  MatTransform water0 ≠ MatTransform (tickMat (Castle.scrollWater i0 water0)).
Proof. vm_compute. intros [=]. Qed.

(** The claim C9 as stated fails for [Update] of the castle: on the
    state [Initialize] leaves, [Update] returns a state in which the
    water material has another [MatTransform]. *)
Lemma C9_counterexample :
  ∃ a' m m', Castle.Update i0 castle0 = Some a' ∧
             mMaterials castle0 !! "water" = Some m ∧
             mMaterials a' !! "water" = Some m' ∧
             MatTransform m ≠ MatTransform m' ∧
             ¬ scene_kept castle0 a'.
Proof.
  destruct (Castle_Update_total i0 castle0 (proj1 castle0_facts)) as [a' Hu].
  pose proof Hu as Hinv.
  apply Castle_Update_inv in Hinv
    as (fr & water & p & ri & blocked & g' & (_ & _ & Hw & _) &
        _ & _ & _ & _ & _ & _ & Em & _).
  cbn zeta in Em.
  rewrite castle0_water in Hw. injection Hw as <-.
  assert (Hw' : mMaterials a' !! "water" =
                Some (tickMat (Castle.scrollWater i0 water0))).
  { by rewrite Em, lookup_fmap, lookup_insert_eq. }
  exists a', water0, (tickMat (Castle.scrollWater i0 water0)).
  split; [exact Hu|]. split; [exact castle0_water|]. split; [exact Hw'|].
  split; [exact water0_scrolls|].
  intros [_ Hm]. specialize (Hm "water").
  rewrite castle0_water, Hw' in Hm. inversion Hm as [m m' Hs|]. subst.
  apply same_material_fields in Hs as (_ & _ & _ & _ & _ & _ & Ht).
  by apply water0_scrolls.
Qed.
End Examples.
